(** * BabyG: prediction engine and scenario simulator

    A shallow embedding of [src/lib/prediction-utils.ts] and of the parts of
    [src/lib/scenario-utils.ts] that build on it, with the properties the
    specification states about them and further properties of the code.

    Conventions of the embedding.

    - A JavaScript [number] is a value of [number]: a finite value, one of the
      two infinities, or NaN.  Finite values are exact rationals: rounding to
      binary64 and overflow are left out, the special values and the rules
      that produce them (division by zero, NaN propagation, [Math.max] and
      [Math.min] on NaN) are kept.  Zero is unsigned and divides like [+0].
    - Quantities that the data model makes integers (string and array
      lengths, counters, priorities, epoch-millisecond timestamps) are [nat]
      or [Z] and enter arithmetic through [ofZ] and [ofnat].
    - [Math.sqrt] of a positive finite value is the section variable
      [sqrtQ]: the real square root is not rational, so the embedding is
      parametric in it.
    - An optional field ([completedAt?], [category?], [subtasks?],
      [agentRole?]) is an [option]; [priority], which the code guards with
      [task.priority || 5], is one too.  Truthiness is written out.
    - Strings are [string]; [s.length] is [String.length].  An object
      literal used as a table is the list of its own keys and values; a
      lookup that misses them finds the members inherited from
      [Object.prototype] ([object_get]), which are not numbers: the third
      feature of a task is a [feature], and arithmetic on an inherited
      member gives NaN.
    - Statements that a result is finite, or that compare results that
      rounding could merge, are made within the bounds in which binary64
      agrees with the exact values: safe integers for priorities and
      timestamps, the data model's priorities 1 to 10, a window of at
      least one day.
    - [formatDuration] is modelled on finite inputs, where every
      interpolated value is an integer; [formatDuration_number] extends the
      one of scenario-utils to the infinities and NaN.
    - A method that can throw ([fit]) returns an outcome: the new state or
      the message of the error.
    - Objects that scenario-utils copies or assigns to (scenarios,
      objectives, task arrays, modification arrays) live in a store and are
      named by locations; tasks and predictions, which no function writes to,
      are values.  [compareScenarios] and [getScenarioImpact], which only
      read, run in the same store and leave it as it is. *)

From Stdlib Require Import ZArith QArith Qround List String Ascii Bool Lia Lqa DecimalString.
From stdpp Require Import base list.
Import ListNotations.

Set Warnings "-register-all".
Local Open Scope string_scope.
Local Open Scope list_scope.
Local Open Scope Z_scope.

(** String concatenation, as in a template literal. *)
Infix "+++" := String.append (right associativity, at level 60).

(** ** JavaScript numbers *)

Inductive number : Type :=
| Fin (q : Q)
| PInf
| NInf
| NaN.

Definition ofZ (z : Z) : number := Fin (inject_Z z).
Definition ofnat (n : nat) : number := ofZ (Z.of_nat n).

(** [undefined] coerces to NaN in arithmetic ([task.completedAt!]). *)
Definition of_optZ (o : option Z) : number :=
  match o with Some z => ofZ z | None => NaN end.

Definition is_finite (x : number) : bool :=
  match x with Fin _ => true | _ => false end.

Definition Qltb (a b : Q) : bool := negb (Qle_bool b a).

Definition nneg (x : number) : number :=
  match x with
  | Fin a => Fin (- a)
  | PInf => NInf
  | NInf => PInf
  | NaN => NaN
  end.

Definition nadd (x y : number) : number :=
  match x, y with
  | NaN, _ | _, NaN => NaN
  | Fin a, Fin b => Fin (a + b)
  | PInf, NInf | NInf, PInf => NaN
  | PInf, _ | _, PInf => PInf
  | NInf, _ | _, NInf => NInf
  end.

Definition nsub (x y : number) : number := nadd x (nneg y).

(** The infinity whose sign is that of [a]; NaN for zero. *)
Definition inf_signed (c : comparison) (pos : bool) : number :=
  match c with
  | Eq => NaN
  | Gt => if pos then PInf else NInf
  | Lt => if pos then NInf else PInf
  end.

Definition nmul (x y : number) : number :=
  match x, y with
  | NaN, _ | _, NaN => NaN
  | Fin a, Fin b => Fin (a * b)
  | Fin a, PInf | PInf, Fin a => inf_signed (a ?= 0)%Q true
  | Fin a, NInf | NInf, Fin a => inf_signed (a ?= 0)%Q false
  | PInf, PInf | NInf, NInf => PInf
  | PInf, NInf | NInf, PInf => NaN
  end.

Definition ndiv (x y : number) : number :=
  match x, y with
  | NaN, _ | _, NaN => NaN
  | Fin a, Fin b =>
      if Qeq_bool b 0 then inf_signed (a ?= 0)%Q true else Fin (a / b)
  | Fin _, (PInf | NInf) => Fin 0
  | PInf, Fin b => if Qltb b 0 then NInf else PInf
  | NInf, Fin b => if Qltb b 0 then PInf else NInf
  | (PInf | NInf), (PInf | NInf) => NaN
  end.

(** [x < y]; every comparison with NaN is false. *)
Definition nltb (x y : number) : bool :=
  match x, y with
  | NaN, _ | _, NaN => false
  | Fin a, Fin b => Qltb a b
  | NInf, (Fin _ | PInf) => true
  | Fin _, PInf => true
  | _, _ => false
  end.

Definition ngtb (x y : number) : bool := nltb y x.

(** [x <= y]. *)
Definition nleb (x y : number) : bool :=
  match x, y with
  | NaN, _ | _, NaN => false
  | Fin a, Fin b => Qle_bool a b
  | NInf, _ => true
  | _, PInf => true
  | _, _ => false
  end.

Definition ngeb (x y : number) : bool := nleb y x.

(** [x === y] on numbers. *)
Definition nstrict_eq (x y : number) : bool :=
  match x, y with
  | Fin a, Fin b => Qeq_bool a b
  | PInf, PInf | NInf, NInf => true
  | _, _ => false
  end.

Definition Math_min (x y : number) : number :=
  match x, y with
  | NaN, _ | _, NaN => NaN
  | _, _ => if nltb y x then y else x
  end.

Definition Math_max (x y : number) : number :=
  match x, y with
  | NaN, _ | _, NaN => NaN
  | _, _ => if nltb x y then y else x
  end.

(** [Math.pow(x, 2)]. *)
Definition Math_pow2 (x : number) : number := nmul x x.

(** [Math.floor(a / b)] on finite values, and the remainder [a % b], which
    takes the sign of the dividend. *)
Definition Qtrunc (q : Q) : Z :=
  if Qle_bool 0 q then Qfloor q else Qceiling q.

Definition Qrem (a b : Q) : Q := (a - b * inject_Z (Qtrunc (a / b)))%Q.

(** A number interpolated into a template literal, for integers. *)
Definition Z_to_string (z : Z) : string := NilZero.string_of_int (Z.to_int z).
Definition nat_to_string (n : nat) : string := Z_to_string (Z.of_nat n).

(** Truthiness of an optional integer: [undefined] and [0] are falsy. *)
Definition truthyZ (z : Z) : bool := negb (z =? 0).
Definition truthy_optZ (o : option Z) : bool :=
  match o with Some z => truthyZ z | None => false end.

(** Truthiness of a string: the empty string is falsy. *)
Definition truthy_str (s : string) : bool :=
  match s with EmptyString => false | _ => true end.

(** [s.toLowerCase()], on the ASCII letters. *)
Definition lower_ascii (c : ascii) : ascii :=
  let n := nat_of_ascii c in
  if andb (65 <=? n)%nat (n <=? 90)%nat then ascii_of_nat (n + 32) else c.

Fixpoint toLowerCase (s : string) : string :=
  match s with
  | EmptyString => EmptyString
  | String c s' => String (lower_ascii c) (toLowerCase s')
  end.

(** ** The data model ([components/BabyAGI]) *)

Inductive TaskStatus : Type := pending | executing | completed.

Definition TaskStatus_eqb (a b : TaskStatus) : bool :=
  match a, b with
  | pending, pending | executing, executing | completed, completed => true
  | _, _ => false
  end.

Inductive Task : Type := mkTask {
  task_id : string;
  title : string;
  status : TaskStatus;
  priority : option Z;
  createdAt : Z;
  completedAt : option Z;
  category : option string;
  subtasks : option (list Task)
}.

Inductive AgentRole : Type :=
  developer | designer | researcher | manager | analyst | general.

Inductive ObjectiveStatus : Type := active | paused | objective_completed.

Record Objective : Type := mkObjective {
  objective_id : string;
  objective_title : string;
  description : string;
  tasks : list Task;
  objective_status : ObjectiveStatus;
  objective_createdAt : Z;
  agentRole : option AgentRole
}.

(** ** prediction-utils.ts *)

Record TaskPrediction : Type := mkTaskPrediction {
  estimatedDuration : number;
  confidenceScore : number;
  factors : list string;
  similarTaskCount : nat
}.

Inductive RiskLevel : Type := low | medium | high.

Record ObjectivePrediction : Type := mkObjectivePrediction {
  totalEstimatedTime : number;
  completionDate : number;
  taskPredictions : list (string * TaskPrediction);
  riskLevel : RiskLevel;
  bottlenecks : list string
}.

(** [taskPredictions.set(key, value)] on a [Map], which keeps the position
    of a key that is already there. *)
Fixpoint Map_set {V : Type} (m : list (string * V)) (k : string) (v : V)
  : list (string * V) :=
  match m with
  | [] => [(k, v)]
  | (k', v') :: m' =>
      if String.eqb k' k then (k', v) :: m' else (k', v') :: Map_set m' k v
  end.

(** [(task.subtasks?.length || 0)]. *)
Definition subtasks_length (t : Task) : nat :=
  match subtasks t with Some l => length l | None => 0 end.

(** A lookup in one of the object literals used as tables; [None] is
    [undefined]. *)
Fixpoint table_get {V : Type} (m : list (string * V)) (k : string) : option V :=
  match m with
  | [] => None
  | (k', v) :: m' => if String.eqb k' k then Some v else table_get m' k
  end.

(** [new Map(entries)] and [map.get(key)]. *)
Definition Map_of_entries {V : Type} (entries : list (string * V))
  : list (string * V) :=
  fold_left (fun m '(k, v) => Map_set m k v) entries [].

Definition Map_get {V : Type} (m : list (string * V)) (k : string) : option V :=
  table_get m k.

(** *** Property access on an object literal

    [table[key]] on an object literal finds the literal's own keys and,
    failing that, the properties that every object inherits from
    [Object.prototype]; any other key gives [undefined].  An inherited
    property is a function or an object: it is truthy, and arithmetic
    coerces it to NaN. *)

Definition Object_prototype_keys : list string :=
  ["constructor"; "__defineGetter__"; "__defineSetter__"; "hasOwnProperty";
   "__lookupGetter__"; "__lookupSetter__"; "isPrototypeOf";
   "propertyIsEnumerable"; "toString"; "valueOf"; "__proto__";
   "toLocaleString"].

Definition is_inherited (key : string) : bool :=
  existsb (String.eqb key) Object_prototype_keys.

Inductive property (V : Type) : Type :=
| own (v : V)
| inherited (key : string)
| undefined.

Arguments own {V} v.
Arguments inherited {V} key.
Arguments undefined {V}.

Definition object_get {V : Type} (table : list (string * V)) (key : string)
  : property V :=
  match table_get table key with
  | Some v => own v
  | None => if is_inherited key then inherited key else undefined
  end.

(** An element of a feature array: an integer, or the member of
    [Object.prototype] that an inherited key gave. *)
Inductive feature : Type :=
| Integer (z : Z)
| PrototypeMember (key : string).

(** The number that arithmetic makes of a feature. *)
Definition to_number (f : feature) : number :=
  match f with
  | Integer z => ofZ z
  | PrototypeMember _ => NaN
  end.

Definition complexityMap : list (string * Z) :=
  [("research", 4); ("planning", 3); ("execution", 6);
   ("testing", 5); ("documentation", 2); ("optimization", 7)].

(** [complexityMap[category.toLowerCase()] || 4]. *)
Definition getCategoryComplexity (category : string) : feature :=
  match object_get complexityMap (toLowerCase category) with
  | own c => if truthyZ c then Integer c else Integer 4
  | inherited key => PrototypeMember key
  | undefined => Integer 4
  end.

Record TaskFeatures : Type := mkTaskFeatures {
  features : list feature;
  labels : list string
}.

Definition extractTaskFeatures (task : Task) : TaskFeatures :=
  {| features :=
       [ Integer (Z.of_nat (String.length (title task)));
         match priority task with
         | Some p => if truthyZ p then Integer p else Integer 5
         | None => Integer 5
         end;
         match category task with
         | Some c => if truthy_str c then getCategoryComplexity c else Integer 3
         | None => Integer 3
         end;
         Integer (Z.of_nat (subtasks_length task) * 2) ];
     labels := ["titleLength"; "priority"; "categoryComplexity"; "subtaskCount"] |}.

Definition getAgentSpeedMultiplier (role : option AgentRole) : number :=
  match default general role with
  | developer => Fin 0.9
  | designer => Fin 1.1
  | researcher => Fin 1.3
  | manager => Fin 0.8
  | analyst => Fin 1.0
  | general => Fin 1.0
  end.

Definition categoryMultipliers : list (string * Q) :=
  [("research", 1.5%Q); ("planning", 1.2%Q); ("execution", 1.8%Q);
   ("testing", 1.4%Q); ("documentation", 1.0%Q); ("optimization", 2.0%Q)].

Definition getHeuristicEstimate (task : Task) (agentRole : option AgentRole)
  : TaskPrediction :=
  let baseDuration := Fin 180000 in
  let baseDuration :=
    nadd baseDuration (nmul (ofnat (String.length (title task))) (Fin 50)) in
  let baseDuration :=
    match priority task with
    | Some p =>
        if truthyZ p
        then nadd baseDuration (nmul (nsub (Fin 11) (ofZ p)) (Fin 30000))
        else baseDuration
    | None => baseDuration
    end in
  let baseDuration :=
    match category task with
    | Some c =>
        if truthy_str c
        then nmul baseDuration
               (match object_get categoryMultipliers (toLowerCase c) with
                | own m => if Qeq_bool m 0 then Fin 1.3 else Fin m
                | inherited _ => NaN
                | undefined => Fin 1.3
                end)
        else baseDuration
    | None => baseDuration
    end in
  let baseDuration :=
    match subtasks task with
    | Some l =>
        if (0 <? length l)%nat
        then nmul baseDuration
               (nadd (Fin 1) (nmul (ofnat (length l)) (Fin 0.3)))
        else baseDuration
    | None => baseDuration
    end in
  let baseDuration := nmul baseDuration (getAgentSpeedMultiplier agentRole) in
  {| estimatedDuration := baseDuration;
     confidenceScore := Fin 0.4;
     factors := ["Heuristic estimation"; "Insufficient historical data"];
     similarTaskCount := 0 |}.

(** *** The similarity predictor

    [sqrtQ] stands for [Math.sqrt] on positive finite arguments. *)

Section Predictor.

Variable sqrtQ : Q -> Q.

Definition Math_sqrt (x : number) : number :=
  match x with
  | Fin q =>
      match (q ?= 0)%Q with
      | Eq => Fin 0
      | Gt => Fin (sqrtQ (Qred q))
      | Lt => NaN
      end
  | PInf => PInf
  | NInf => NaN
  | NaN => NaN
  end.

(** [features.reduce((sum, f) => sum + f * f, 0)]. *)
Definition sum_squares (features : list feature) : number :=
  fold_left (fun sum f => nadd sum (nmul (to_number f) (to_number f)))
    features (Fin 0).

(** [features1.reduce((sum, f1, i) => sum + f1 * features2[i], 0)], for
    vectors of one length. *)
Definition dot_product (features1 features2 : list feature) : number :=
  fold_left (fun sum '(f1, f2) => nadd sum (nmul (to_number f1) (to_number f2)))
    (combine features1 features2) (Fin 0).

Definition calculateSimilarity (features1 features2 : list feature) : number :=
  if negb (length features1 =? length features2)%nat then Fin 0
  else
    let dotProduct := dot_product features1 features2 in
    let magnitude1 := Math_sqrt (sum_squares features1) in
    let magnitude2 := Math_sqrt (sum_squares features2) in
    if orb (nstrict_eq magnitude1 (Fin 0)) (nstrict_eq magnitude2 (Fin 0))
    then Fin 0
    else ndiv dotProduct (nmul magnitude1 magnitude2).

(** [Array.prototype.sort(compare)]: a stable sort; [x] goes after [y] only
    when [compare(x, y) > 0]. *)
Fixpoint sort_insert {A : Type} (compare : A -> A -> number) (x : A) (l : list A)
  : list A :=
  match l with
  | [] => [x]
  | y :: l' =>
      if ngtb (compare x y) (Fin 0)
      then y :: sort_insert compare x l'
      else x :: y :: l'
  end.

Definition Array_sort {A : Type} (compare : A -> A -> number) (l : list A)
  : list A :=
  fold_right (sort_insert compare) [] l.

(** The filter of [predictTaskCompletionTime] and of [calculateVelocity]:
    [t.status === 'completed' && t.completedAt && t.createdAt]. *)
Definition completed_with_timing (t : Task) : bool :=
  TaskStatus_eqb (status t) completed
  && truthy_optZ (completedAt t) && truthyZ (createdAt t).

(** [item.task.completedAt! - item.task.createdAt]. *)
Definition task_duration (t : Task) : number :=
  nsub (of_optZ (completedAt t)) (ofZ (createdAt t)).

Definition nsum (l : list number) : number :=
  fold_left (fun a b => nadd a b) l (Fin 0).

Definition similar_tasks (task : Task) (completedTasks : list Task)
  : list (Task * number) :=
  let currentFeatures := features (extractTaskFeatures task) in
  take 10
    (Array_sort (fun a b => nsub (snd b) (snd a))
       (List.filter (fun item => ngtb (snd item) (Fin 0.3))
          (map (fun historicalTask =>
                  let histFeatures := features (extractTaskFeatures historicalTask) in
                  let similarity := calculateSimilarity currentFeatures histFeatures in
                  (historicalTask, similarity))
               completedTasks))).

Definition push_if {A : Type} (c : bool) (x : A) (l : list A) : list A :=
  if c then (l ++ [x]) else l.

Definition predictTaskCompletionTime
  (task : Task) (historicalTasks : list Task) (agentRole : option AgentRole)
  : TaskPrediction :=
  let completedTasks := List.filter completed_with_timing historicalTasks in
  if (length completedTasks <? 3)%nat then getHeuristicEstimate task agentRole
  else
    let similarTasks := similar_tasks task completedTasks in
    if (length similarTasks =? 0)%nat then getHeuristicEstimate task agentRole
    else
      let durations := map (fun item => task_duration (fst item)) similarTasks in
      let avgDuration := ndiv (nsum durations) (ofnat (length durations)) in
      let stdDev :=
        Math_sqrt
          (ndiv
             (fold_left (fun sum d => nadd sum (Math_pow2 (nsub d avgDuration)))
                durations (Fin 0))
             (ofnat (length durations))) in
      let speedMultiplier := getAgentSpeedMultiplier agentRole in
      let estimatedDuration := nmul avgDuration speedMultiplier in
      let sampleConfidence :=
        Math_min (ndiv (ofnat (length similarTasks)) (Fin 10)) (Fin 1) in
      let varianceConfidence :=
        Math_max (Fin 0) (nsub (Fin 1) (ndiv stdDev avgDuration)) in
      let confidenceScore :=
        ndiv (nadd sampleConfidence varianceConfidence) (Fin 2) in
      let factors : list string := [] in
      let factors :=
        push_if (match priority task with
                 | Some p => truthyZ p && (p <=? 3)
                 | None => false
                 end) "High priority" factors in
      let factors :=
        match category task with
        | Some c => push_if (truthy_str c) (c +++ " task") factors
        | None => factors
        end in
      let factors :=
        match subtasks task with
        | Some l =>
            push_if (0 <? length l)%nat (nat_to_string (length l) +++ " subtasks")
              factors
        | None => factors
        end in
      let factors :=
        push_if (5 <=? length similarTasks)%nat "Strong historical data" factors in
      {| estimatedDuration := estimatedDuration;
         confidenceScore := confidenceScore;
         factors := factors;
         similarTaskCount := length similarTasks |}.

(** The variables the [forEach] of [predictObjectiveCompletion] updates. *)
Record LoopState : Type := mkLoopState {
  ls_taskPredictions : list (string * TaskPrediction);
  ls_totalEstimatedTime : number;
  ls_highRiskTasks : nat;
  ls_bottlenecks : list string
}.

Definition loop_body (allHistoricalTasks : list Task) (role : option AgentRole)
  (st : LoopState) (task : Task) : LoopState :=
  let prediction := predictTaskCompletionTime task allHistoricalTasks role in
  let taskPredictions := Map_set (ls_taskPredictions st) (task_id task) prediction in
  let totalEstimatedTime :=
    nadd (ls_totalEstimatedTime st) (estimatedDuration prediction) in
  if nltb (confidenceScore prediction) (Fin 0.5)
     || ngtb (estimatedDuration prediction) (Fin 600000)
  then
    {| ls_taskPredictions := taskPredictions;
       ls_totalEstimatedTime := totalEstimatedTime;
       ls_highRiskTasks := S (ls_highRiskTasks st);
       ls_bottlenecks :=
         push_if (ngtb (estimatedDuration prediction) (Fin 900000))
           (title task) (ls_bottlenecks st) |}
  else
    {| ls_taskPredictions := taskPredictions;
       ls_totalEstimatedTime := totalEstimatedTime;
       ls_highRiskTasks := ls_highRiskTasks st;
       ls_bottlenecks := ls_bottlenecks st |}.

(** [highRiskTasks / Math.max(objective.tasks.length, 1)] and the
    classification of the ratio. *)
Definition riskRatio_of (highRiskTasks taskCount : nat) : number :=
  ndiv (ofnat highRiskTasks) (ofnat (Nat.max taskCount 1)).

Definition riskLevel_of (riskRatio : number) : RiskLevel :=
  if ngtb riskRatio (Fin 0.5) then high
  else if ngtb riskRatio (Fin 0.25) then medium
  else low.

(** [now] is the value of [Date.now()]. *)
Definition predictObjectiveCompletion
  (now : Z) (objective : Objective) (historicalObjectives : list Objective)
  : ObjectivePrediction :=
  let allHistoricalTasks := flat_map tasks historicalObjectives in
  let st :=
    fold_left (loop_body allHistoricalTasks (agentRole objective))
      (tasks objective)
      {| ls_taskPredictions := []; ls_totalEstimatedTime := Fin 0;
         ls_highRiskTasks := 0; ls_bottlenecks := [] |} in
  let totalEstimatedTime := nmul (ls_totalEstimatedTime st) (Fin 1.2) in
  let completionDate := nadd (ofZ now) totalEstimatedTime in
  let riskRatio := riskRatio_of (ls_highRiskTasks st) (length (tasks objective)) in
  let riskLevel := riskLevel_of riskRatio in
  {| totalEstimatedTime := totalEstimatedTime;
     completionDate := completionDate;
     taskPredictions := ls_taskPredictions st;
     riskLevel := riskLevel;
     bottlenecks := take 3 (ls_bottlenecks st) |}.

End Predictor.

(** *** The regression helper

    [fit] either throws or assigns [slope] and [intercept]; the object's two
    fields are the state. *)

Module LinearRegression.

Record state : Type := mkState {
  slope : number;
  intercept : number
}.

(** [new LinearRegression()]. *)
Definition create : state := {| slope := Fin 0; intercept := Fin 0 |}.

(** The outcome of a call that can throw: the new state, or the message of
    the [Error]. *)
Inductive outcome : Type :=
| Returned (this : state)
| Thrown (message : string).

(** [X.reduce((sum, x, i) => sum + x * y[i], 0)], for arrays of one
    length. *)
Definition sum_products (X y : list number) : number :=
  fold_left (fun sum '(x, yi) => nadd sum (nmul x yi)) (combine X y) (Fin 0).

Definition fit (this : state) (X y : list number) : outcome :=
  if negb (length X =? length y)%nat || (length X =? 0)%nat
  then Thrown "Invalid training data"
  else
    let n := ofnat (length X) in
    let sumX := nsum X in
    let sumY := nsum y in
    let sumXY := sum_products X y in
    let sumX2 := fold_left (fun sum x => nadd sum (nmul x x)) X (Fin 0) in
    let slope :=
      ndiv (nsub (nmul n sumXY) (nmul sumX sumY))
           (nsub (nmul n sumX2) (nmul sumX sumX)) in
    let intercept := ndiv (nsub sumY (nmul slope sumX)) n in
    Returned {| slope := slope; intercept := intercept |}.

Definition predict (this : state) (x : number) : number :=
  nadd (nmul (slope this) x) (intercept this).

End LinearRegression.

(** *** Display and velocity *)

(** [formatDuration] on a finite number of milliseconds.  [Math.floor] of
    a quotient of integers is [Z.div]; [%] is [Z.rem]. *)
Definition formatDuration (milliseconds : Q) : string :=
  let seconds := Qfloor (milliseconds / 1000) in
  let minutes := seconds / 60 in
  let hours := minutes / 60 in
  let days := hours / 24 in
  if 0 <? days then
    Z_to_string days +++ "d " +++ Z_to_string (Z.rem hours 24) +++ "h"
  else if 0 <? hours then
    Z_to_string hours +++ "h " +++ Z_to_string (Z.rem minutes 60) +++ "m"
  else if 0 <? minutes then
    Z_to_string minutes +++ "m"
  else
    Z_to_string seconds +++ "s".

Record Velocity : Type := mkVelocity {
  tasksPerDay : number;
  objectivesPerWeek : number;
  avgTaskDuration : number
}.

Definition ObjectiveStatus_eqb (a b : ObjectiveStatus) : bool :=
  match a, b with
  | active, active | paused, paused
  | objective_completed, objective_completed => true
  | _, _ => false
  end.

(** [days] is [None] when the caller leaves the argument out. *)
Definition calculateVelocity
  (now : Z) (objectives : list Objective) (days : option number) : Velocity :=
  let days := default (Fin 7) days in
  let cutoffDate :=
    nsub (ofZ now)
      (nmul (nmul (nmul (nmul days (Fin 24)) (Fin 60)) (Fin 60)) (Fin 1000)) in
  let recentObjectives :=
    List.filter (fun obj => ngeb (ofZ (objective_createdAt obj)) cutoffDate)
      objectives in
  let completedTasks :=
    flat_map (fun obj => List.filter completed_with_timing (tasks obj))
      recentObjectives in
  let tasksPerDay := ndiv (ofnat (length completedTasks)) days in
  let objectivesPerWeek :=
    nmul
      (ndiv
         (ofnat
            (length
               (List.filter
                  (fun obj =>
                     ObjectiveStatus_eqb (objective_status obj) objective_completed)
                  recentObjectives)))
         days)
      (Fin 7) in
  let avgTaskDuration :=
    if (0 <? length completedTasks)%nat
    then ndiv
           (fold_left (fun sum t => nadd sum (task_duration t)) completedTasks (Fin 0))
           (ofnat (length completedTasks))
    else Fin 0 in
  {| tasksPerDay := tasksPerDay;
     objectivesPerWeek := objectivesPerWeek;
     avgTaskDuration := avgTaskDuration |}.

(** ** scenario-utils.ts *)

Module ScenarioUtils.

Inductive ModificationType : Type :=
  add_task | remove_task | modify_task | change_role | change_priority
| reorder_tasks.

(** The [details] payloads the module writes. *)
Inductive ModificationDetails : Type :=
| details_task (task : Task)
| details_priority (oldPriority newPriority : Z)
| details_role (oldRole newRole : AgentRole)
| details_taskIds (taskIds : list string).

Record ScenarioModification : Type := mkScenarioModification {
  mod_type : ModificationType;
  mod_description : string;
  mod_taskId : option string;
  details : ModificationDetails
}.

(** *** The store

    A location names an object or an array.  An objective object holds the
    location of its [tasks] array; a scenario object holds the locations of
    its two objectives and of its [modifications] array. *)

Definition loc := nat.

Record ObjectiveObj : Type := mkObjectiveObj {
  o_id : string;
  o_title : string;
  o_description : string;
  o_tasks : loc;
  o_status : ObjectiveStatus;
  o_createdAt : Z;
  o_agentRole : option AgentRole
}.

Record ScenarioObj : Type := mkScenarioObj {
  s_id : string;
  s_name : string;
  s_description : string;
  baseObjective : loc;
  modifiedObjective : loc;
  prediction : ObjectivePrediction;
  s_createdAt : Z;
  modifications : loc
}.

Inductive cell : Type :=
| CScenario (s : ScenarioObj)
| CObjective (o : ObjectiveObj)
| CTasks (ts : list Task)
| CModifications (ms : list ScenarioModification).

Abbreviation store := (list cell).

(** Store-passing computations; [None] is a property read through a
    location that does not hold an object of the expected kind. *)
Definition M (A : Type) : Type := store -> option (A * store).

Definition ret {A : Type} (a : A) : M A := fun h => Some (a, h).

Definition bind {A B : Type} (m : M A) (k : A -> M B) : M B :=
  fun h => match m h with Some (a, h') => k a h' | None => None end.

Definition fail {A : Type} : M A := fun _ => None.

Notation "x <- m ;; k" := (bind m (fun x => k))
  (at level 100, m at next level, right associativity).
Notation "m ;;; k" := (bind m (fun _ => k))
  (at level 100, right associativity).

(** A new object or array. *)
Definition alloc (c : cell) : M loc := fun h => Some (length h, (h ++ [c])).

Definition read (l : loc) : M cell :=
  fun h => match h !! l with Some c => Some (c, h) | None => None end.

(** An assignment to a property or an element of the object at [l]. *)
Definition write (l : loc) (c : cell) : M unit :=
  fun h => if (l <? length h)%nat then Some (tt, <[l := c]> h) else None.

Definition get_scenario (l : loc) : M ScenarioObj :=
  c <- read l ;; match c with CScenario s => ret s | _ => fail end.

Definition get_objective (l : loc) : M ObjectiveObj :=
  c <- read l ;; match c with CObjective o => ret o | _ => fail end.

Definition get_tasks (l : loc) : M (list Task) :=
  c <- read l ;; match c with CTasks ts => ret ts | _ => fail end.

Definition get_modifications (l : loc) : M (list ScenarioModification) :=
  c <- read l ;; match c with CModifications ms => ret ms | _ => fail end.

Definition with_tasks (o : ObjectiveObj) (l : loc) : ObjectiveObj :=
  {| o_id := o_id o; o_title := o_title o; o_description := o_description o;
     o_tasks := l; o_status := o_status o; o_createdAt := o_createdAt o;
     o_agentRole := o_agentRole o |}.

Definition with_priority (t : Task) (p : Z) : Task :=
  {| task_id := task_id t; title := title t; status := status t;
     priority := Some p; createdAt := createdAt t;
     completedAt := completedAt t; category := category t;
     subtasks := subtasks t |}.

(** [obj.modifiedObjective = l], [obj.prediction = p] and
    [obj.modifications = l] on the scenario object at [obj]. *)
Definition set_modifiedObjective (obj l : loc) : M unit :=
  s <- get_scenario obj ;;
  write obj
    (CScenario
       {| s_id := s_id s; s_name := s_name s; s_description := s_description s;
          baseObjective := baseObjective s; modifiedObjective := l;
          prediction := prediction s; s_createdAt := s_createdAt s;
          modifications := modifications s |}).

Definition set_prediction (obj : loc) (p : ObjectivePrediction) : M unit :=
  s <- get_scenario obj ;;
  write obj
    (CScenario
       {| s_id := s_id s; s_name := s_name s; s_description := s_description s;
          baseObjective := baseObjective s;
          modifiedObjective := modifiedObjective s;
          prediction := p; s_createdAt := s_createdAt s;
          modifications := modifications s |}).

Definition set_modifications (obj l : loc) : M unit :=
  s <- get_scenario obj ;;
  write obj
    (CScenario
       {| s_id := s_id s; s_name := s_name s; s_description := s_description s;
          baseObjective := baseObjective s;
          modifiedObjective := modifiedObjective s;
          prediction := prediction s; s_createdAt := s_createdAt s;
          modifications := l |}).

(** The objective at [l] as the predictor reads it. *)
Definition load_objective (l : loc) : M Objective :=
  o <- get_objective l ;;
  ts <- get_tasks (o_tasks o) ;;
  ret {| objective_id := o_id o; objective_title := o_title o;
         description := o_description o; tasks := ts;
         objective_status := o_status o; objective_createdAt := o_createdAt o;
         agentRole := o_agentRole o |}.

(** [tasks.findIndex(p)]: the first index, or [-1]. *)
Fixpoint findIndex {A : Type} (p : A -> bool) (l : list A) : Z :=
  match l with
  | [] => -1
  | x :: l' =>
      if p x then 0
      else let i := findIndex p l' in if i =? -1 then -1 else i + 1
  end.

Definition dquote : string := String "034"%char EmptyString.

Definition with_agentRole (o : ObjectiveObj) (r : AgentRole) : ObjectiveObj :=
  {| o_id := o_id o; o_title := o_title o; o_description := o_description o;
     o_tasks := o_tasks o; o_status := o_status o; o_createdAt := o_createdAt o;
     o_agentRole := Some r |}.

(** An [AgentRole] interpolated into a template literal. *)
Definition AgentRole_to_string (r : AgentRole) : string :=
  match r with
  | developer => "developer"
  | designer => "designer"
  | researcher => "researcher"
  | manager => "manager"
  | analyst => "analyst"
  | general => "general"
  end.

Section Scenarios.

Variable sqrtQ : Q -> Q.

(** [now] is the value of [Date.now()], and [random] the digits of
    [Math.random().toString(36).substring(2, 9)]. *)
Variable now : Z.
Variable random : string.

(** [newScenario.prediction =
      predictObjectiveCompletion(newScenario.modifiedObjective, hist)]. *)
Definition repredict (newScenario : loc) (historicalObjectives : list Objective)
  : M unit :=
  ns <- get_scenario newScenario ;;
  objective <- load_objective (modifiedObjective ns) ;;
  set_prediction newScenario
    (predictObjectiveCompletion sqrtQ now objective historicalObjectives).

(** [newScenario.modifications = [...newScenario.modifications, m]]. *)
Definition record_modification (newScenario : loc) (m : ScenarioModification)
  : M unit :=
  ns <- get_scenario newScenario ;;
  ms <- get_modifications (modifications ns) ;;
  l <- alloc (CModifications (ms ++ [m])) ;;
  set_modifications newScenario l.

(** [createScenario]: the clone made by [JSON.parse(JSON.stringify(objective))]
    is a new objective object with a new task array. *)
Definition createScenario
  (objective : loc) (name description : string)
  (historicalObjectives : list Objective) : M loc :=
  o <- get_objective objective ;;
  ts <- get_tasks (o_tasks o) ;;
  clonedTasks <- alloc (CTasks ts) ;;
  modifiedObjective <- alloc (CObjective (with_tasks o clonedTasks)) ;;
  clone <- load_objective modifiedObjective ;;
  let prediction :=
    predictObjectiveCompletion sqrtQ now clone historicalObjectives in
  modifications <- alloc (CModifications []) ;;
  alloc
    (CScenario
       {| s_id := "scenario-" +++ Z_to_string now +++ "-" +++ random;
          s_name := name;
          s_description := description;
          baseObjective := objective;
          modifiedObjective := modifiedObjective;
          prediction := prediction;
          s_createdAt := now;
          modifications := modifications |}).

Definition addTaskToScenario
  (scenario : loc) (task : Task) (historicalObjectives : list Objective)
  : M loc :=
  s <- get_scenario scenario ;;
  newScenario <- alloc (CScenario s) ;;
  ns <- get_scenario newScenario ;;
  o <- get_objective (modifiedObjective ns) ;;
  ts <- get_tasks (o_tasks o) ;;
  newTasks <- alloc (CTasks (ts ++ [task])) ;;
  newObjective <- alloc (CObjective (with_tasks o newTasks)) ;;
  set_modifiedObjective newScenario newObjective ;;;
  repredict newScenario historicalObjectives ;;;
  record_modification newScenario
    {| mod_type := add_task;
       mod_description := "Added task: " +++ title task;
       mod_taskId := Some (task_id task);
       details := details_task task |} ;;;
  ret newScenario.

Definition modifyTaskPriority
  (scenario : loc) (taskId : string) (newPriority : Z)
  (historicalObjectives : list Objective) : M loc :=
  s <- get_scenario scenario ;;
  newScenario <- alloc (CScenario s) ;;
  ns <- get_scenario newScenario ;;
  o <- get_objective (modifiedObjective ns) ;;
  ts <- get_tasks (o_tasks o) ;;
  let taskIndex := findIndex (fun t => String.eqb (task_id t) taskId) ts in
  if taskIndex =? -1 then ret scenario
  else
    match ts !! Z.to_nat taskIndex with
    | None => fail
    | Some t =>
        let oldPriority :=
          match priority t with
          | Some p => if truthyZ p then p else 5
          | None => 5
          end in
        updatedTasks <- alloc (CTasks ts) ;;
        write updatedTasks
          (CTasks (<[Z.to_nat taskIndex := with_priority t newPriority]> ts)) ;;;
        newObjective <- alloc (CObjective (with_tasks o updatedTasks)) ;;
        set_modifiedObjective newScenario newObjective ;;;
        repredict newScenario historicalObjectives ;;;
        record_modification newScenario
          {| mod_type := change_priority;
             mod_description :=
               "Changed priority of " +++ dquote +++ title t +++ dquote
               +++ " from " +++ Z_to_string oldPriority
               +++ " to " +++ Z_to_string newPriority;
             mod_taskId := Some taskId;
             details := details_priority oldPriority newPriority |} ;;;
        ret newScenario
    end.

(** [removeTaskFromScenario]: [find] gives the first task with the id,
    [filter] drops every task with it; the log gets an entry only when a
    task was found. *)
Definition removeTaskFromScenario
  (scenario : loc) (taskId : string) (historicalObjectives : list Objective)
  : M loc :=
  s <- get_scenario scenario ;;
  newScenario <- alloc (CScenario s) ;;
  ns <- get_scenario newScenario ;;
  o <- get_objective (modifiedObjective ns) ;;
  ts <- get_tasks (o_tasks o) ;;
  let taskToRemove := List.find (fun t => String.eqb (task_id t) taskId) ts in
  newTasks <-
    alloc (CTasks (List.filter (fun t => negb (String.eqb (task_id t) taskId)) ts)) ;;
  newObjective <- alloc (CObjective (with_tasks o newTasks)) ;;
  set_modifiedObjective newScenario newObjective ;;;
  repredict newScenario historicalObjectives ;;;
  match taskToRemove with
  | Some t =>
      record_modification newScenario
        {| mod_type := remove_task;
           mod_description := "Removed task: " +++ title t;
           mod_taskId := Some taskId;
           details := details_task t |}
  | None => ret tt
  end ;;;
  ret newScenario.

(** [changeAgentRole]: the spread copies the objective's fields, so the new
    objective holds the task array of the old one. *)
Definition changeAgentRole
  (scenario : loc) (newRole : AgentRole) (historicalObjectives : list Objective)
  : M loc :=
  s <- get_scenario scenario ;;
  newScenario <- alloc (CScenario s) ;;
  ns <- get_scenario newScenario ;;
  o <- get_objective (modifiedObjective ns) ;;
  let oldRole := default general (o_agentRole o) in
  newObjective <- alloc (CObjective (with_agentRole o newRole)) ;;
  set_modifiedObjective newScenario newObjective ;;;
  repredict newScenario historicalObjectives ;;;
  record_modification newScenario
    {| mod_type := change_role;
       mod_description :=
         "Changed agent role from " +++ AgentRole_to_string oldRole
         +++ " to " +++ AgentRole_to_string newRole;
       mod_taskId := None;
       details := details_role oldRole newRole |} ;;;
  ret newScenario.

(** [reorderTasks]: [taskIds.map(id => taskMap.get(id)).filter(Boolean)]
    keeps the tasks that were found, in the order of [taskIds]. *)
Definition reorderTasks
  (scenario : loc) (taskIds : list string) (historicalObjectives : list Objective)
  : M loc :=
  s <- get_scenario scenario ;;
  newScenario <- alloc (CScenario s) ;;
  ns <- get_scenario newScenario ;;
  o <- get_objective (modifiedObjective ns) ;;
  ts <- get_tasks (o_tasks o) ;;
  let taskMap := Map_of_entries (map (fun t => (task_id t, t)) ts) in
  let reorderedTasks := omap (fun id => Map_get taskMap id) taskIds in
  newTasks <- alloc (CTasks reorderedTasks) ;;
  newObjective <- alloc (CObjective (with_tasks o newTasks)) ;;
  set_modifiedObjective newScenario newObjective ;;;
  repredict newScenario historicalObjectives ;;;
  record_modification newScenario
    {| mod_type := reorder_tasks;
       mod_description := "Reordered tasks";
       mod_taskId := None;
       details := details_taskIds taskIds |} ;;;
  ret newScenario.

End Scenarios.

(** *** Reading a scenario from a store *)

Definition scenario_at (h : store) (l : loc) : option ScenarioObj :=
  match h !! l with Some (CScenario s) => Some s | _ => None end.

Definition objective_at (h : store) (l : loc) : option ObjectiveObj :=
  match h !! l with Some (CObjective o) => Some o | _ => None end.

Definition tasks_at (h : store) (l : loc) : option (list Task) :=
  match h !! l with Some (CTasks ts) => Some ts | _ => None end.

Definition modifications_at (h : store) (l : loc)
  : option (list ScenarioModification) :=
  match h !! l with Some (CModifications ms) => Some ms | _ => None end.

(** [scenario.modifiedObjective]. *)
Definition scenario_objective (h : store) (scenario : loc) : option ObjectiveObj :=
  match scenario_at h scenario with
  | Some s => objective_at h (modifiedObjective s)
  | None => None
  end.

(** [scenario.modifiedObjective.tasks]: the array's location, and its
    contents. *)
Definition scenario_tasks_loc (h : store) (scenario : loc) : option loc :=
  match scenario_objective h scenario with
  | Some o => Some (o_tasks o)
  | None => None
  end.

Definition scenario_tasks (h : store) (scenario : loc) : option (list Task) :=
  match scenario_tasks_loc h scenario with
  | Some l => tasks_at h l
  | None => None
  end.

(** [scenario.prediction] and [scenario.modifications]. *)
Definition scenario_prediction (h : store) (scenario : loc)
  : option ObjectivePrediction :=
  match scenario_at h scenario with
  | Some s => Some (prediction s)
  | None => None
  end.

Definition scenario_log (h : store) (scenario : loc)
  : option (list ScenarioModification) :=
  match scenario_at h scenario with
  | Some s => modifications_at h (modifications s)
  | None => None
  end.

(** A scenario whose objective, task array and modification array are in
    the store. *)
Definition well_formed_scenario (h : store) (scenario : loc) : Prop :=
  exists (s : ScenarioObj) (o : ObjectiveObj) (ts : list Task)
         (ms : list ScenarioModification),
    h !! scenario = Some (CScenario s)
    /\ h !! modifiedObjective s = Some (CObjective o)
    /\ h !! o_tasks o = Some (CTasks ts)
    /\ h !! modifications s = Some (CModifications ms).

(** Every object of [h] is in [h'], at its location and with its
    contents. *)
Definition unchanged (h h' : store) : Prop :=
  forall (l : loc) (c : cell), h !! l = Some c -> h' !! l = Some c.

(** The objective object [o] with the task array [ts], as the predictor
    reads it. *)
Definition snapshot (o : ObjectiveObj) (ts : list Task) : Objective :=
  {| objective_id := o_id o; objective_title := o_title o;
     description := o_description o; tasks := ts;
     objective_status := o_status o; objective_createdAt := o_createdAt o;
     agentRole := o_agentRole o |}.

(** [formatDuration] of scenario-utils, on a finite number of
    milliseconds. *)
Definition formatDuration (ms : Q) : string :=
  let hours := Qfloor (ms / (1000 * 60 * 60)) in
  let minutes := Qfloor (Qrem ms (1000 * 60 * 60) / (1000 * 60)) in
  if 0 <? hours then
    Z_to_string hours +++ "h " +++ Z_to_string minutes +++ "m"
  else if 0 <? minutes then
    Z_to_string minutes +++ "m"
  else
    "<1m".

(** [formatDuration] on any number: for [Infinity] the hours are
    [Infinity] and the minutes, from [Infinity % 3600000], are NaN; for
    [-Infinity] and NaN both comparisons fail. *)
Definition formatDuration_number (ms : number) : string :=
  match ms with
  | Fin q => formatDuration q
  | PInf => "Infinityh NaNm"
  | NInf | NaN => "<1m"
  end.

(** *** Comparing scenarios *)

Record ScenarioComparison : Type := mkScenarioComparison {
  scenarios : list loc;
  timeDeltas : list number;
  riskComparison : list string;
  recommendations : list string
}.

(** What [compareScenarios] reads of a scenario: its name, its prediction,
    the task array of its objective and its modification array. *)
Record ScenarioView : Type := mkScenarioView {
  view_name : string;
  view_prediction : ObjectivePrediction;
  view_tasks : list Task;
  view_modifications : list ScenarioModification
}.

Definition view_scenario (scenario : loc) : M ScenarioView :=
  s <- get_scenario scenario ;;
  o <- get_objective (modifiedObjective s) ;;
  ts <- get_tasks (o_tasks o) ;;
  ms <- get_modifications (modifications s) ;;
  ret {| view_name := s_name s; view_prediction := prediction s;
         view_tasks := ts; view_modifications := ms |}.

Fixpoint mapM {A B : Type} (f : A -> M B) (l : list A) : M (list B) :=
  match l with
  | [] => ret []
  | x :: l' => y <- f x ;; ys <- mapM f l' ;; ret (y :: ys)
  end.

(** [l[i].name]-style access: reading a property of [undefined] throws. *)
Definition element {A : Type} (l : list A) (i : Z) : M A :=
  if i <? 0 then fail
  else match l !! Z.to_nat i with Some x => ret x | None => fail end.

(** [s.toUpperCase()], on the ASCII letters. *)
Definition upper_ascii (c : ascii) : ascii :=
  let n := nat_of_ascii c in
  if andb (97 <=? n)%nat (n <=? 122)%nat then ascii_of_nat (n - 32) else c.

Fixpoint toUpperCase (s : string) : string :=
  match s with
  | EmptyString => EmptyString
  | String c s' => String (upper_ascii c) (toUpperCase s')
  end.

Definition RiskLevel_to_string (r : RiskLevel) : string :=
  match r with low => "low" | medium => "medium" | high => "high" end.

Definition RiskLevel_eqb (a b : RiskLevel) : bool :=
  match a, b with
  | low, low | medium, medium | high, high => true
  | _, _ => false
  end.

Definition ModificationType_eqb (a b : ModificationType) : bool :=
  match a, b with
  | add_task, add_task | remove_task, remove_task | modify_task, modify_task
  | change_role, change_role | change_priority, change_priority
  | reorder_tasks, reorder_tasks => true
  | _, _ => false
  end.

(** [Math.min(...l)]: [Infinity] for no argument, NaN when an argument
    is NaN. *)
Definition Math_min_list (l : list number) : number :=
  fold_left Math_min l PInf.

(** [l.indexOf(x)], which compares with [===]. *)
Definition indexOf (l : list number) (x : number) : Z :=
  findIndex (fun y => nstrict_eq y x) l.

(** [const riskMap = { low: 1, medium: 2, high: 3 }]. *)
Definition riskMap (r : RiskLevel) : number :=
  match r with low => Fin 1 | medium => Fin 2 | high => Fin 3 end.

(** [l.forEach((x, index) => ...)] from [index] on, threading the
    variables the callback updates. *)
Fixpoint forEach_from {A St : Type} (f : St -> A -> nat -> St) (l : list A)
  (index : nat) (st : St) : St :=
  match l with
  | [] => st
  | x :: l' => forEach_from f l' (S index) (f st x index)
  end.

Definition count_modifications (ty : ModificationType) (scenario : ScenarioView)
  : nat :=
  length
    (List.filter (fun m => ModificationType_eqb (mod_type m) ty)
       (view_modifications scenario)).

(** The callback of the [forEach] of [compareScenarios];
    [timeDeltas[index]] is [undefined], which compares like NaN, out of
    range. *)
Definition analyze_modifications (timeDeltas : list number)
  (recommendations : list string) (scenario : ScenarioView) (index : nat)
  : list string :=
  if (index =? 0)%nat then recommendations
  else
    let addedTasks := count_modifications add_task scenario in
    let removedTasks := count_modifications remove_task scenario in
    let delta := default NaN (timeDeltas !! index) in
    let recommendations :=
      push_if ((0 <? removedTasks)%nat && nltb delta (Fin 0))
        ("Removing " +++ nat_to_string removedTasks +++ " task(s) in "
         +++ dquote +++ view_name scenario +++ dquote +++ " saves "
         +++ formatDuration_number (nneg delta))
        recommendations in
    push_if ((0 <? addedTasks)%nat
             && RiskLevel_eqb (riskLevel (view_prediction scenario)) low)
      ("Adding " +++ nat_to_string addedTasks +++ " task(s) in "
       +++ dquote +++ view_name scenario +++ dquote
       +++ " is feasible with low risk")
      recommendations.

(** [compareScenarios]: the function writes nothing, so the reads are
    done first. *)
Definition compareScenarios (scenarios : list loc) : M ScenarioComparison :=
  if (length scenarios =? 0)%nat then
    ret {| scenarios := scenarios; timeDeltas := []; riskComparison := [];
           recommendations := [] |}
  else
    views <- mapM view_scenario scenarios ;;
    base <- element views 0 ;;
    let baseTime := totalEstimatedTime (view_prediction base) in
    let timeDeltas :=
      map (fun s => nsub (totalEstimatedTime (view_prediction s)) baseTime)
        views in
    let riskComparison :=
      map (fun s =>
             let riskLabel :=
               toUpperCase (RiskLevel_to_string (riskLevel (view_prediction s))) in
             let taskCount := length (view_tasks s) in
             let bottleneckCount := length (bottlenecks (view_prediction s)) in
             riskLabel +++ " (" +++ nat_to_string taskCount +++ " tasks, "
             +++ nat_to_string bottleneckCount +++ " bottlenecks)")
        views in
    let recommendations : list string := [] in
    let fastestIndex := indexOf timeDeltas (Math_min_list timeDeltas) in
    recommendations <-
      (if 0 <? fastestIndex then
         fastest <- element views fastestIndex ;;
         ret (recommendations
              ++ ["Scenario " +++ dquote +++ view_name fastest +++ dquote
                  +++ " is the fastest option"])
       else ret recommendations) ;;
    let riskScores := map (fun s => riskMap (riskLevel (view_prediction s))) views in
    let lowestRiskIndex := indexOf riskScores (Math_min_list riskScores) in
    recommendations <-
      (if negb (lowestRiskIndex =? fastestIndex) then
         lowest <- element views lowestRiskIndex ;;
         ret (recommendations
              ++ ["Scenario " +++ dquote +++ view_name lowest +++ dquote
                  +++ " has the lowest risk"])
       else ret recommendations) ;;
    let recommendations :=
      forEach_from (analyze_modifications timeDeltas) views 0%nat
        recommendations in
    ret {| scenarios := scenarios; timeDeltas := timeDeltas;
           riskComparison := riskComparison;
           recommendations := recommendations |}.

(** [getScenarioImpact]. *)
Definition getScenarioImpact (scenario baseScenario : loc) : M string :=
  s <- get_scenario scenario ;;
  b <- get_scenario baseScenario ;;
  so <- get_objective (modifiedObjective s) ;;
  sts <- get_tasks (o_tasks so) ;;
  bo <- get_objective (modifiedObjective b) ;;
  bts <- get_tasks (o_tasks bo) ;;
  let timeDiff :=
    nsub (totalEstimatedTime (prediction s)) (totalEstimatedTime (prediction b)) in
  let taskDiff := Z.of_nat (length sts) - Z.of_nat (length bts) in
  let parts : list string := [] in
  let parts :=
    if ngtb timeDiff (Fin 0) then
      parts ++ ["+" +++ formatDuration_number timeDiff +++ " longer"]
    else if nltb timeDiff (Fin 0) then
      parts ++ [formatDuration_number (nneg timeDiff) +++ " faster"]
    else parts ++ ["Same duration"] in
  let parts :=
    push_if (negb (taskDiff =? 0))
      ((if 0 <? taskDiff then "+" else EmptyString)
       +++ Z_to_string taskDiff +++ " tasks")
      parts in
  let parts :=
    push_if (negb (RiskLevel_eqb (riskLevel (prediction s))
                     (riskLevel (prediction b))))
      (RiskLevel_to_string (riskLevel (prediction s)) +++ " risk")
      parts in
  ret (String.concat ", " parts).

(** *** The CSV helper of the export code that follows in the file *)

(** The [replace] of [escapeCSV]: every double quote becomes two. *)
Fixpoint replace_quotes (str : string) : string :=
  match str with
  | EmptyString => EmptyString
  | String c str' =>
      if Ascii.eqb c "034"%char
      then String c (String c (replace_quotes str'))
      else String c (replace_quotes str')
  end.

Definition escapeCSV (str : string) : string :=
  if negb (truthy_str str) then EmptyString else replace_quotes str.

End ScenarioUtils.

(** ** The specification's words

    The definitions below follow the specification, not the code; the
    theorems compare the two. *)

(** Category names are compared case-insensitively (data model). *)
Definition eq_ignore_case (a b : string) : bool :=
  String.eqb (toLowerCase a) (toLowerCase b).

(** The complexity of a category by its name; an unknown name gives 4. *)
Definition complexity_by_name (c : string) : Z :=
  if eq_ignore_case c "research" then 4
  else if eq_ignore_case c "planning" then 3
  else if eq_ignore_case c "execution" then 6
  else if eq_ignore_case c "testing" then 5
  else if eq_ignore_case c "documentation" then 2
  else if eq_ignore_case c "optimization" then 7
  else 4.

(** The feature vector as the specification words it: an absent category
    has complexity 4. *)
Definition claimed_features (t : Task) : list Z :=
  [ Z.of_nat (String.length (title t));
    match priority t with Some p => p | None => 5 end;
    match category t with Some c => complexity_by_name c | None => 4 end;
    Z.of_nat (subtasks_length t) * 2 ].

(** The same with complexity 3 for an absent category. *)
Definition spec_features (t : Task) : list Z :=
  [ Z.of_nat (String.length (title t));
    match priority t with Some p => p | None => 5 end;
    match category t with Some c => complexity_by_name c | None => 3 end;
    Z.of_nat (subtasks_length t) * 2 ].

(** A priority that is present is not 0 (the data model has 1 to 10), and a
    category that is present is not the empty string. *)
Definition priority_nonzero (t : Task) : Prop := priority t <> Some 0.

(** A priority of the data model: an integer from 1 to 10. *)
Definition priority_of_model (p : Z) : Prop := 1 <= p <= 10.
Definition category_nonempty (t : Task) : Prop := category t <> Some EmptyString.

(** A category that is present is not, in lower case, the name of a
    property inherited from [Object.prototype] ("constructor" and
    "__proto__" are the two names that are their own lower case). *)
Definition category_not_inherited (t : Task) : Prop :=
  forall c, category t = Some c -> is_inherited (toLowerCase c) = false.

(** A category that is such a name. *)
Definition category_inherited (t : Task) : Prop :=
  exists c, category t = Some c /\ is_inherited (toLowerCase c) = true.

(** The heuristic estimate, term by term. *)
Definition spec_priority_addition (p : option Z) : Q :=
  match p with
  | Some p => (11 - inject_Z p) * 30000
  | None => 0
  end.

Definition multiplier_by_name (c : string) : Q :=
  if eq_ignore_case c "research" then 1.5
  else if eq_ignore_case c "planning" then 1.2
  else if eq_ignore_case c "execution" then 1.8
  else if eq_ignore_case c "testing" then 1.4
  else if eq_ignore_case c "documentation" then 1.0
  else if eq_ignore_case c "optimization" then 2.0
  else 1.3.

Definition spec_category_multiplier (c : option string) : Q :=
  match c with Some c => multiplier_by_name c | None => 1 end.

Definition spec_subtask_multiplier (subtaskCount : nat) : Q :=
  if (0 <? subtaskCount)%nat
  then 1 + inject_Z (Z.of_nat subtaskCount) * 0.3
  else 1.

Definition spec_speed_multiplier (role : option AgentRole) : Q :=
  match role with
  | Some developer => 0.9
  | Some designer => 1.1
  | Some researcher => 1.3
  | Some manager => 0.8
  | Some analyst => 1.0
  | Some general | None => 1.0
  end.

Definition spec_heuristic_duration (t : Task) (role : option AgentRole) : Q :=
  (180000 + inject_Z (Z.of_nat (String.length (title t))) * 50
   + spec_priority_addition (priority t))
  * spec_category_multiplier (category t)
  * spec_subtask_multiplier (subtasks_length t)
  * spec_speed_multiplier role.

(** A historical task that is completed and has both timestamps. *)
Definition completed_and_timestamped (t : Task) : bool :=
  TaskStatus_eqb (status t) completed
  && match completedAt t with Some _ => true | None => false end.

(** A prediction that counts as high-risk. *)
Definition high_risk (p : TaskPrediction) : bool :=
  nltb (confidenceScore p) (Fin 0.5) || ngtb (estimatedDuration p) (Fin 600000).

Definition spec_riskRatio (highRiskCount taskCount : nat) : number :=
  ndiv (ofnat highRiskCount) (ofnat (Nat.max taskCount 1)).

Definition spec_riskLevel (riskRatio : number) : RiskLevel :=
  if ngtb riskRatio (Fin 0.5) then high
  else if ngtb riskRatio (Fin 0.25) then medium
  else low.

(** The order low < medium < high. *)
Definition RiskLevel_rank (r : RiskLevel) : nat :=
  match r with low => 0 | medium => 1 | high => 2 end.

(** The predictions of the tasks of an objective, in task order, and the
    number of them that are high-risk. *)
Definition task_predictions_of
  (sqrtQ : Q -> Q) (objective : Objective) (historicalObjectives : list Objective)
  : list TaskPrediction :=
  map (fun t =>
         predictTaskCompletionTime sqrtQ t (flat_map tasks historicalObjectives)
           (agentRole objective))
      (tasks objective).

Definition high_risk_count
  (sqrtQ : Q -> Q) (objective : Objective) (historicalObjectives : list Objective)
  : nat :=
  length (List.filter high_risk
            (task_predictions_of sqrtQ objective historicalObjectives)).

(** The objectives a window of zero days keeps, those created at [now] or
    later; their completed tasks that carry both timestamps; and how many
    of the objectives are completed. *)
Definition zero_window_objectives (now : Z) (objectives : list Objective)
  : list Objective :=
  List.filter (fun obj => now <=? objective_createdAt obj) objectives.

Definition zero_window_tasks (now : Z) (objectives : list Objective) : list Task :=
  flat_map (fun obj => List.filter completed_with_timing (tasks obj))
    (zero_window_objectives now objectives).

Definition zero_window_completed (now : Z) (objectives : list Objective) : nat :=
  length
    (List.filter
       (fun obj => ObjectiveStatus_eqb (objective_status obj) objective_completed)
       (zero_window_objectives now objectives)).

(** A count divided by zero: NaN for 0, Infinity otherwise. *)
Definition count_over_zero (n : nat) : number :=
  match n with O => NaN | S _ => PInf end.

(** A finite number that is zero. *)
Definition is_zero (x : number) : Prop :=
  exists q : Q, x = Fin q /\ (q == 0)%Q.

(** A string of the form "Xd Yh". *)
Definition days_hours_form (s : string) : Prop :=
  exists X Y : Z, s = Z_to_string X +++ "d " +++ Z_to_string Y +++ "h".

Fixpoint last_char (s : string) : option ascii :=
  match s with
  | EmptyString => None
  | String c EmptyString => Some c
  | String _ s' => last_char s'
  end.

(** ** Notions used to state further properties *)

(** A list of numbers in non-increasing order. *)
Fixpoint nonincreasing (l : list number) : Prop :=
  match l with
  | [] => True
  | x :: l' => Forall (fun y => nleb y x = true) l' /\ nonincreasing l'
  end.

(** The value that [compareScenarios] reads for the scenario at a
    location. *)
Definition view_of (h : list ScenarioUtils.cell) (scenario : ScenarioUtils.loc)
  (v : ScenarioUtils.ScenarioView) : Prop :=
  exists s : ScenarioUtils.ScenarioObj,
    ScenarioUtils.scenario_at h scenario = Some s
    /\ ScenarioUtils.view_name v = ScenarioUtils.s_name s
    /\ ScenarioUtils.view_prediction v = ScenarioUtils.prediction s
    /\ ScenarioUtils.scenario_tasks h scenario = Some (ScenarioUtils.view_tasks v)
    /\ ScenarioUtils.scenario_log h scenario
       = Some (ScenarioUtils.view_modifications v).

(** Reading a CSV field back: a doubled quote stands for one quote. *)
Fixpoint unescapeCSV (s : string) : string :=
  match s with
  | EmptyString => EmptyString
  | String c s' =>
      match s' with
      | String c' s'' =>
          if Ascii.eqb c "034"%char && Ascii.eqb c' "034"%char
          then String c (unescapeCSV s'')
          else String c (unescapeCSV s')
      | EmptyString => String c EmptyString
      end
  end.

Fixpoint count_quotes (s : string) : nat :=
  match s with
  | EmptyString => 0%nat
  | String c s' =>
      ((if Ascii.eqb c "034"%char then 1 else 0) + count_quotes s')%nat
  end.

(** An integer that the code's numbers hold exactly.  The embedding does
    not overflow; a statement that a result is finite carries the bounds
    within which the code does not either. *)
Definition safe_integer (z : Z) : Prop := - 2 ^ 53 < z < 2 ^ 53.

Definition priority_safe (t : Task) : Prop :=
  forall p, priority t = Some p -> safe_integer p.

(** The timestamps of a task are safe integers. *)
Definition timestamps_safe (t : Task) : Prop :=
  safe_integer (createdAt t)
  /\ forall c, completedAt t = Some c -> safe_integer c.

(** ** Sample data *)

(** An integer square root, exact on perfect squares, to run the
    predictor on the samples. *)
Definition sqrt_floor (q : Q) : Q := inject_Z (Z.sqrt (Qfloor q)).

Definition history_task (id : string) (created completed_at : Z) : Task :=
  {| task_id := id; title := "Plan"; status := completed; priority := Some 4;
     createdAt := created; completedAt := Some completed_at;
     category := Some "optimization"; subtasks := None |}.

(** Three similar tasks that took a minute each, and three that were
    completed at the instant they were created. *)
Definition steady_history : list Task :=
  [history_task "h1" 1000 61000; history_task "h2" 2000 62000;
   history_task "h3" 3000 63000].

Definition instant_history : list Task :=
  [history_task "h1" 1000 1000; history_task "h2" 2000 2000;
   history_task "h3" 3000 3000].

Definition sample_task : Task :=
  {| task_id := "t1"; title := "Plan"; status := pending; priority := Some 4;
     createdAt := 1000; completedAt := None;
     category := Some "Optimization"; subtasks := None |}.

Definition sample_task_no_category : Task :=
  {| task_id := "t2"; title := "Plan"; status := pending; priority := Some 4;
     createdAt := 1000; completedAt := None;
     category := None; subtasks := None |}.

Definition sample_objective : Objective :=
  {| objective_id := "o1"; objective_title := "Launch"; description := "none";
     tasks := [sample_task; sample_task_no_category];
     objective_status := active; objective_createdAt := 500;
     agentRole := None |}.

Definition steady_objective : Objective :=
  {| objective_id := "o0"; objective_title := "Earlier"; description := "none";
     tasks := steady_history;
     objective_status := objective_completed; objective_createdAt := 100;
     agentRole := None |}.

(** A store with a base objective (0, tasks at 1), its clone (2, tasks at
    3), an empty modification log (4) and the scenario (5). *)
Definition sample_objective_obj (tasks_loc : nat) : ScenarioUtils.ObjectiveObj :=
  {| ScenarioUtils.o_id := "o1"; ScenarioUtils.o_title := "Launch";
     ScenarioUtils.o_description := "none"; ScenarioUtils.o_tasks := tasks_loc;
     ScenarioUtils.o_status := active; ScenarioUtils.o_createdAt := 500;
     ScenarioUtils.o_agentRole := None |}.

Definition sample_scenario : ScenarioUtils.ScenarioObj :=
  {| ScenarioUtils.s_id := "scenario-1"; ScenarioUtils.s_name := "Baseline";
     ScenarioUtils.s_description := "none";
     ScenarioUtils.baseObjective := 0%nat;
     ScenarioUtils.modifiedObjective := 2%nat;
     ScenarioUtils.prediction :=
       predictObjectiveCompletion sqrt_floor 0 sample_objective [];
     ScenarioUtils.s_createdAt := 0;
     ScenarioUtils.modifications := 4%nat |}.

Definition sample_store : list ScenarioUtils.cell :=
  [ ScenarioUtils.CObjective (sample_objective_obj 1);
    ScenarioUtils.CTasks [sample_task; sample_task_no_category];
    ScenarioUtils.CObjective (sample_objective_obj 3);
    ScenarioUtils.CTasks [sample_task; sample_task_no_category];
    ScenarioUtils.CModifications [];
    ScenarioUtils.CScenario sample_scenario ].

(** A task whose category is the name of an inherited property. *)
Definition constructor_task : Task :=
  {| task_id := "t4"; title := "Plan"; status := pending; priority := Some 4;
     createdAt := 1000; completedAt := None;
     category := Some "Constructor"; subtasks := None |}.


Definition comparison_store : list ScenarioUtils.cell :=
  match ScenarioUtils.removeTaskFromScenario sqrt_floor 0 5%nat "t1" [] sample_store with
  | Some (_, h) => h
  | None => sample_store
  end.

(** ** Basic facts *)

Lemma Qltb_lt (a b : Q) : Qltb a b = true <-> (a < b)%Q.
Proof.
  unfold Qltb. rewrite negb_true_iff. split.
  - intros H. apply Qnot_le_lt. intros Hle.
    apply Qle_bool_iff in Hle. congruence.
  - intros H. destruct (Qle_bool b a) eqn:E; [|reflexivity].
    apply Qle_bool_iff in E. apply Qlt_not_le in H. contradiction.
Qed.

Lemma Qltb_ge (a b : Q) : Qltb a b = false <-> (b <= a)%Q.
Proof.
  unfold Qltb. rewrite negb_false_iff. apply Qle_bool_iff.
Qed.

Lemma truthyZ_true (z : Z) : z <> 0 -> truthyZ z = true.
Proof. intros H. unfold truthyZ. apply negb_true_iff, Z.eqb_neq, H. Qed.

Lemma truthy_str_true (s : string) :
  s <> EmptyString -> truthy_str s = true.
Proof. destruct s; [congruence | reflexivity]. Qed.

Lemma eq_ignore_case_table (c name : string) :
  toLowerCase name = name ->
  String.eqb name (toLowerCase c) = eq_ignore_case c name.
Proof.
  intros H. unfold eq_ignore_case. rewrite H. apply String.eqb_sym.
Qed.

Lemma getCategoryComplexity_by_name (c : string) :
  is_inherited (toLowerCase c) = false ->
  getCategoryComplexity c = Integer (complexity_by_name c).
Proof.
  intros H.
  unfold getCategoryComplexity, complexity_by_name, object_get, complexityMap,
    table_get.
  rewrite !eq_ignore_case_table by reflexivity.
  repeat (destruct (eq_ignore_case c _); [reflexivity|]).
  rewrite H. reflexivity.
Qed.

(** A key that is inherited is not a key of the two tables. *)
Lemma getCategoryComplexity_inherited (c : string) :
  is_inherited (toLowerCase c) = true ->
  getCategoryComplexity c = PrototypeMember (toLowerCase c).
Proof.
  intros H. unfold getCategoryComplexity, object_get.
  destruct (table_get complexityMap (toLowerCase c)) as [v|] eqn:E.
  - exfalso. unfold complexityMap, table_get in E.
    repeat match type of E with
    | (if String.eqb ?k ?x then _ else _) = _ =>
        destruct (String.eqb_spec k x) as [Ek|_];
        [rewrite <- Ek in H; discriminate H|]
    end.
    discriminate E.
  - rewrite H. reflexivity.
Qed.

(** ** The feature vector *)

(** C5, as stated, fails: a task without a category gets complexity 3 in
    its feature vector, where the claim has 4. *)
Lemma extractTaskFeatures_absent_category_is_3 :
  features (extractTaskFeatures sample_task_no_category)
  = [Integer 4; Integer 4; Integer 3; Integer 0]
  /\ features (extractTaskFeatures sample_task_no_category)
     <> map Integer (claimed_features sample_task_no_category).
Proof. split; [reflexivity | discriminate]. Qed.

(** C5, amended: for a task whose priority, when present, is not 0 and
    whose category, when present, is not the empty string and not, in
    lower case, a name inherited from [Object.prototype], the feature
    vector is the integers
    [titleLength, priority (5 when absent), categoryComplexity,
    subtaskCount * 2]; known category names map case-insensitively to
    their complexities, an unknown category maps to 4 and an absent
    category maps to 3. *)
Theorem extractTaskFeatures_spec (t : Task) :
  priority_nonzero t -> category_nonempty t -> category_not_inherited t ->
  features (extractTaskFeatures t) = map Integer (spec_features t).
Proof.
  intros Hp Hc Hi. unfold extractTaskFeatures, spec_features. cbn [features map].
  unfold priority_nonzero in Hp. unfold category_nonempty in Hc.
  unfold category_not_inherited in Hi.
  destruct (priority t) as [p|]; destruct (category t) as [c|];
    rewrite ?truthyZ_true, ?truthy_str_true by congruence;
    rewrite ?(getCategoryComplexity_by_name c (Hi c eq_refl));
    reflexivity.
Qed.

Lemma extractTaskFeatures_spec_witness :
  features (extractTaskFeatures sample_task)
  = [Integer 4; Integer 4; Integer 7; Integer 0].
Proof.
  rewrite (extractTaskFeatures_spec sample_task); [reflexivity | | | ];
    unfold priority_nonzero, category_nonempty, category_not_inherited;
    simpl; try discriminate.
  intros c E. injection E as <-. reflexivity.
Defined.

(** For a category that is such a name, "Constructor" for one, the third
    feature is no number: it is the inherited member. *)
Lemma extractTaskFeatures_inherited_category (t : Task) (c : string) :
  category t = Some c -> is_inherited (toLowerCase c) = true ->
  nth_error (features (extractTaskFeatures t)) 2
  = Some (PrototypeMember (toLowerCase c)).
Proof.
  intros Ec Hi. unfold extractTaskFeatures. cbn [features nth_error]. rewrite Ec.
  assert (Hne : truthy_str c = true).
  { destruct c; [discriminate Hi | reflexivity]. }
  rewrite Hne, (getCategoryComplexity_inherited c Hi). reflexivity.
Qed.

(** ** The heuristic estimate *)

Lemma filter_length_le {A : Type} (f g : A -> bool) (l : list A) :
  (forall x, f x = true -> g x = true) ->
  (length (List.filter f l) <= length (List.filter g l))%nat.
Proof.
  intros Himp. induction l as [|x l IH]; simpl; [lia|].
  destruct (f x) eqn:Ef.
  - rewrite (Himp x Ef). simpl. lia.
  - destruct (g x); simpl; lia.
Qed.

Lemma completed_with_timing_timestamped (t : Task) :
  completed_with_timing t = true -> completed_and_timestamped t = true.
Proof.
  unfold completed_with_timing, completed_and_timestamped, truthy_optZ.
  destruct (TaskStatus_eqb (status t) completed); simpl; [|discriminate].
  destruct (completedAt t); simpl; [reflexivity | discriminate].
Qed.

(** C2: with fewer than 3 historical tasks that are completed and carry
    both timestamps, [predictTaskCompletionTime] returns the heuristic
    estimate: confidence exactly 0.4, the two heuristic factors, and no
    similar task. *)
Theorem predictTask_heuristic_fallback
  (sqrtQ : Q -> Q) (task : Task) (historicalTasks : list Task)
  (agentRole : option AgentRole) :
  (length (List.filter completed_and_timestamped historicalTasks) < 3)%nat ->
  let p := predictTaskCompletionTime sqrtQ task historicalTasks agentRole in
  p = getHeuristicEstimate task agentRole
  /\ confidenceScore p = Fin 0.4
  /\ factors p = ["Heuristic estimation"; "Insufficient historical data"]
  /\ similarTaskCount p = 0%nat.
Proof.
  intros Hlt p.
  assert (Hp : p = getHeuristicEstimate task agentRole).
  { subst p. unfold predictTaskCompletionTime.
    pose proof (filter_length_le completed_with_timing completed_and_timestamped
                  historicalTasks completed_with_timing_timestamped) as Hle.
    destruct (Nat.ltb_spec
                (length (List.filter completed_with_timing historicalTasks)) 3);
      [reflexivity | lia]. }
  rewrite Hp. repeat split; reflexivity.
Qed.

Lemma predictTask_heuristic_fallback_witness :
  confidenceScore
    (predictTaskCompletionTime sqrt_floor sample_task
       [history_task "h1" 1000 61000; history_task "h2" 2000 62000] None)
  = Fin 0.4.
Proof.
  apply (predictTask_heuristic_fallback sqrt_floor sample_task
           [history_task "h1" 1000 61000; history_task "h2" 2000 62000] None).
  simpl. lia.
Defined.

Lemma category_multiplier_by_name (c : string) :
  is_inherited (toLowerCase c) = false ->
  match object_get categoryMultipliers (toLowerCase c) with
  | own m => if Qeq_bool m 0 then Fin 1.3 else Fin m
  | inherited _ => NaN
  | undefined => Fin 1.3
  end = Fin (multiplier_by_name c).
Proof.
  intros H. unfold multiplier_by_name, object_get, categoryMultipliers, table_get.
  rewrite !eq_ignore_case_table by reflexivity.
  repeat (destruct (eq_ignore_case c _); [reflexivity|]).
  rewrite H. reflexivity.
Qed.

Lemma category_multiplier_inherited (c : string) :
  is_inherited (toLowerCase c) = true ->
  match object_get categoryMultipliers (toLowerCase c) with
  | own m => if Qeq_bool m 0 then Fin 1.3 else Fin m
  | inherited _ => NaN
  | undefined => Fin 1.3
  end = NaN.
Proof.
  intros H. unfold object_get.
  destruct (table_get categoryMultipliers (toLowerCase c)) as [v|] eqn:E.
  - exfalso. unfold categoryMultipliers, table_get in E.
    repeat match type of E with
    | (if String.eqb ?k ?x then _ else _) = _ =>
        destruct (String.eqb_spec k x) as [Ek|_];
        [rewrite <- Ek in H; discriminate H|]
    end.
    discriminate E.
  - rewrite H. reflexivity.
Qed.

Lemma speed_multiplier_spec (role : option AgentRole) :
  getAgentSpeedMultiplier role = Fin (spec_speed_multiplier role).
Proof. destruct role as [[]|]; reflexivity. Qed.

Lemma multiplier_by_name_pos (c : string) : (0 < multiplier_by_name c)%Q.
Proof.
  unfold multiplier_by_name.
  repeat (destruct (eq_ignore_case c _); [reflexivity|]).
  reflexivity.
Qed.

Lemma spec_category_multiplier_pos (c : option string) :
  (0 < spec_category_multiplier c)%Q.
Proof. destruct c; [apply multiplier_by_name_pos | reflexivity]. Qed.

Lemma spec_subtask_multiplier_pos (n : nat) : (0 < spec_subtask_multiplier n)%Q.
Proof.
  unfold spec_subtask_multiplier. destruct (0 <? n)%nat; [|reflexivity].
  assert (0 <= inject_Z (Z.of_nat n))%Q.
  { change 0%Q with (inject_Z 0). rewrite <- Zle_Qle. lia. }
  lra.
Qed.

Lemma spec_speed_multiplier_pos (role : option AgentRole) :
  (0 < spec_speed_multiplier role)%Q.
Proof. destruct role as [[]|]; reflexivity. Qed.

(** The estimate of the code is the finite number of the specification's
    formula. *)
Lemma getHeuristicEstimate_duration (t : Task) (role : option AgentRole) :
  priority_nonzero t -> category_nonempty t -> category_not_inherited t ->
  exists q : Q,
    estimatedDuration (getHeuristicEstimate t role) = Fin q
    /\ (q == spec_heuristic_duration t role)%Q.
Proof.
  unfold priority_nonzero, category_nonempty, category_not_inherited.
  intros Hp Hc Hi.
  unfold getHeuristicEstimate, spec_heuristic_duration, subtasks_length.
  cbn [estimatedDuration]. rewrite speed_multiplier_spec.
  generalize (spec_speed_multiplier role). intros sp.
  destruct (priority t) as [p|]; destruct (category t) as [c|];
    rewrite ?truthyZ_true, ?truthy_str_true by congruence;
    rewrite ?(category_multiplier_by_name c (Hi c eq_refl));
    unfold spec_subtask_multiplier;
    destruct (subtasks t) as [l|]; try destruct (0 <? length l)%nat;
    cbn [nadd nmul nsub nneg ofZ ofnat spec_priority_addition
         spec_category_multiplier Nat.ltb Nat.leb];
    eexists; (split; [reflexivity | ring]).
Qed.

Lemma spec_priority_addition_decreasing (p1 p2 : Z) :
  p1 < p2 ->
  (spec_priority_addition (Some p2) < spec_priority_addition (Some p1))%Q.
Proof.
  intros H. unfold spec_priority_addition.
  assert (inject_Z p1 < inject_Z p2)%Q by (rewrite <- Zlt_Qlt; exact H).
  lra.
Qed.

Lemma spec_heuristic_duration_decreasing
  (t : Task) (role : option AgentRole) (p1 p2 : Z) :
  p1 < p2 ->
  (spec_heuristic_duration (ScenarioUtils.with_priority t p2) role
   < spec_heuristic_duration (ScenarioUtils.with_priority t p1) role)%Q.
Proof.
  intros H. unfold spec_heuristic_duration, subtasks_length.
  cbn [ScenarioUtils.with_priority priority title category subtasks].
  pose proof (spec_priority_addition_decreasing p1 p2 H) as Hadd.
  repeat apply Qmult_lt_compat_r;
    auto using spec_category_multiplier_pos, spec_subtask_multiplier_pos,
      spec_speed_multiplier_pos.
  lra.
Qed.

(** C3: for a category that is, in lower case, a name inherited from
    [Object.prototype] ("constructor", "__proto__"), the lookup in the
    multiplier table finds the inherited member, the default 1.3 is not
    taken, and the estimate is NaN, whatever the title, the priority, the
    subtasks and the role: it is not the finite value of the formula. *)
Theorem getHeuristicEstimate_inherited_category_nan
  (t : Task) (role : option AgentRole) :
  category_inherited t ->
  estimatedDuration (getHeuristicEstimate t role) = NaN
  /\ estimatedDuration (getHeuristicEstimate t role)
     <> Fin (spec_heuristic_duration t role)
  /\ is_finite (estimatedDuration (getHeuristicEstimate t role)) = false.
Proof.
  intros (c & Ec & Hi).
  assert (E : estimatedDuration (getHeuristicEstimate t role) = NaN).
  { unfold getHeuristicEstimate. cbn [estimatedDuration]. rewrite Ec.
    assert (Hne : truthy_str c = true).
    { destruct c; [discriminate Hi | reflexivity]. }
    rewrite Hne, (category_multiplier_inherited c Hi).
    destruct (priority t) as [p|]; [destruct (truthyZ p)|];
      (destruct (subtasks t) as [l|]; [destruct (0 <? length l)%nat|]);
      reflexivity. }
  rewrite E. repeat split. discriminate.
Qed.

Lemma getHeuristicEstimate_inherited_category_nan_witness :
  estimatedDuration (getHeuristicEstimate constructor_task None) = NaN.
Proof.
  apply (getHeuristicEstimate_inherited_category_nan constructor_task None).
  exists "Constructor". split; reflexivity.
Defined.

(** X27: for a task whose priority, when present, is a safe integer
    other than 0 and whose category, when present, is not the empty string and not, in lower
    case, a name inherited from [Object.prototype], the heuristic estimate
    is
    (180000 + titleLength * 50 + priority addition) * category multiplier
    * subtask multiplier * agent speed multiplier, with the multipliers of
    the tables; between two priorities of the data model (1 to 10) the
    lower number gives a strictly larger priority addition, and so a
    strictly larger estimate. *)
Theorem getHeuristicEstimate_formula (t : Task) (role : option AgentRole) :
  priority_nonzero t -> priority_safe t ->
  category_nonempty t -> category_not_inherited t ->
  (exists q : Q,
     estimatedDuration (getHeuristicEstimate t role) = Fin q
     /\ (q == spec_heuristic_duration t role)%Q)
  /\ (forall p1 p2 : Z,
        priority_of_model p1 -> priority_of_model p2 -> p1 < p2 ->
        (spec_priority_addition (Some p2) < spec_priority_addition (Some p1))%Q)
  /\ (forall p1 p2 : Z,
        priority_of_model p1 -> priority_of_model p2 -> p1 < p2 ->
        ngtb
          (estimatedDuration
             (getHeuristicEstimate (ScenarioUtils.with_priority t p1) role))
          (estimatedDuration
             (getHeuristicEstimate (ScenarioUtils.with_priority t p2) role))
        = true).
Proof.
  intros Hp _ Hc Hi. split; [|split].
  - apply getHeuristicEstimate_duration; assumption.
  - intros p1 p2 _ _. apply spec_priority_addition_decreasing.
  - intros p1 p2 H1 H2 Hlt. unfold priority_of_model in H1, H2.
    destruct (getHeuristicEstimate_duration (ScenarioUtils.with_priority t p1) role)
      as (q1 & E1 & Q1);
      [unfold priority_nonzero; cbn; intros E; injection E; lia
      | exact Hc | exact Hi |].
    destruct (getHeuristicEstimate_duration (ScenarioUtils.with_priority t p2) role)
      as (q2 & E2 & Q2);
      [unfold priority_nonzero; cbn; intros E; injection E; lia
      | exact Hc | exact Hi |].
    rewrite E1, E2. unfold ngtb, nltb. apply Qltb_lt.
    rewrite Q1, Q2. apply spec_heuristic_duration_decreasing, Hlt.
Qed.

Lemma sample_task_category_not_inherited : category_not_inherited sample_task.
Proof. intros c E. injection E as <-. reflexivity. Defined.

Lemma getHeuristicEstimate_formula_witness :
  exists q : Q,
    estimatedDuration (getHeuristicEstimate sample_task (Some developer)) = Fin q
    /\ (q == spec_heuristic_duration sample_task (Some developer))%Q.
Proof.
  refine (proj1 (getHeuristicEstimate_formula sample_task (Some developer) _ _ _ _)).
  - unfold priority_nonzero. simpl. discriminate.
  - intros p E. injection E as <-. unfold safe_integer. lia.
  - unfold category_nonempty. simpl. discriminate.
  - exact sample_task_category_not_inherited.
Defined.


(** ** The objective-level forecast *)

Section Forecast.

Variable sqrtQ : Q -> Q.
Variable allHistoricalTasks : list Task.
Variable role : option AgentRole.

Local Abbreviation predict :=
  (fun t : Task => predictTaskCompletionTime sqrtQ t allHistoricalTasks role).

(** One iteration of the [forEach]. *)
Lemma loop_body_step (st : LoopState) (t : Task) :
  ls_totalEstimatedTime (loop_body sqrtQ allHistoricalTasks role st t)
  = nadd (ls_totalEstimatedTime st) (estimatedDuration (predict t))
  /\ ls_highRiskTasks (loop_body sqrtQ allHistoricalTasks role st t)
     = (ls_highRiskTasks st + if high_risk (predict t) then 1 else 0)%nat.
Proof.
  unfold loop_body, high_risk. fold (predict t).
  destruct (nltb (confidenceScore (predict t)) (Fin 0.5)
            || ngtb (estimatedDuration (predict t)) (Fin 600000));
    cbn [ls_totalEstimatedTime ls_highRiskTasks]; split; (reflexivity || lia).
Qed.

(** What the [forEach] has accumulated after a list of tasks. *)
Lemma loop_accumulates (ts : list Task) (st : LoopState) :
  let st' := fold_left (loop_body sqrtQ allHistoricalTasks role) ts st in
  ls_totalEstimatedTime st'
  = fold_left (fun a b => nadd a b) (map estimatedDuration (map predict ts))
      (ls_totalEstimatedTime st)
  /\ ls_highRiskTasks st'
     = (ls_highRiskTasks st + length (List.filter high_risk (map predict ts)))%nat.
Proof.
  revert st. induction ts as [|t ts IH]; intros st; cbn [fold_left map].
  - split; [reflexivity | simpl; lia].
  - destruct (IH (loop_body sqrtQ allHistoricalTasks role st t)) as [IHt IHr].
    destruct (loop_body_step st t) as [Ht Hr].
    cbv zeta in IHt, IHr |- *. rewrite IHt, IHr, Ht, Hr.
    cbn [List.filter]. destruct (high_risk (predict t)); cbn [length];
      split; (reflexivity || lia).
Qed.

End Forecast.

(** C1: the total is 1.2 times the sum of the task estimates, the overhead
    applied once to the sum, and the risk level classifies the ratio of
    high-risk tasks to [max(taskCount, 1)]: high above 0.5, medium above
    0.25, low otherwise. *)
Theorem predictObjectiveCompletion_total_and_risk
  (sqrtQ : Q -> Q) (now : Z) (objective : Objective)
  (historicalObjectives : list Objective) :
  let predictions := task_predictions_of sqrtQ objective historicalObjectives in
  let p := predictObjectiveCompletion sqrtQ now objective historicalObjectives in
  totalEstimatedTime p = nmul (nsum (map estimatedDuration predictions)) (Fin 1.2)
  /\ riskLevel p
     = spec_riskLevel
         (spec_riskRatio (length (List.filter high_risk predictions))
            (length (tasks objective))).
Proof.
  intros predictions p. subst p predictions.
  unfold predictObjectiveCompletion, task_predictions_of.
  cbn [totalEstimatedTime riskLevel].
  destruct (loop_accumulates sqrtQ (flat_map tasks historicalObjectives)
              (agentRole objective) (tasks objective)
              {| ls_taskPredictions := []; ls_totalEstimatedTime := Fin 0;
                 ls_highRiskTasks := 0; ls_bottlenecks := [] |}) as [Ht Hr].
  cbv zeta in Ht, Hr. cbn [ls_totalEstimatedTime ls_highRiskTasks] in Ht, Hr.
  rewrite Ht, Hr. split; reflexivity.
Qed.

(** ** Risk monotonicity *)

Lemma ofnat_max_nonzero (n : nat) :
  Qeq_bool (inject_Z (Z.of_nat (Nat.max n 1))) 0 = false.
Proof.
  destruct (Qeq_bool _ 0) eqn:E; [|reflexivity].
  apply Qeq_bool_eq in E. unfold Qeq in E. cbn in E. lia.
Qed.

Lemma riskRatio_of_finite (h n : nat) :
  riskRatio_of h n
  = Fin (inject_Z (Z.of_nat h) / inject_Z (Z.of_nat (Nat.max n 1))).
Proof.
  unfold riskRatio_of, ndiv, ofnat, ofZ. rewrite ofnat_max_nonzero. reflexivity.
Qed.

Lemma riskRatio_of_monotone (h1 h2 n : nat) :
  (h1 <= h2)%nat -> nleb (riskRatio_of h1 n) (riskRatio_of h2 n) = true.
Proof.
  intros H. rewrite !riskRatio_of_finite. cbn [nleb]. apply Qle_bool_iff.
  unfold Qdiv. apply Qmult_le_compat_r.
  - rewrite <- Zle_Qle. lia.
  - apply Qinv_le_0_compat. change 0%Q with (inject_Z 0).
    rewrite <- Zle_Qle. lia.
Qed.

Lemma riskLevel_of_monotone (x y : number) :
  is_finite x = true -> is_finite y = true -> nleb x y = true ->
  (RiskLevel_rank (riskLevel_of x) <= RiskLevel_rank (riskLevel_of y))%nat.
Proof.
  destruct x as [a| | |], y as [b| | |]; try discriminate. intros _ _ Hle.
  cbn [nleb] in Hle. apply Qle_bool_iff in Hle.
  unfold riskLevel_of, ngtb, nltb.
  destruct (Qltb 0.5 a) eqn:Ea; destruct (Qltb 0.5 b) eqn:Eb;
    destruct (Qltb 0.25 a) eqn:Ea'; destruct (Qltb 0.25 b) eqn:Eb';
    cbn [RiskLevel_rank]; try lia;
    rewrite ?Qltb_lt, ?Qltb_ge in *; exfalso; lra.
Qed.

(** C6: for two runs over objectives with the same number of tasks, the
    one with at least as many high-risk tasks has at least as large a risk
    ratio and a risk level that is not lower in low < medium < high. *)
Theorem risk_monotone
  (sqrtQ : Q -> Q) (now1 now2 : Z) (objective1 objective2 : Objective)
  (hist1 hist2 : list Objective) :
  length (tasks objective1) = length (tasks objective2) ->
  (high_risk_count sqrtQ objective1 hist1
   <= high_risk_count sqrtQ objective2 hist2)%nat ->
  nleb
    (riskRatio_of (high_risk_count sqrtQ objective1 hist1)
       (length (tasks objective1)))
    (riskRatio_of (high_risk_count sqrtQ objective2 hist2)
       (length (tasks objective2)))
  = true
  /\ (RiskLevel_rank
        (riskLevel (predictObjectiveCompletion sqrtQ now1 objective1 hist1))
      <= RiskLevel_rank
           (riskLevel (predictObjectiveCompletion sqrtQ now2 objective2 hist2)))%nat.
Proof.
  intros Hlen Hcount.
  assert (Hratio :
    nleb
      (riskRatio_of (high_risk_count sqrtQ objective1 hist1)
         (length (tasks objective1)))
      (riskRatio_of (high_risk_count sqrtQ objective2 hist2)
         (length (tasks objective2))) = true).
  { rewrite Hlen. apply riskRatio_of_monotone, Hcount. }
  split; [exact Hratio|].
  unfold predictObjectiveCompletion. cbn [riskLevel].
  destruct (loop_accumulates sqrtQ (flat_map tasks hist1)
              (agentRole objective1) (tasks objective1)
              {| ls_taskPredictions := []; ls_totalEstimatedTime := Fin 0;
                 ls_highRiskTasks := 0; ls_bottlenecks := [] |}) as [_ Hr1].
  destruct (loop_accumulates sqrtQ (flat_map tasks hist2)
              (agentRole objective2) (tasks objective2)
              {| ls_taskPredictions := []; ls_totalEstimatedTime := Fin 0;
                 ls_highRiskTasks := 0; ls_bottlenecks := [] |}) as [_ Hr2].
  cbv zeta in Hr1, Hr2. cbn [ls_highRiskTasks] in Hr1, Hr2.
  rewrite Hr1, Hr2. cbn [Nat.add].
  apply riskLevel_of_monotone; try (rewrite riskRatio_of_finite; reflexivity).
  exact Hratio.
Qed.

Example high_risk_count_samples :
  high_risk_count sqrt_floor sample_objective [steady_objective] = 0%nat
  /\ high_risk_count sqrt_floor sample_objective [] = 2%nat
  /\ riskLevel
       (predictObjectiveCompletion sqrt_floor 0 sample_objective [steady_objective])
     = low
  /\ riskLevel (predictObjectiveCompletion sqrt_floor 0 sample_objective [])
     = high.
Proof. vm_compute. repeat split; reflexivity. Qed.

Lemma risk_monotone_witness :
  (RiskLevel_rank
     (riskLevel
        (predictObjectiveCompletion sqrt_floor 0 sample_objective [steady_objective]))
   <= RiskLevel_rank
        (riskLevel (predictObjectiveCompletion sqrt_floor 0 sample_objective [])))%nat.
Proof.
  apply (risk_monotone sqrt_floor 0 0 sample_objective sample_objective
           [steady_objective] []).
  - reflexivity.
  - vm_compute. lia.
Defined.

(** ** Confidence *)

(** The confidence is 0.4 on the heuristic path and the average of the
    sample and variance components on the similarity path. *)
Lemma predictTask_confidence_shape
  (sqrtQ : Q -> Q) (task : Task) (historicalTasks : list Task)
  (agentRole : option AgentRole) :
  let p := predictTaskCompletionTime sqrtQ task historicalTasks agentRole in
  (p = getHeuristicEstimate task agentRole /\ confidenceScore p = Fin 0.4)
  \/ (exists (matchCount : nat) (stdDev avgDuration : number),
        matchCount = similarTaskCount p
        /\ confidenceScore p
           = ndiv
               (nadd (Math_min (ndiv (ofnat matchCount) (Fin 10)) (Fin 1))
                  (Math_max (Fin 0) (nsub (Fin 1) (ndiv stdDev avgDuration))))
               (Fin 2)).
Proof.
  intros p. subst p. unfold predictTaskCompletionTime.
  destruct (length (List.filter completed_with_timing historicalTasks) <? 3)%nat;
    [left; split; reflexivity|].
  destruct (length (similar_tasks sqrtQ task _) =? 0)%nat;
    [left; split; reflexivity|].
  right. eexists _, _, _. split; reflexivity.
Qed.


Lemma is_zero_add (x y : number) : is_zero x -> is_zero y -> is_zero (nadd x y).
Proof.
  intros (a & -> & Ha) (b & -> & Hb). exists (a + b)%Q. split; [reflexivity|].
  rewrite Ha, Hb. reflexivity.
Qed.

Lemma is_zero_div_count (x : number) (n : nat) :
  is_zero x -> (0 < n)%nat -> is_zero (ndiv x (ofnat n)).
Proof.
  intros (a & -> & Ha) Hn. unfold ndiv, ofnat, ofZ.
  destruct (Qeq_bool (inject_Z (Z.of_nat n)) 0) eqn:E.
  - apply Qeq_bool_eq in E. unfold Qeq in E. cbn in E. lia.
  - exists (a / inject_Z (Z.of_nat n))%Q. split; [reflexivity|].
    rewrite Ha. unfold Qdiv. ring.
Qed.

Lemma is_zero_fold (f : number -> number) (l : list number) (acc : number) :
  is_zero acc -> (forall d, In d l -> is_zero (f d)) ->
  is_zero (fold_left (fun sum d => nadd sum (f d)) l acc).
Proof.
  revert acc. induction l as [|d l IH]; intros acc Hacc Hl; cbn [fold_left].
  - exact Hacc.
  - apply IH.
    + apply is_zero_add; [exact Hacc | apply Hl; left; reflexivity].
    + intros d' Hd'. apply Hl. right. exact Hd'.
Qed.

Lemma task_duration_instant (t : Task) :
  completedAt t = Some (createdAt t) -> is_zero (task_duration t).
Proof.
  intros H. unfold task_duration. rewrite H. cbn [of_optZ].
  unfold nsub, nneg, nadd, ofZ. eexists. split; [reflexivity|]. ring.
Qed.

Lemma Math_sqrt_zero (sqrtQ : Q -> Q) (x : number) :
  is_zero x -> Math_sqrt sqrtQ x = Fin 0.
Proof.
  intros (q & -> & Hq). unfold Math_sqrt.
  rewrite (proj1 (Qeq_alt q 0) Hq). reflexivity.
Qed.

Lemma ndiv_zero_zero (y : number) : is_zero y -> ndiv (Fin 0) y = NaN.
Proof.
  intros (q & -> & Hq). unfold ndiv. rewrite (Qeq_eq_bool _ _ Hq). reflexivity.
Qed.

(** C4: on the similarity path, when every retained similar task has
    [completedAt] equal to [createdAt], the average duration and the
    standard deviation are 0, [stdDev / avgDuration] is 0 / 0 and the
    confidence is NaN: neither [0 <= confidence] nor [confidence <= 1]
    holds. *)
Theorem predictTask_confidence_nan
  (sqrtQ : Q -> Q) (task : Task) (historicalTasks : list Task)
  (agentRole : option AgentRole) :
  let completedTasks := List.filter completed_with_timing historicalTasks in
  let similarTasks := similar_tasks sqrtQ task completedTasks in
  (3 <= length completedTasks)%nat ->
  similarTasks <> [] ->
  (forall item, In item similarTasks ->
     completedAt (fst item) = Some (createdAt (fst item))) ->
  let p := predictTaskCompletionTime sqrtQ task historicalTasks agentRole in
  similarTaskCount p = length similarTasks
  /\ confidenceScore p = NaN
  /\ nleb (Fin 0) (confidenceScore p) = false
  /\ nleb (confidenceScore p) (Fin 1) = false.
Proof.
  intros completedTasks similarTasks Hlen Hne Hinst p.
  assert (Hp : similarTaskCount p = length similarTasks /\ confidenceScore p = NaN).
  { subst p. unfold predictTaskCompletionTime.
    fold completedTasks. fold similarTasks.
    destruct (Nat.ltb_spec (length completedTasks) 3) as [Hlt|_]; [lia|].
    destruct (Nat.eqb_spec (length similarTasks) 0) as [H0|Hpos].
    { destruct similarTasks; [congruence | discriminate]. }
    cbn [similarTaskCount confidenceScore]. split; [reflexivity|].
    set (durations := map (fun item => task_duration (fst item)) similarTasks).
    assert (Hd : forall d, In d durations -> is_zero d).
    { intros d Hd. apply in_map_iff in Hd. destruct Hd as (item & <- & Hin).
      apply task_duration_instant, Hinst, Hin. }
    assert (Hn : (0 < length durations)%nat).
    { subst durations. rewrite length_map. lia. }
    assert (Hsum : is_zero (nsum durations)).
    { unfold nsum. apply (is_zero_fold (fun d => d)).
      - exists 0%Q. split; reflexivity.
      - exact Hd. }
    pose proof (is_zero_div_count _ _ Hsum Hn) as Havg.
    set (avgDuration := ndiv (nsum durations) (ofnat (length durations))) in *.
    assert (Hvar : is_zero
      (ndiv
         (fold_left (fun sum d => nadd sum (Math_pow2 (nsub d avgDuration)))
            durations (Fin 0))
         (ofnat (length durations)))).
    { apply is_zero_div_count; [|exact Hn].
      apply (is_zero_fold (fun d => Math_pow2 (nsub d avgDuration))).
      - exists 0%Q. split; reflexivity.
      - intros d Hin. destruct (Hd d Hin) as (a & -> & Ha).
        destruct Havg as (b & -> & Hb).
        unfold Math_pow2, nsub, nneg, nadd, nmul. eexists. split; [reflexivity|].
        rewrite Ha, Hb. ring. }
    rewrite (Math_sqrt_zero sqrtQ _ Hvar), (ndiv_zero_zero _ Havg).
    cbn [nsub nneg nadd Math_max].
    destruct (Math_min _ _); reflexivity. }
  destruct Hp as [Hc Hnan]. rewrite Hnan.
  repeat split; (exact Hc || reflexivity).
Qed.

Lemma predictTask_confidence_nan_witness :
  confidenceScore
    (predictTaskCompletionTime sqrt_floor sample_task instant_history None)
  = NaN.
Proof.
  apply (predictTask_confidence_nan sqrt_floor sample_task instant_history None).
  - vm_compute. lia.
  - vm_compute. discriminate.
  - vm_compute. intros item [<-|[<-|[<-|[]]]]; reflexivity.
Defined.

(** With a steady history the same task gets confidence 0.65. *)
Example predictTask_steady :
  predictTaskCompletionTime sqrt_floor sample_task steady_history None
  = {| estimatedDuration := Fin (1800000 # 30);
       confidenceScore := Fin (2340000 # 3600000);
       factors := ["Optimization task"];
       similarTaskCount := 3 |}.
Proof. vm_compute. reflexivity. Qed.

Example getHeuristicEstimate_sample :
  getHeuristicEstimate sample_task None
  = {| estimatedDuration := Fin (78040000 # 100);
       confidenceScore := Fin 0.4;
       factors := ["Heuristic estimation"; "Insufficient historical data"];
       similarTaskCount := 0 |}.
Proof. vm_compute. reflexivity. Qed.

(** ** Duration formatting *)

Lemma Qfloor_unique (x : Q) (d : Z) :
  (inject_Z d <= x)%Q -> (x < inject_Z (d + 1))%Q -> Qfloor x = d.
Proof.
  intros H1 H2.
  pose proof (Qfloor_le x) as F1. pose proof (Qlt_floor x) as F2.
  assert (d < Qfloor x + 1) by (rewrite Zlt_Qlt; lra).
  assert (Qfloor x < d + 1) by (rewrite Zlt_Qlt; lra).
  lia.
Qed.

Lemma Qfloor_div (q : Q) (k : Z) :
  0 < k -> Qfloor q / k = Qfloor (q / inject_Z k).
Proof.
  intros Hk. symmetry. apply Qfloor_unique.
  - apply Qle_shift_div_l.
    + change 0%Q with (inject_Z 0). rewrite <- Zlt_Qlt. exact Hk.
    + rewrite <- inject_Z_mult. apply Qle_trans with (inject_Z (Qfloor q)).
      * rewrite <- Zle_Qle. Z.div_mod_to_equations. nia.
      * apply Qfloor_le.
  - apply Qlt_shift_div_r.
    + change 0%Q with (inject_Z 0). rewrite <- Zlt_Qlt. exact Hk.
    + rewrite <- inject_Z_mult. apply Qlt_le_trans with (inject_Z (Qfloor q + 1)).
      * apply Qlt_floor.
      * rewrite <- Zle_Qle. Z.div_mod_to_equations. nia.
Qed.

(** [z <= floor x] exactly when [z <= x]. *)
Lemma Qfloor_ge (x : Q) (z : Z) : z <= Qfloor x <-> (inject_Z z <= x)%Q.
Proof.
  split; intros H.
  - apply Qle_trans with (inject_Z (Qfloor x)); [|apply Qfloor_le].
    rewrite <- Zle_Qle. exact H.
  - pose proof (Qlt_floor x) as F.
    assert (z < Qfloor x + 1) by (rewrite Zlt_Qlt; lra). lia.
Qed.

(** The intermediate values of [formatDuration] as floors of the input. *)
Lemma seconds_to_minutes (ms : Q) :
  Qfloor (ms / 1000) / 60 = Qfloor (ms / 60000).
Proof.
  rewrite (Qfloor_div _ 60) by lia. apply Qfloor_comp.
  change (inject_Z 60) with 60%Q. field.
Qed.

Lemma minutes_to_hours (ms : Q) :
  Qfloor (ms / 60000) / 60 = Qfloor (ms / 3600000).
Proof.
  rewrite (Qfloor_div _ 60) by lia. apply Qfloor_comp.
  change (inject_Z 60) with 60%Q. field.
Qed.

Lemma hours_to_days (ms : Q) :
  Qfloor (ms / 3600000) / 24 = Qfloor (ms / 86400000).
Proof.
  rewrite (Qfloor_div _ 24) by lia. apply Qfloor_comp.
  change (inject_Z 24) with 24%Q. field.
Qed.

Lemma Qfloor_div_ge (ms : Q) (k : Z) :
  0 < k -> (1 <= Qfloor (ms / inject_Z k) <-> (inject_Z k <= ms)%Q).
Proof.
  intros Hk. rewrite Qfloor_ge.
  assert (0 < inject_Z k)%Q
    by (change 0%Q with (inject_Z 0); rewrite <- Zlt_Qlt; exact Hk).
  split; intros H1.
  - apply Qmult_le_r with (z := (/ inject_Z k)%Q).
    + apply Qinv_lt_0_compat; assumption.
    + rewrite Qmult_inv_r by lra. exact H1.
  - apply Qle_shift_div_l; [assumption|]. change (inject_Z 1) with 1%Q. lra.
Qed.

Lemma Qfloor_plus_Z (x : Q) (z : Z) : Qfloor (x + inject_Z z) = Qfloor x + z.
Proof.
  apply Qfloor_unique.
  - rewrite inject_Z_plus. pose proof (Qfloor_le x). lra.
  - replace (Qfloor x + z + 1) with ((Qfloor x + 1) + z) by lia.
    rewrite inject_Z_plus. pose proof (Qlt_floor x). lra.
Qed.

Lemma Qtrunc_nonneg (q : Q) : (0 <= q)%Q -> Qtrunc q = Qfloor q.
Proof.
  intros H. unfold Qtrunc. apply Qle_bool_iff in H. rewrite H. reflexivity.
Qed.

Lemma scenario_minutes (ms : Q) :
  (0 <= ms)%Q ->
  Qfloor (Qrem ms (1000 * 60 * 60) / (1000 * 60)) = Qfloor (ms / 60000) mod 60.
Proof.
  intros Hms. unfold Qrem.
  rewrite Qtrunc_nonneg by (apply Qle_shift_div_l; lra).
  assert (E : (ms / (1000 * 60 * 60) == ms / 3600000)%Q) by (field).
  rewrite (Qfloor_comp _ _ E).
  set (H := Qfloor (ms / 3600000)).
  assert (E2 : ((ms - 1000 * 60 * 60 * inject_Z H) / (1000 * 60)
                == ms / 60000 + inject_Z (- (60 * H)))%Q).
  { rewrite inject_Z_opp, inject_Z_mult. change (inject_Z 60) with 60%Q. field. }
  rewrite (Qfloor_comp _ _ E2), Qfloor_plus_Z.
  subst H. rewrite <- minutes_to_hours.
  Z.div_mod_to_equations. lia.
Qed.

Lemma scenario_formatDuration_cases (ms : Q) :
  (0 <= ms)%Q ->
  let H := Qfloor (ms / 3600000) in
  let Mi := Qfloor (ms / 60000) in
  ((3600000 <= ms)%Q ->
     1 <= H /\ ScenarioUtils.formatDuration ms
              = Z_to_string H +++ "h " +++ Z_to_string (Mi mod 60) +++ "m")
  /\ ((60000 <= ms)%Q -> (ms < 3600000)%Q ->
     1 <= Mi /\ ScenarioUtils.formatDuration ms = Z_to_string Mi +++ "m")
  /\ ((ms < 60000)%Q -> ScenarioUtils.formatDuration ms = "<1m").
Proof.
  intros Hms H Mi.
  pose proof (Qfloor_div_ge ms 3600000 ltac:(lia)) as HH.
  pose proof (Qfloor_div_ge ms 60000 ltac:(lia)) as HM.
  change (inject_Z 3600000) with 3600000%Q in HH.
  change (inject_Z 60000) with 60000%Q in HM.
  fold H in HH. fold Mi in HM.
  unfold ScenarioUtils.formatDuration.
  rewrite scenario_minutes by assumption.
  assert (E : (ms / (1000 * 60 * 60) == ms / 3600000)%Q) by (field).
  rewrite (Qfloor_comp _ _ E). fold H Mi.
  assert (HHM : H = Mi / 60) by (symmetry; apply minutes_to_hours).
  repeat split.
  - apply HH; assumption.
  - destruct (Z.ltb_spec 0 H) as [_|HH']; [reflexivity|].
    assert (1 <= H) by (apply HH; assumption). lia.
  - apply HM; assumption.
  - destruct (Z.ltb_spec 0 H) as [HH'|HH'].
    { assert (3600000 <= ms)%Q by (apply HH; lia). lra. }
    assert (1 <= Mi) by (apply HM; assumption).
    assert (Mi mod 60 = Mi) by (apply Z.mod_small; Z.div_mod_to_equations; lia).
    destruct (Z.ltb_spec 0 (Mi mod 60)); [congruence | lia].
  - intros Hlt. destruct (Z.ltb_spec 0 H) as [HH'|HH'].
    { assert (3600000 <= ms)%Q by (apply HH; lia). lra. }
    destruct (Z.ltb_spec 0 (Mi mod 60)) as [HM'|HM']; [|reflexivity].
    assert (~ 1 <= Mi) by (intros C; apply (proj1 HM) in C; lra).
    assert (0 <= Mi).
    { apply Qfloor_ge. change (inject_Z 0) with 0%Q. apply Qle_shift_div_l; lra. }
    assert (HMi : Mi = 0) by lia. rewrite HMi in HM'. cbv in HM'. discriminate.
Qed.

Lemma formatDuration_cases (ms : Q) :
  (0 <= ms)%Q ->
  let D := Qfloor (ms / 86400000) in
  let H := Qfloor (ms / 3600000) in
  let Mi := Qfloor (ms / 60000) in
  let S := Qfloor (ms / 1000) in
  ((86400000 <= ms)%Q ->
     1 <= D /\ formatDuration ms
              = Z_to_string D +++ "d " +++ Z_to_string (H mod 24) +++ "h")
  /\ ((3600000 <= ms)%Q -> (ms < 86400000)%Q ->
     1 <= H /\ formatDuration ms
              = Z_to_string H +++ "h " +++ Z_to_string (Mi mod 60) +++ "m")
  /\ ((60000 <= ms)%Q -> (ms < 3600000)%Q ->
     1 <= Mi /\ formatDuration ms = Z_to_string Mi +++ "m")
  /\ ((ms < 60000)%Q -> formatDuration ms = Z_to_string S +++ "s").
Proof.
  intros Hms D H Mi S.
  pose proof (Qfloor_div_ge ms 86400000 ltac:(lia)) as HD.
  pose proof (Qfloor_div_ge ms 3600000 ltac:(lia)) as HH.
  pose proof (Qfloor_div_ge ms 60000 ltac:(lia)) as HM.
  change (inject_Z 86400000) with 86400000%Q in HD.
  change (inject_Z 3600000) with 3600000%Q in HH.
  change (inject_Z 60000) with 60000%Q in HM.
  fold D in HD. fold H in HH. fold Mi in HM.
  assert (HS0 : 0 <= S).
  { apply Qfloor_ge. change (inject_Z 0) with 0%Q.
    apply Qle_shift_div_l; lra. }
  assert (HM0 : 0 <= Mi).
  { apply Qfloor_ge. change (inject_Z 0) with 0%Q.
    apply Qle_shift_div_l; lra. }
  assert (HH0 : 0 <= H).
  { apply Qfloor_ge. change (inject_Z 0) with 0%Q.
    apply Qle_shift_div_l; lra. }
  unfold formatDuration.
  rewrite seconds_to_minutes, minutes_to_hours, hours_to_days.
  fold D H Mi S.
  rewrite !Z.rem_mod_nonneg by lia.
  repeat split.
  - apply HD; assumption.
  - destruct (Z.ltb_spec 0 D); [reflexivity|]. apply HD in H0. lia.
  - apply HH; assumption.
  - destruct (Z.ltb_spec 0 D) as [HD'|_].
    + assert (86400000 <= ms)%Q by (apply HD; lia). lra.
    + destruct (Z.ltb_spec 0 H); [reflexivity|]. apply HH in H0. lia.
  - apply HM; assumption.
  - destruct (Z.ltb_spec 0 D) as [HD'|_].
    { assert (86400000 <= ms)%Q by (apply HD; lia). lra. }
    destruct (Z.ltb_spec 0 H) as [HH'|_].
    { assert (3600000 <= ms)%Q by (apply HH; lia). lra. }
    destruct (Z.ltb_spec 0 Mi); [reflexivity|]. apply HM in H0. lia.
  - intros Hlt. destruct (Z.ltb_spec 0 D) as [HD'|_].
    { assert (86400000 <= ms)%Q by (apply HD; lia). lra. }
    destruct (Z.ltb_spec 0 H) as [HH'|_].
    { assert (3600000 <= ms)%Q by (apply HH; lia). lra. }
    destruct (Z.ltb_spec 0 Mi) as [HM'|_].
    { assert (60000 <= ms)%Q by (apply HM; lia). lra. }
    reflexivity.
Qed.

Lemma append_nonempty_r (a b : string) :
  b <> EmptyString -> a +++ b <> EmptyString.
Proof. destruct a; cbn; [trivial | discriminate]. Qed.

Lemma last_char_append (a b : string) :
  b <> EmptyString -> last_char (a +++ b) = last_char b.
Proof.
  intros Hb. induction a as [|c a IH]; [reflexivity|].
  cbn [String.append last_char].
  destruct (a +++ b) eqn:E; [|exact IH].
  exfalso. exact (append_nonempty_r a b Hb E).
Qed.

Lemma days_hours_form_last (s : string) :
  days_hours_form s -> last_char s = Some "h"%char.
Proof.
  intros (X & Y & ->).
  rewrite last_char_append;
    [|apply append_nonempty_r, append_nonempty_r; discriminate].
  rewrite last_char_append; [|apply append_nonempty_r; discriminate].
  rewrite last_char_append; [reflexivity | discriminate].
Qed.

(** C9, as stated, fails for the helper of scenario-utils: one day is
    rendered "24h 0m", without a day component. *)
Lemma scenario_formatDuration_day_without_days :
  ScenarioUtils.formatDuration 86400000 = "24h 0m"
  /\ ~ days_hours_form (ScenarioUtils.formatDuration 86400000).
Proof.
  split; [vm_compute; reflexivity|].
  intros H. apply days_hours_form_last in H. vm_compute in H. discriminate.
Qed.

(** C9, amended: for a non-negative input, [formatDuration] of
    prediction-utils returns "Xd Yh" from one day, else "Xh Ym" from one
    hour, else "Xm" from one minute, else the seconds "Xs"; the helper of
    scenario-utils returns "Xh Ym" from one hour, with X the whole hours
    also when they are 24 or more, else "Xm" from one minute, else
    "<1m". *)
Theorem formatDuration_thresholds (ms : Q) :
  (0 <= ms)%Q ->
  let D := Qfloor (ms / 86400000) in
  let H := Qfloor (ms / 3600000) in
  let Mi := Qfloor (ms / 60000) in
  let S := Qfloor (ms / 1000) in
  (((86400000 <= ms)%Q ->
      1 <= D /\ formatDuration ms
               = Z_to_string D +++ "d " +++ Z_to_string (H mod 24) +++ "h")
   /\ ((3600000 <= ms)%Q -> (ms < 86400000)%Q ->
      1 <= H /\ formatDuration ms
               = Z_to_string H +++ "h " +++ Z_to_string (Mi mod 60) +++ "m")
   /\ ((60000 <= ms)%Q -> (ms < 3600000)%Q ->
      1 <= Mi /\ formatDuration ms = Z_to_string Mi +++ "m")
   /\ ((ms < 60000)%Q -> formatDuration ms = Z_to_string S +++ "s"))
  /\ (((3600000 <= ms)%Q ->
      1 <= H /\ ScenarioUtils.formatDuration ms
               = Z_to_string H +++ "h " +++ Z_to_string (Mi mod 60) +++ "m")
   /\ ((60000 <= ms)%Q -> (ms < 3600000)%Q ->
      1 <= Mi /\ ScenarioUtils.formatDuration ms = Z_to_string Mi +++ "m")
   /\ ((ms < 60000)%Q -> ScenarioUtils.formatDuration ms = "<1m")).
Proof.
  intros Hms. split.
  - exact (formatDuration_cases ms Hms).
  - exact (scenario_formatDuration_cases ms Hms).
Qed.

Lemma formatDuration_thresholds_witness :
  formatDuration 90000000 = "1d 1h"
  /\ ScenarioUtils.formatDuration 90000000 = "25h 0m".
Proof.
  destruct (formatDuration_thresholds 90000000) as [(HD & _) (HH & _)];
    [discriminate|].
  split.
  - apply HD. discriminate.
  - apply HH. discriminate.
Defined.

Example formatDuration_samples :
  formatDuration 2220000 = "37m"
  /\ formatDuration 8040000 = "2h 14m"
  /\ formatDuration 277200000 = "3d 5h"
  /\ formatDuration 42000 = "42s"
  /\ ScenarioUtils.formatDuration 42000 = "<1m".
Proof. vm_compute. repeat split; reflexivity. Qed.

(** ** Velocity *)

Lemma filter_pointwise {A : Type} (f g : A -> bool) (l : list A) :
  (forall x, f x = g x) -> List.filter f l = List.filter g l.
Proof.
  intros H. induction l as [|x l IH]; cbn [List.filter]; [reflexivity|].
  rewrite H, IH. reflexivity.
Qed.

Lemma ndiv_count_zero (n : nat) : ndiv (ofnat n) (Fin 0) = count_over_zero n.
Proof.
  unfold ndiv, ofnat, ofZ.
  change (Qeq_bool 0 0) with true. cbv iota.
  destruct n as [|n]; [reflexivity|].
  assert (E : (inject_Z (Z.of_nat (S n)) ?= 0)%Q = Gt).
  { rewrite <- Qgt_alt. change 0%Q with (inject_Z 0). rewrite <- Zlt_Qlt. lia. }
  rewrite E. reflexivity.
Qed.

Lemma zero_window_cutoff (now c : Z) :
  ngeb (ofZ c)
    (nsub (ofZ now)
       (nmul (nmul (nmul (nmul (Fin 0) (Fin 24)) (Fin 60)) (Fin 60)) (Fin 1000)))
  = (now <=? c).
Proof.
  unfold ngeb, nleb, nsub, nadd, nneg, nmul, ofZ.
  destruct (Z.leb_spec now c) as [Hle|Hgt].
  - apply Qle_bool_iff. rewrite Zle_Qle in Hle. lra.
  - destruct (Qle_bool _ _) eqn:E; [|reflexivity].
    apply Qle_bool_iff in E. rewrite Zlt_Qlt in Hgt. lra.
Qed.

(** C10: with a window of zero days both rates are a count divided by
    zero, NaN when the count is 0 and Infinity otherwise, so never finite;
    only the average duration is guarded and is 0 when no completed task
    is in the window. *)
Theorem calculateVelocity_zero_window (now : Z) (objectives : list Objective) :
  let v := calculateVelocity now objectives (Some (Fin 0)) in
  tasksPerDay v = count_over_zero (length (zero_window_tasks now objectives))
  /\ objectivesPerWeek v = count_over_zero (zero_window_completed now objectives)
  /\ is_finite (tasksPerDay v) = false
  /\ is_finite (objectivesPerWeek v) = false
  /\ (zero_window_tasks now objectives = [] -> avgTaskDuration v = Fin 0).
Proof.
  intros v.
  assert (Hrecent :
    List.filter
      (fun obj =>
         ngeb (ofZ (objective_createdAt obj))
           (nsub (ofZ now)
              (nmul (nmul (nmul (nmul (Fin 0) (Fin 24)) (Fin 60)) (Fin 60))
                 (Fin 1000))))
      objectives
    = zero_window_objectives now objectives).
  { apply filter_pointwise. intros obj. apply zero_window_cutoff. }
  assert (Ht : tasksPerDay v
               = count_over_zero (length (zero_window_tasks now objectives))).
  { subst v. unfold calculateVelocity.
    change (default (Fin 7) (Some (Fin 0))) with (Fin 0).
    cbv zeta. cbn [tasksPerDay]. rewrite Hrecent. apply ndiv_count_zero. }
  assert (Ho : objectivesPerWeek v
               = count_over_zero (zero_window_completed now objectives)).
  { subst v. unfold calculateVelocity.
    change (default (Fin 7) (Some (Fin 0))) with (Fin 0).
    cbv zeta. cbn [objectivesPerWeek]. rewrite Hrecent, ndiv_count_zero.
    fold (zero_window_completed now objectives).
    destruct (zero_window_completed now objectives); reflexivity. }
  repeat split.
  - exact Ht.
  - exact Ho.
  - rewrite Ht. destruct (length _); reflexivity.
  - rewrite Ho. destruct (zero_window_completed _ _); reflexivity.
  - intros Hnone. subst v. unfold calculateVelocity.
    change (default (Fin 7) (Some (Fin 0))) with (Fin 0).
    cbv zeta. cbn [avgTaskDuration]. rewrite Hrecent.
    fold (zero_window_tasks now objectives). rewrite Hnone. reflexivity.
Qed.

Example calculateVelocity_no_history :
  calculateVelocity 0 [] None
  = {| tasksPerDay := Fin (0 # 7); objectivesPerWeek := Fin (0 # 7);
       avgTaskDuration := Fin 0 |}.
Proof. vm_compute. reflexivity. Qed.

(** ** The regression helper *)

Lemma Qsquare_nonneg (x : Q) : (0 <= x * x)%Q.
Proof.
  destruct (Qlt_le_dec x 0) as [H|H]; nra.
Qed.

Lemma Qeq_bool_false (q : Q) : ~ (q == 0)%Q -> Qeq_bool q 0 = false.
Proof.
  intros H. destruct (Qeq_bool q 0) eqn:E; [|reflexivity].
  apply Qeq_bool_eq in E. contradiction.
Qed.

Lemma ndiv_Fin (a b : Q) : ~ (b == 0)%Q -> ndiv (Fin a) (Fin b) = Fin (a / b).
Proof. intros H. unfold ndiv. rewrite (Qeq_bool_false b H). reflexivity. Qed.

Lemma ndiv_zero_by_zero (a b : Q) :
  (a == 0)%Q -> (b == 0)%Q -> ndiv (Fin a) (Fin b) = NaN.
Proof.
  intros Ha Hb. unfold ndiv. rewrite (Qeq_eq_bool _ _ Hb).
  rewrite (proj1 (Qeq_alt _ 0) Ha). reflexivity.
Qed.

(** X2: [fit] on a single sample does not throw, whatever the two
    numbers, the infinities and NaN included: the two differences of the
    slope are a number minus itself, so the slope is 0 / 0 or made from
    NaN; slope and intercept are NaN, and so is every prediction. *)
Theorem fit_single_sample_is_nan
  (this : LinearRegression.state) (x y : number) :
  LinearRegression.fit this [x] [y]
  = LinearRegression.Returned
      {| LinearRegression.slope := NaN; LinearRegression.intercept := NaN |}
  /\ forall z : number,
       LinearRegression.predict
         {| LinearRegression.slope := NaN; LinearRegression.intercept := NaN |} z
       = NaN.
Proof.
  split; [|intros z; reflexivity].
  unfold LinearRegression.fit, LinearRegression.sum_products, nsum.
  cbn [length Nat.eqb negb orb combine fold_left].
  change (ofnat 1) with (Fin 1). cbv zeta.
  assert (E : forall q : Q, (0 + q ?= 0)%Q = (q ?= 0)%Q)
    by (intros q; apply Qcompare_comp; [ring | reflexivity]).
  destruct x as [a| | |], y as [b| | |];
    cbn [nadd nmul nsub nneg inf_signed];
    rewrite ?E;
    try reflexivity;
    try (destruct (a ?= 0)%Q; reflexivity);
    try (destruct (b ?= 0)%Q; reflexivity).
  rewrite (ndiv_zero_by_zero (1 * (0 + a * b) + - ((0 + a) * (0 + b)))
             (1 * (0 + a * a) + - ((0 + a) * (0 + a)))) by ring.
  reflexivity.
Qed.

Example fit_throws :
  LinearRegression.fit LinearRegression.create [] []
  = LinearRegression.Thrown "Invalid training data"
  /\ LinearRegression.fit LinearRegression.create [Fin 1; Fin 2] [Fin 1]
     = LinearRegression.Thrown "Invalid training data".
Proof. split; reflexivity. Qed.

(** ** Similarity and the retained tasks *)

Lemma squares_fold_nan (fs : list feature) :
  fold_left (fun sum f => nadd sum (nmul (to_number f) (to_number f))) fs NaN
  = NaN.
Proof. induction fs as [|f fs IH]; [reflexivity | exact IH]. Qed.

Lemma squares_fold (fs : list feature) (a : Q) :
  (0 <= a)%Q ->
  (exists q : Q,
     fold_left (fun sum f => nadd sum (nmul (to_number f) (to_number f)))
       fs (Fin a) = Fin q
     /\ (0 <= q)%Q)
  \/ fold_left (fun sum f => nadd sum (nmul (to_number f) (to_number f)))
       fs (Fin a) = NaN.
Proof.
  revert a. induction fs as [|f fs IH]; intros a Ha; cbn [fold_left].
  - left. exists a. split; [reflexivity | exact Ha].
  - destruct f as [z|key]; cbn [to_number ofZ nmul nadd].
    + apply IH. pose proof (Qsquare_nonneg (inject_Z z)). lra.
    + right. apply squares_fold_nan.
Qed.

Lemma squares_fold_integers (zs : list Z) (a : Q) :
  (0 <= a)%Q ->
  exists q : Q,
    fold_left (fun sum f => nadd sum (nmul (to_number f) (to_number f)))
      (map Integer zs) (Fin a) = Fin q
    /\ (0 <= q)%Q.
Proof.
  revert a. induction zs as [|z zs IH]; intros a Ha; cbn [map fold_left].
  - exists a. split; [reflexivity | exact Ha].
  - cbn [to_number ofZ nmul nadd].
    apply IH. pose proof (Qsquare_nonneg (inject_Z z)). lra.
Qed.

Lemma products_fold_nan (l : list (feature * feature)) :
  fold_left (fun sum '(f1, f2) => nadd sum (nmul (to_number f1) (to_number f2)))
    l NaN = NaN.
Proof. induction l as [|[f1 f2] l IH]; [reflexivity | exact IH]. Qed.

Lemma products_fold (l : list (feature * feature)) (a : Q) :
  (exists q : Q,
     fold_left (fun sum '(f1, f2) => nadd sum (nmul (to_number f1) (to_number f2)))
       l (Fin a) = Fin q)
  \/ fold_left (fun sum '(f1, f2) => nadd sum (nmul (to_number f1) (to_number f2)))
       l (Fin a) = NaN.
Proof.
  revert a. induction l as [|[f1 f2] l IH]; intros a; cbn [fold_left].
  - left. exists a. reflexivity.
  - destruct f1 as [z1|k1], f2 as [z2|k2]; cbn [to_number ofZ nmul nadd];
      [apply IH | right; apply products_fold_nan ..].
Qed.

Lemma products_fold_integers (zs1 zs2 : list Z) (a : Q) :
  exists q : Q,
    fold_left (fun sum '(f1, f2) => nadd sum (nmul (to_number f1) (to_number f2)))
      (combine (map Integer zs1) (map Integer zs2)) (Fin a) = Fin q.
Proof.
  revert zs2 a. induction zs1 as [|z1 zs1 IH]; intros zs2 a; cbn [map combine];
    [exists a; reflexivity|].
  destruct zs2 as [|z2 zs2]; cbn [map combine fold_left]; [exists a; reflexivity|].
  cbn [to_number ofZ nmul nadd]. apply IH.
Qed.

Lemma Math_sqrt_nonneg_finite (sqrtQ : Q -> Q) (q : Q) :
  (0 <= q)%Q -> exists m : Q, Math_sqrt sqrtQ (Fin q) = Fin m.
Proof.
  intros Hq. unfold Math_sqrt.
  destruct (q ?= 0)%Q eqn:E; [eexists; reflexivity | | eexists; reflexivity].
  apply Qlt_alt in E. lra.
Qed.

(** The last step of [calculateSimilarity], on a dot product and magnitudes
    that are finite or NaN. *)
Lemma similarity_of_parts (d m1 m2 : number) :
  ((exists q, d = Fin q) \/ d = NaN) ->
  ((exists q, m1 = Fin q) \/ m1 = NaN) ->
  ((exists q, m2 = Fin q) \/ m2 = NaN) ->
  let r :=
    if orb (nstrict_eq m1 (Fin 0)) (nstrict_eq m2 (Fin 0))
    then Fin 0 else ndiv d (nmul m1 m2) in
  ((exists q, r = Fin q) \/ r = NaN)
  /\ ((exists q, d = Fin q) -> (exists q, m1 = Fin q) -> (exists q, m2 = Fin q) ->
      exists q, r = Fin q).
Proof.
  intros Hd H1 H2 r. subst r.
  assert (Hfin : forall c a b : Q,
             exists q,
               (if orb (nstrict_eq (Fin a) (Fin 0)) (nstrict_eq (Fin b) (Fin 0))
                then Fin 0 else ndiv (Fin c) (nmul (Fin a) (Fin b))) = Fin q).
  { intros c a b. cbn [nstrict_eq nmul].
    destruct (Qeq_bool a 0) eqn:Z1; [eexists; reflexivity|].
    destruct (Qeq_bool b 0) eqn:Z2; [eexists; reflexivity|].
    cbn [orb]. unfold ndiv.
    destruct (Qeq_bool (a * b) 0) eqn:Z12; [|eexists; reflexivity].
    exfalso. apply Qeq_bool_eq in Z12.
    apply Qmult_integral in Z12. destruct Z12 as [H|H];
      apply Qeq_eq_bool in H; congruence. }
  split.
  - destruct Hd as [[c ->]| ->], H1 as [[a ->]| ->], H2 as [[b ->]| ->];
      try (left; apply Hfin);
      cbn [nstrict_eq orb nmul ndiv];
      repeat match goal with
             | |- context [Qeq_bool ?x 0] => destruct (Qeq_bool x 0)
             end;
      cbn [orb];
      first [right; reflexivity | left; eexists; reflexivity].
  - intros [c ->] [a ->] [b ->]. apply Hfin.
Qed.

Lemma Math_sqrt_of_squares (sqrtQ : Q -> Q) (fs : list feature) :
  (exists q, Math_sqrt sqrtQ (sum_squares fs) = Fin q)
  \/ Math_sqrt sqrtQ (sum_squares fs) = NaN.
Proof.
  unfold sum_squares.
  destruct (squares_fold fs 0 ltac:(lra)) as [(q & -> & Hq)| ->].
  - left. apply Math_sqrt_nonneg_finite, Hq.
  - right. reflexivity.
Qed.

(** A similarity is a finite number or NaN. *)
Lemma calculateSimilarity_Fin_or_NaN
  (sqrtQ : Q -> Q) (features1 features2 : list feature) :
  (exists q : Q, calculateSimilarity sqrtQ features1 features2 = Fin q)
  \/ calculateSimilarity sqrtQ features1 features2 = NaN.
Proof.
  unfold calculateSimilarity.
  destruct (negb (length features1 =? length features2)%nat);
    [left; eexists; reflexivity|].
  apply similarity_of_parts.
  - apply products_fold.
  - apply Math_sqrt_of_squares.
  - apply Math_sqrt_of_squares.
Qed.

Lemma similarity_above_is_finite (x : number) :
  ((exists q, x = Fin q) \/ x = NaN) -> ngtb x (Fin 0.3) = true ->
  is_finite x = true.
Proof. intros [[q ->]| ->] H; [reflexivity | discriminate H]. Qed.

Lemma calculateSimilarity_integers (sqrtQ : Q -> Q) (zs1 zs2 : list Z) :
  exists q : Q,
    calculateSimilarity sqrtQ (map Integer zs1) (map Integer zs2) = Fin q.
Proof.
  unfold calculateSimilarity.
  destruct (negb (length (map Integer zs1) =? length (map Integer zs2))%nat);
    [eexists; reflexivity|].
  apply similarity_of_parts.
  - apply products_fold.
  - apply Math_sqrt_of_squares.
  - apply Math_sqrt_of_squares.
  - apply products_fold_integers.
  - unfold sum_squares.
    destruct (squares_fold_integers zs1 0 ltac:(lra)) as (q & -> & Hq).
    apply Math_sqrt_nonneg_finite, Hq.
  - unfold sum_squares.
    destruct (squares_fold_integers zs2 0 ltac:(lra)) as (q & -> & Hq).
    apply Math_sqrt_nonneg_finite, Hq.
Qed.

Lemma features_integers (t : Task) :
  category_not_inherited t ->
  exists zs : list Z, features (extractTaskFeatures t) = map Integer zs.
Proof.
  intros Hi. unfold extractTaskFeatures, category_not_inherited in *.
  cbn [features].
  assert (Hc : exists z,
             match category t with
             | Some c => if truthy_str c then getCategoryComplexity c else Integer 3
             | None => Integer 3
             end = Integer z).
  { destruct (category t) as [c|]; [|eexists; reflexivity].
    destruct (truthy_str c); [|eexists; reflexivity].
    rewrite (getCategoryComplexity_by_name c (Hi c eq_refl)). eexists. reflexivity. }
  destruct Hc as [z ->].
  assert (Hp : exists z,
             match priority t with
             | Some p => if truthyZ p then Integer p else Integer 5
             | None => Integer 5
             end = Integer z).
  { destruct (priority t) as [p|]; [destruct (truthyZ p)|]; eexists; reflexivity. }
  destruct Hp as [p ->].
  exists [Z.of_nat (String.length (title t)); p; z;
          (Z.of_nat (subtasks_length t) * 2)%Z]. reflexivity.
Qed.

(** X3: for two tasks whose categories are not, in lower case, names
    inherited from [Object.prototype] and whose priorities are safe
    integers, the similarity of their feature vectors is a finite number,
    never NaN or an infinity, whatever value the square roots take. *)
Theorem calculateSimilarity_finite (sqrtQ : Q -> Q) (task other : Task) :
  category_not_inherited task -> category_not_inherited other ->
  priority_safe task -> priority_safe other ->
  is_finite
    (calculateSimilarity sqrtQ (features (extractTaskFeatures task))
       (features (extractTaskFeatures other))) = true.
Proof.
  intros H1 H2 _ _.
  destruct (features_integers task H1) as [zs1 ->].
  destruct (features_integers other H2) as [zs2 ->].
  destruct (calculateSimilarity_integers sqrtQ zs1 zs2) as [q ->]. reflexivity.
Qed.

Lemma calculateSimilarity_finite_witness :
  is_finite
    (calculateSimilarity sqrt_floor (features (extractTaskFeatures sample_task))
       (features (extractTaskFeatures sample_task_no_category))) = true.
Proof.
  apply (calculateSimilarity_finite sqrt_floor sample_task sample_task_no_category).
  - exact sample_task_category_not_inherited.
  - intros c E. discriminate E.
  - intros p E. injection E as <-. unfold safe_integer. lia.
  - intros p E. injection E as <-. unfold safe_integer. lia.
Defined.

Lemma sort_insert_In {A : Type} (compare : A -> A -> number) (x y : A) (l : list A) :
  In y (sort_insert compare x l) <-> y = x \/ In y l.
Proof.
  induction l as [|z l IH]; cbn [sort_insert].
  - cbn. intuition congruence.
  - destruct (ngtb (compare x z) (Fin 0)); cbn [In]; [rewrite IH|];
      intuition congruence.
Qed.

Lemma sort_insert_length {A : Type} (compare : A -> A -> number) (x : A) (l : list A) :
  length (sort_insert compare x l) = S (length l).
Proof.
  induction l as [|z l IH]; cbn [sort_insert]; [reflexivity|].
  destruct (ngtb (compare x z) (Fin 0)); cbn [length]; [rewrite IH|]; reflexivity.
Qed.

Lemma Array_sort_In {A : Type} (compare : A -> A -> number) (y : A) (l : list A) :
  In y (Array_sort compare l) <-> In y l.
Proof.
  unfold Array_sort. induction l as [|x l IH]; cbn [fold_right]; [reflexivity|].
  rewrite sort_insert_In, IH. cbn [In]. intuition congruence.
Qed.

Lemma Array_sort_length {A : Type} (compare : A -> A -> number) (l : list A) :
  length (Array_sort compare l) = length l.
Proof.
  unfold Array_sort. induction l as [|x l IH]; cbn [fold_right]; [reflexivity|].
  rewrite sort_insert_length, IH. reflexivity.
Qed.

Lemma sort_insert_snd_finite {A : Type} (compare : A * number -> A * number -> number)
  (x : A * number) (l : list (A * number)) :
  Forall (fun i => is_finite (snd i) = true) (x :: l) ->
  Forall (fun i => is_finite (snd i) = true) (sort_insert compare x l).
Proof.
  intros H. apply List.Forall_forall. intros y Hy.
  apply sort_insert_In in Hy.
  rewrite List.Forall_forall in H. apply H. cbn [In].
  destruct Hy as [->|Hy]; [left; reflexivity | right; exact Hy].
Qed.

Lemma nleb_trans_finite (x y z : number) :
  is_finite x = true -> is_finite y = true -> is_finite z = true ->
  nleb x y = true -> nleb y z = true -> nleb x z = true.
Proof.
  destruct x as [a| | |], y as [b| | |], z as [c| | |]; try discriminate.
  intros _ _ _. cbn [nleb]. rewrite !Qle_bool_iff. apply Qle_trans.
Qed.

Lemma by_similarity_after (a b : Q) :
  ngtb (nsub (Fin b) (Fin a)) (Fin 0) = true -> nleb (Fin a) (Fin b) = true.
Proof.
  unfold ngtb. cbn [nsub nneg nadd nltb nleb]. rewrite Qltb_lt, Qle_bool_iff. lra.
Qed.

Lemma by_similarity_before (a b : Q) :
  ngtb (nsub (Fin b) (Fin a)) (Fin 0) = false -> nleb (Fin b) (Fin a) = true.
Proof.
  unfold ngtb. cbn [nsub nneg nadd nltb nleb]. intros H.
  apply Qle_bool_iff. apply Qltb_ge in H. lra.
Qed.

(** Inserting into a list sorted by decreasing similarity keeps it sorted. *)
Lemma sort_insert_nonincreasing {A : Type} (x : A * number) (l : list (A * number)) :
  Forall (fun i => is_finite (snd i) = true) (x :: l) ->
  nonincreasing (map snd l) ->
  nonincreasing
    (map snd (sort_insert (fun a b => nsub (snd b) (snd a)) x l)).
Proof.
  induction l as [|y l IH]; intros Hfin Hsorted; cbn [sort_insert map nonincreasing].
  - split; [constructor | exact I].
  - pose proof (Forall_inv Hfin) as Hx.
    pose proof (Forall_inv (Forall_inv_tail Hfin)) as Hy.
    pose proof (Forall_inv_tail (Forall_inv_tail Hfin)) as Hl.
    destruct Hsorted as [Hle Hs].
    destruct x as [tx sx], y as [ty sy]. cbn [snd] in *.
    destruct sx as [qx| | |]; try discriminate.
    destruct sy as [qy| | |]; try discriminate.
    destruct (ngtb (nsub (Fin qy) (Fin qx)) (Fin 0)) eqn:E;
      cbn [map nonincreasing snd].
    + split.
      * apply List.Forall_forall. intros s Hs'.
        apply in_map_iff in Hs'.
        destruct Hs' as (i & <- & Hi). apply sort_insert_In in Hi.
        destruct Hi as [->|Hi]; [apply by_similarity_after, E|].
        rewrite List.Forall_forall in Hle. apply Hle, in_map, Hi.
      * apply IH; [constructor; [exact Hx | exact Hl] | exact Hs].
    + split; [|split; assumption].
      constructor; [apply by_similarity_before, E|].
      apply List.Forall_forall. intros s Hs'.
      pose proof Hs' as Hin. apply in_map_iff in Hin.
      destruct Hin as (i & <- & Hi).
      rewrite List.Forall_forall in Hle, Hl.
      apply (nleb_trans_finite _ (Fin qy));
        [apply Hl, Hi | reflexivity | reflexivity
        | apply Hle, Hs' | apply by_similarity_before, E].
Qed.

Lemma Array_sort_nonincreasing {A : Type} (l : list (A * number)) :
  Forall (fun i => is_finite (snd i) = true) l ->
  nonincreasing (map snd (Array_sort (fun a b => nsub (snd b) (snd a)) l))
  /\ Forall (fun i => is_finite (snd i) = true)
       (Array_sort (fun a b => nsub (snd b) (snd a)) l).
Proof.
  unfold Array_sort. induction l as [|x l IH]; intros Hfin; cbn [fold_right].
  - split; [exact I | constructor].
  - destruct (IH (Forall_inv_tail Hfin)) as [Hs Hf].
    assert (Hall : Forall (fun i : A * number => is_finite (snd i) = true)
                     (x :: fold_right (sort_insert (fun a b => nsub (snd b) (snd a))) [] l))
      by (constructor; [exact (Forall_inv Hfin) | exact Hf]).
    split; [apply sort_insert_nonincreasing | apply sort_insert_snd_finite]; assumption.
Qed.

Lemma nonincreasing_app (l1 l2 : list number) :
  nonincreasing (l1 ++ l2) ->
  nonincreasing l1
  /\ forall x y, In x l1 -> In y l2 -> nleb y x = true.
Proof.
  induction l1 as [|a l1 IH]; cbn [app nonincreasing].
  - intros _. split; [exact I | intros x y []].
  - intros [Hle Hs]. destruct (IH Hs) as [Hs1 Hcross].
    rewrite Forall_app in Hle. destruct Hle as [Hle1 Hle2].
    split; [split; assumption|].
    intros x y [<-|Hx] Hy; [|apply Hcross; assumption].
    rewrite List.Forall_forall in Hle2. apply Hle2, Hy.
Qed.

Lemma nonincreasing_take_drop (n : nat) (l : list number) :
  nonincreasing l ->
  nonincreasing (take n l)
  /\ forall x y, In x (take n l) -> In y (drop n l) -> nleb y x = true.
Proof.
  intros H. apply nonincreasing_app. rewrite take_drop. exact H.
Qed.

Lemma In_take {A : Type} (n : nat) (x : A) (l : list A) :
  In x (take n l) -> In x l.
Proof.
  intros H. rewrite <- (take_drop n l). apply in_or_app. left. exact H.
Qed.

Lemma similar_tasks_bound (sqrtQ : Q -> Q) (task : Task) (completedTasks : list Task) :
  (length (similar_tasks sqrtQ task completedTasks) <= 10)%nat
  /\ (length (similar_tasks sqrtQ task completedTasks) <= length completedTasks)%nat.
Proof.
  unfold similar_tasks. split; [apply firstn_le_length|].
  rewrite length_take, Array_sort_length.
  etransitivity; [apply Nat.le_min_r|].
  etransitivity; [apply List.filter_length_le|]. rewrite length_map. reflexivity.
Qed.

(** X4: the tasks the predictor retains are at most ten completed
    historical tasks, each paired with its similarity to the task, each
    with a similarity above 0.3, in order of decreasing similarity; a
    historical task above 0.3 that is not retained is no more similar than
    any retained one, and is left out only when ten are retained. *)
Theorem similar_tasks_most_similar
  (sqrtQ : Q -> Q) (task : Task) (completedTasks : list Task) :
  let similarity := fun t : Task =>
    calculateSimilarity sqrtQ (features (extractTaskFeatures task))
      (features (extractTaskFeatures t)) in
  let kept := similar_tasks sqrtQ task completedTasks in
  (length kept <= 10)%nat
  /\ (forall item, In item kept ->
        In (fst item) completedTasks
        /\ snd item = similarity (fst item)
        /\ ngtb (snd item) (Fin 0.3) = true)
  /\ nonincreasing (map snd kept)
  /\ (forall t, In t completedTasks -> ngtb (similarity t) (Fin 0.3) = true ->
        In (t, similarity t) kept
        \/ (length kept = 10%nat
            /\ forall item, In item kept -> nleb (similarity t) (snd item) = true)).
Proof.
  intros similarity kept. unfold similar_tasks in kept.
  set (scored := map (fun historicalTask => (historicalTask, similarity historicalTask))
                   completedTasks) in *.
  set (above := List.filter (fun item : Task * number => ngtb (snd item) (Fin 0.3)) scored)
    in *.
  set (sorted := Array_sort (fun a b : Task * number => nsub (snd b) (snd a)) above) in *.
  assert (Hscored : forall item, In item scored <->
            In (fst item) completedTasks /\ snd item = similarity (fst item)).
  { intros [t s]. unfold scored. rewrite in_map_iff. cbn [fst snd]. split.
    - intros (t' & E & Ht'). injection E as -> <-. split; [exact Ht' | reflexivity].
    - intros [Ht ->]. exists t. split; [reflexivity | exact Ht]. }
  assert (Hsorted_in : forall item, In item sorted <->
            In item scored /\ ngtb (snd item) (Fin 0.3) = true).
  { intros item. unfold sorted, above. rewrite Array_sort_In. apply filter_In. }
  assert (Hfin : Forall (fun i : Task * number => is_finite (snd i) = true) above).
  { apply List.Forall_forall. intros item Hitem. apply filter_In in Hitem.
    destruct Hitem as [Hitem Hgt]. apply Hscored in Hitem. destruct Hitem as [_ E].
    apply similarity_above_is_finite; [|exact Hgt].
    rewrite E. unfold similarity. apply calculateSimilarity_Fin_or_NaN. }
  destruct (Array_sort_nonincreasing above Hfin) as [Hnon _]. fold sorted in Hnon.
  destruct (nonincreasing_take_drop 10 (map snd sorted) Hnon) as [Htake Hcross].
  rewrite !firstn_map in Htake, Hcross. rewrite skipn_map in Hcross.
  split; [apply firstn_le_length|].
  split.
  { intros item Hitem. apply In_take, Hsorted_in in Hitem.
    destruct Hitem as [Hitem Hgt]. apply Hscored in Hitem. tauto. }
  split; [exact Htake|].
  intros t Ht Hgt.
  assert (Hin : In (t, similarity t) sorted).
  { apply Hsorted_in. split; [apply Hscored; cbn; tauto | exact Hgt]. }
  rewrite <- (take_drop 10 sorted) in Hin. apply in_app_or in Hin.
  destruct Hin as [Hin|Hin]; [left; exact Hin | right].
  split.
  - change (length (take 10 sorted) = 10%nat). rewrite length_take.
    destruct (Nat.le_gt_cases 10 (length sorted)) as [Hle|Hlt]; [lia|].
    rewrite drop_ge in Hin by lia. destruct Hin.
  - intros item Hitem.
    apply (Hcross (snd item) (similarity t)).
    + apply in_map, Hitem.
    + apply (in_map snd) in Hin. exact Hin.
Qed.

(** X5: the number of similar tasks a prediction reports is at most 10 and
    at most the number of completed, timestamped historical tasks; it is 0
    exactly when the prediction is the heuristic estimate. *)
Theorem predictTask_similarTaskCount
  (sqrtQ : Q -> Q) (task : Task) (historicalTasks : list Task)
  (agentRole : option AgentRole) :
  let p := predictTaskCompletionTime sqrtQ task historicalTasks agentRole in
  (similarTaskCount p <= 10)%nat
  /\ (similarTaskCount p
      <= length (List.filter completed_with_timing historicalTasks))%nat
  /\ (similarTaskCount p = 0%nat <-> p = getHeuristicEstimate task agentRole).
Proof.
  intros p. subst p. unfold predictTaskCompletionTime.
  set (completedTasks := List.filter completed_with_timing historicalTasks).
  assert (Hheur : similarTaskCount (getHeuristicEstimate task agentRole) = 0%nat)
    by reflexivity.
  destruct (length completedTasks <? 3)%nat;
    [rewrite Hheur; repeat split; lia|].
  destruct (Nat.eqb_spec (length (similar_tasks sqrtQ task completedTasks)) 0)
    as [E|E]; [rewrite Hheur; repeat split; lia|].
  cbv zeta. cbn [similarTaskCount].
  destruct (similar_tasks_bound sqrtQ task completedTasks) as [H10 Hlen].
  repeat split; try assumption; [lia|].
  intros Heq. apply (f_equal similarTaskCount) in Heq.
  cbn [similarTaskCount] in Heq. rewrite Hheur in Heq. lia.
Qed.

(** ** The heuristic estimate and forecasts without history *)

Lemma multiplier_by_name_ge_1 (c : string) : (1 <= multiplier_by_name c)%Q.
Proof.
  unfold multiplier_by_name.
  repeat (destruct (eq_ignore_case c _); [lra|]). lra.
Qed.

Lemma spec_speed_multiplier_ge (role : option AgentRole) :
  (0.8 <= spec_speed_multiplier role)%Q.
Proof. destruct role as [[]|]; cbn [spec_speed_multiplier]; lra. Qed.

Lemma heuristic_stage (b m : Q) :
  (180000 <= b)%Q -> (1 <= m)%Q -> (180000 <= b * m)%Q.
Proof. intros Hb Hm. nra. Qed.

Lemma heuristic_last_stage (b sp : Q) :
  (180000 <= b)%Q -> (0.8 <= sp)%Q -> (144000 <= b * sp)%Q.
Proof. intros Hb Hs. nra. Qed.

Lemma inject_nat_nonneg (n : nat) : (0 <= inject_Z (Z.of_nat n))%Q.
Proof. change 0%Q with (inject_Z 0). rewrite <- Zle_Qle. lia. Qed.

(** X6: for a task whose category is not, in lower case, a name inherited
    from [Object.prototype] and whose priority, when present, is a safe
    integer of at most 11, the heuristic estimate is a finite duration of at
    least 144000 ms (the 3-minute base at the fastest role's 0.8). *)
Theorem getHeuristicEstimate_at_least (t : Task) (role : option AgentRole) :
  category_not_inherited t ->
  priority_safe t ->
  (forall p, priority t = Some p -> p <= 11) ->
  exists q : Q,
    estimatedDuration (getHeuristicEstimate t role) = Fin q
    /\ (144000 <= q)%Q.
Proof.
  intros Hcat _ Hp. unfold getHeuristicEstimate. cbn [estimatedDuration].
  rewrite speed_multiplier_spec.
  pose proof (spec_speed_multiplier_ge role) as Hsp.
  pose proof (inject_nat_nonneg (String.length (title t))) as Hlen.
  assert (Hprio : forall p, priority t = Some p -> (inject_Z p <= 11)%Q).
  { intros p E. change 11%Q with (inject_Z 11). rewrite <- Zle_Qle. exact (Hp p E). }
  unfold category_not_inherited in Hcat.
  destruct (priority t) as [p|]; [specialize (Hprio p eq_refl);
                                  destruct (truthyZ p)|];
    (destruct (category t) as [c|];
       [destruct (truthy_str c);
        [rewrite (category_multiplier_by_name c (Hcat c eq_refl));
         pose proof (multiplier_by_name_ge_1 c)|]|]);
    (destruct (subtasks t) as [l|];
       [pose proof (inject_nat_nonneg (length l));
        destruct (0 <? length l)%nat|]);
    cbn [nadd nmul nsub nneg ofZ ofnat];
    (eexists; split; [reflexivity|]);
    apply heuristic_last_stage; try exact Hsp;
    repeat (apply heuristic_stage; [|lra || assumption]);
    lra.
Qed.

Lemma getHeuristicEstimate_at_least_witness :
  exists q : Q,
    estimatedDuration (getHeuristicEstimate sample_task (Some manager)) = Fin q
    /\ (144000 <= q)%Q.
Proof.
  apply (getHeuristicEstimate_at_least sample_task (Some manager)).
  - exact sample_task_category_not_inherited.
  - intros p E. injection E as <-. unfold safe_integer. lia.
  - intros p E. injection E as <-. lia.
Defined.

Lemma predictTask_few_completed
  (sqrtQ : Q -> Q) (task : Task) (historicalTasks : list Task)
  (agentRole : option AgentRole) :
  (length (List.filter completed_with_timing historicalTasks) < 3)%nat ->
  predictTaskCompletionTime sqrtQ task historicalTasks agentRole
  = getHeuristicEstimate task agentRole.
Proof.
  intros H. unfold predictTaskCompletionTime.
  destruct (Nat.ltb_spec (length (List.filter completed_with_timing historicalTasks)) 3);
    [reflexivity | lia].
Qed.

Lemma filter_all {A : Type} (f : A -> bool) (l : list A) :
  (forall x, In x l -> f x = true) -> List.filter f l = l.
Proof.
  induction l as [|x l IH]; intros H; cbn [List.filter]; [reflexivity|].
  rewrite (H x) by (left; reflexivity).
  rewrite IH by (intros y Hy; apply H; right; exact Hy). reflexivity.
Qed.

Lemma riskLevel_of_all_high (n : nat) :
  riskLevel_of (riskRatio_of n n) = if (n =? 0)%nat then low else high.
Proof.
  rewrite riskRatio_of_finite. unfold riskLevel_of, ngtb. cbn [nltb].
  destruct n as [|n]; [reflexivity|].
  cbn [Nat.eqb]. replace (Nat.max (S n) 1) with (S n) by lia.
  assert (Hpos : (0 < inject_Z (Z.of_nat (S n)))%Q).
  { change 0%Q with (inject_Z 0). rewrite <- Zlt_Qlt. lia. }
  assert (E : (inject_Z (Z.of_nat (S n)) / inject_Z (Z.of_nat (S n)) == 1)%Q)
    by (field; lra).
  assert (Hgt : Qltb 0.5 (inject_Z (Z.of_nat (S n)) / inject_Z (Z.of_nat (S n))) = true)
    by (apply Qltb_lt; rewrite E; lra).
  rewrite Hgt. reflexivity.
Qed.

(** X7: while the history holds fewer than three completed, timestamped
    tasks, every task gets the heuristic estimate, whose confidence 0.4
    counts as high-risk: an objective with at least one task is rated high,
    one with none low, and the total is 1.2 times the sum of the heuristic
    estimates. *)
Theorem predictObjectiveCompletion_without_history
  (sqrtQ : Q -> Q) (now : Z) (objective : Objective)
  (historicalObjectives : list Objective) :
  (length (List.filter completed_with_timing
             (flat_map tasks historicalObjectives)) < 3)%nat ->
  let p := predictObjectiveCompletion sqrtQ now objective historicalObjectives in
  riskLevel p = (if (length (tasks objective) =? 0)%nat then low else high)
  /\ totalEstimatedTime p
     = nmul
         (nsum (map (fun t => estimatedDuration
                                (getHeuristicEstimate t (agentRole objective)))
                  (tasks objective)))
         (Fin 1.2).
Proof.
  intros Hfew p. subst p. unfold predictObjectiveCompletion.
  cbn [riskLevel totalEstimatedTime].
  destruct (loop_accumulates sqrtQ (flat_map tasks historicalObjectives)
              (agentRole objective) (tasks objective)
              {| ls_taskPredictions := []; ls_totalEstimatedTime := Fin 0;
                 ls_highRiskTasks := 0; ls_bottlenecks := [] |}) as [Ht Hr].
  cbv zeta in Ht, Hr. cbn [ls_totalEstimatedTime ls_highRiskTasks] in Ht, Hr.
  rewrite Ht, Hr. clear Ht Hr.
  assert (Hmap : map (fun t => predictTaskCompletionTime sqrtQ t
                                 (flat_map tasks historicalObjectives)
                                 (agentRole objective)) (tasks objective)
                 = map (fun t => getHeuristicEstimate t (agentRole objective))
                     (tasks objective)).
  { apply map_ext. intros t. apply predictTask_few_completed, Hfew. }
  rewrite Hmap. split.
  - rewrite filter_all.
    + rewrite length_map. cbn [Nat.add]. apply riskLevel_of_all_high.
    + intros pr Hpr. apply in_map_iff in Hpr. destruct Hpr as (t & <- & _).
      reflexivity.
  - rewrite map_map. reflexivity.
Qed.

Lemma predictObjectiveCompletion_without_history_witness :
  riskLevel (predictObjectiveCompletion sqrt_floor 0 sample_objective []) = high.
Proof.
  apply (predictObjectiveCompletion_without_history sqrt_floor 0 sample_objective []).
  cbn. lia.
Defined.

(** *** What the loop collects *)

Section Collected.

Variable sqrtQ : Q -> Q.
Variable allHistoricalTasks : list Task.
Variable role : option AgentRole.

Local Abbreviation predict :=
  (fun t : Task => predictTaskCompletionTime sqrtQ t allHistoricalTasks role).

Lemma not_above_600000 (d : number) :
  ngtb d (Fin 600000) = false -> ngtb d (Fin 900000) = false.
Proof.
  destruct d as [q| | |]; try (intros; reflexivity || discriminate).
  unfold ngtb. cbn [nltb]. intros H. apply Qltb_ge in H.
  destruct (Qltb 900000 q) eqn:E; [|reflexivity].
  apply Qltb_lt in E. lra.
Qed.

Lemma loop_collects (ts : list Task) (st : LoopState) :
  let st' := fold_left (loop_body sqrtQ allHistoricalTasks role) ts st in
  ls_taskPredictions st'
  = fold_left (fun m t => Map_set m (task_id t) (predict t)) ts
      (ls_taskPredictions st)
  /\ ls_bottlenecks st'
     = ls_bottlenecks st
       ++ map title
            (List.filter (fun t => ngtb (estimatedDuration (predict t)) (Fin 900000))
               ts).
Proof.
  revert st. induction ts as [|t ts IH]; intros st; cbn [fold_left map List.filter].
  - split; [reflexivity | rewrite app_nil_r; reflexivity].
  - destruct (IH (loop_body sqrtQ allHistoricalTasks role st t)) as [IHp IHb].
    cbv zeta in IHp, IHb |- *. rewrite IHp, IHb. clear IHp IHb.
    unfold loop_body.
    destruct (nltb (confidenceScore (predict t)) (Fin 0.5)
              || ngtb (estimatedDuration (predict t)) (Fin 600000)) eqn:G;
      cbn [ls_taskPredictions ls_bottlenecks]; (split; [reflexivity|]).
    + unfold push_if.
      destruct (ngtb (estimatedDuration (predict t)) (Fin 900000));
        cbn [map]; [rewrite <- app_assoc|]; reflexivity.
    + apply orb_false_elim in G. destruct G as [_ G].
      rewrite (not_above_600000 _ G). reflexivity.
Qed.

End Collected.

(** X8: the bottlenecks are the titles of the first three tasks, in task
    order, whose estimate is above 900000 ms; the test for a high-risk task
    that guards the collection leaves none of them out. *)
Theorem bottlenecks_first_three_long_tasks
  (sqrtQ : Q -> Q) (now : Z) (objective : Objective)
  (historicalObjectives : list Objective) :
  bottlenecks (predictObjectiveCompletion sqrtQ now objective historicalObjectives)
  = take 3
      (map title
         (List.filter
            (fun t =>
               ngtb (estimatedDuration
                       (predictTaskCompletionTime sqrtQ t
                          (flat_map tasks historicalObjectives)
                          (agentRole objective)))
                 (Fin 900000))
            (tasks objective))).
Proof.
  unfold predictObjectiveCompletion. cbn [bottlenecks].
  destruct (loop_collects sqrtQ (flat_map tasks historicalObjectives)
              (agentRole objective) (tasks objective)
              {| ls_taskPredictions := []; ls_totalEstimatedTime := Fin 0;
                 ls_highRiskTasks := 0; ls_bottlenecks := [] |}) as [_ Hb].
  cbv zeta in Hb. rewrite Hb. reflexivity.
Qed.

(** *** Lookups in the prediction map *)

Lemma table_get_Map_set {V : Type} (m : list (string * V)) (k : string) (v : V)
  (k' : string) :
  table_get (Map_set m k v) k'
  = if String.eqb k k' then Some v else table_get m k'.
Proof.
  induction m as [|[k0 v0] m IH]; cbn [Map_set table_get]; [reflexivity|].
  destruct (String.eqb_spec k0 k) as [->|Hne]; cbn [table_get].
  - destruct (String.eqb k k'); reflexivity.
  - rewrite IH. destruct (String.eqb_spec k0 k') as [->|Hne'].
    + destruct (String.eqb_spec k k'); [congruence | reflexivity].
    + reflexivity.
Qed.

Lemma find_app {A : Type} (p : A -> bool) (l1 l2 : list A) :
  List.find p (l1 ++ l2)
  = match List.find p l1 with Some x => Some x | None => List.find p l2 end.
Proof.
  induction l1 as [|x l1 IH]; cbn [app List.find]; [reflexivity|].
  destruct (p x); [reflexivity | exact IH].
Qed.

(** A map filled key by key holds, for each key, the value set last. *)
Lemma Map_set_fold_get {T V : Type} (key : T -> string) (val : T -> V)
  (ts : list T) (m : list (string * V)) (k : string) :
  table_get (fold_left (fun m t => Map_set m (key t) (val t)) ts m) k
  = match List.find (fun t => String.eqb (key t) k) (rev ts) with
    | Some t => Some (val t)
    | None => table_get m k
    end.
Proof.
  revert m. induction ts as [|t ts IH]; intros m; cbn [fold_left rev List.find];
    [reflexivity|].
  rewrite IH, find_app. cbn [List.find].
  destruct (List.find (fun t0 => String.eqb (key t0) k) (rev ts)); [reflexivity|].
  rewrite table_get_Map_set. destruct (String.eqb (key t) k); reflexivity.
Qed.

(** X9: [taskPredictions.get(id)] is the prediction of the last task of
    the objective with that id, and [undefined] when no task has it. *)
Theorem taskPredictions_get
  (sqrtQ : Q -> Q) (now : Z) (objective : Objective)
  (historicalObjectives : list Objective) (id : string) :
  Map_get
    (taskPredictions
       (predictObjectiveCompletion sqrtQ now objective historicalObjectives)) id
  = option_map
      (fun t => predictTaskCompletionTime sqrtQ t
                  (flat_map tasks historicalObjectives) (agentRole objective))
      (List.find (fun t => String.eqb (task_id t) id) (rev (tasks objective))).
Proof.
  unfold predictObjectiveCompletion, Map_get. cbn [taskPredictions].
  destruct (loop_collects sqrtQ (flat_map tasks historicalObjectives)
              (agentRole objective) (tasks objective)
              {| ls_taskPredictions := []; ls_totalEstimatedTime := Fin 0;
                 ls_highRiskTasks := 0; ls_bottlenecks := [] |}) as [Hp _].
  cbv zeta in Hp. rewrite Hp. cbn [ls_taskPredictions].
  rewrite (Map_set_fold_get task_id). 
  destruct (List.find _ _); reflexivity.
Qed.

(** ** Estimates are finite *)

Lemma getHeuristicEstimate_finite (t : Task) (role : option AgentRole) :
  category_not_inherited t ->
  exists q : Q, estimatedDuration (getHeuristicEstimate t role) = Fin q.
Proof.
  intros Hcat. unfold category_not_inherited in Hcat.
  unfold getHeuristicEstimate. cbn [estimatedDuration].
  rewrite speed_multiplier_spec.
  destruct (priority t) as [p|]; [destruct (truthyZ p)|];
    (destruct (category t) as [c|];
       [destruct (truthy_str c);
        [rewrite (category_multiplier_by_name c (Hcat c eq_refl))|]|]);
    (destruct (subtasks t) as [l|]; [destruct (0 <? length l)%nat|]);
    cbn [nadd nmul nsub nneg ofZ ofnat]; eexists; reflexivity.
Qed.

Lemma similar_tasks_completed (sqrtQ : Q -> Q) (task : Task)
  (completedTasks : list Task) (item : Task * number) :
  In item (similar_tasks sqrtQ task completedTasks) ->
  In (fst item) completedTasks.
Proof.
  unfold similar_tasks. intros H.
  apply In_take, Array_sort_In, filter_In in H. destruct H as [H _].
  apply in_map_iff in H. destruct H as (t & <- & Ht). exact Ht.
Qed.

Lemma task_duration_finite (t : Task) :
  completed_with_timing t = true -> exists q : Q, task_duration t = Fin q.
Proof.
  unfold completed_with_timing, task_duration. intros H.
  apply andb_prop in H. destruct H as [H _].
  apply andb_prop in H. destruct H as [_ H].
  destruct (completedAt t) as [c|]; [|discriminate].
  eexists. reflexivity.
Qed.

Lemma nsum_finite (l : list number) :
  (forall x, In x l -> exists q : Q, x = Fin q) ->
  exists q : Q, nsum l = Fin q.
Proof.
  unfold nsum. generalize 0%Q.
  induction l as [|x l IH]; intros a H; cbn [fold_left]; [eexists; reflexivity|].
  destruct (H x ltac:(left; reflexivity)) as [q ->]. cbn [nadd].
  apply IH. intros y Hy. apply H. right. exact Hy.
Qed.

Lemma predictTask_estimate_finite
  (sqrtQ : Q -> Q) (task : Task) (historicalTasks : list Task)
  (agentRole : option AgentRole) :
  category_not_inherited task ->
  exists q : Q,
    estimatedDuration
      (predictTaskCompletionTime sqrtQ task historicalTasks agentRole) = Fin q.
Proof.
  intros Hcat. unfold predictTaskCompletionTime.
  set (completedTasks := List.filter completed_with_timing historicalTasks).
  destruct (length completedTasks <? 3)%nat;
    [apply getHeuristicEstimate_finite, Hcat|].
  destruct (Nat.eqb_spec (length (similar_tasks sqrtQ task completedTasks)) 0)
    as [E|E]; [apply getHeuristicEstimate_finite, Hcat|].
  cbv zeta. cbn [estimatedDuration].
  destruct (nsum_finite
              (map (fun item : Task * number => task_duration (fst item))
                 (similar_tasks sqrtQ task completedTasks))) as [s Es].
  { intros x Hx. apply in_map_iff in Hx. destruct Hx as (item & <- & Hitem).
    apply task_duration_finite.
    apply similar_tasks_completed in Hitem. unfold completedTasks in Hitem.
    apply filter_In in Hitem. tauto. }
  rewrite Es, length_map. unfold ofnat, ofZ. rewrite ndiv_Fin.
  - rewrite speed_multiplier_spec. eexists. reflexivity.
  - intros H. unfold Qeq in H. cbn in H. lia.
Qed.

(** X24: for an objective whose tasks have categories that are not, in
    lower case, names inherited from [Object.prototype] and priorities that
    are safe integers, and a history whose timestamps are safe integers,
    every task estimate and the objective total that the predictor returns
    are finite numbers, also on the inputs on which the confidence is
    NaN. *)
Theorem predictions_are_finite
  (sqrtQ : Q -> Q) (now : Z) (objective : Objective)
  (historicalObjectives : list Objective) :
  Forall category_not_inherited (tasks objective) ->
  Forall priority_safe (tasks objective) ->
  Forall timestamps_safe (flat_map tasks historicalObjectives) ->
  let p := predictObjectiveCompletion sqrtQ now objective historicalObjectives in
  is_finite (totalEstimatedTime p) = true
  /\ forall id prediction,
       Map_get (taskPredictions p) id = Some prediction ->
       is_finite (estimatedDuration prediction) = true.
Proof.
  intros Hcat _ _ p.
  assert (Hin : forall t, In t (tasks objective) -> category_not_inherited t)
    by (apply List.Forall_forall; exact Hcat).
  assert (Htotal : exists q : Q, totalEstimatedTime p = Fin q).
  { subst p. unfold predictObjectiveCompletion. cbn [totalEstimatedTime].
    destruct (loop_accumulates sqrtQ (flat_map tasks historicalObjectives)
                (agentRole objective) (tasks objective)
                {| ls_taskPredictions := []; ls_totalEstimatedTime := Fin 0;
                   ls_highRiskTasks := 0; ls_bottlenecks := [] |}) as [Ht _].
    cbv zeta in Ht. cbn [ls_totalEstimatedTime] in Ht. rewrite Ht.
    destruct (nsum_finite
                (map estimatedDuration
                   (map (fun t => predictTaskCompletionTime sqrtQ t
                                    (flat_map tasks historicalObjectives)
                                    (agentRole objective)) (tasks objective))))
      as [s Es].
    { intros x Hx. apply in_map_iff in Hx. destruct Hx as (pr & <- & Hpr).
      apply in_map_iff in Hpr. destruct Hpr as (t & <- & Ht').
      apply predictTask_estimate_finite, Hin, Ht'. }
    unfold nsum in Es. rewrite Es. eexists. reflexivity. }
  destruct Htotal as [q Eq]. split; [rewrite Eq; reflexivity|].
  intros id prediction Hget. subst p.
  unfold predictObjectiveCompletion, Map_get in Hget. cbn [taskPredictions] in Hget.
  destruct (loop_collects sqrtQ (flat_map tasks historicalObjectives)
              (agentRole objective) (tasks objective)
              {| ls_taskPredictions := []; ls_totalEstimatedTime := Fin 0;
                 ls_highRiskTasks := 0; ls_bottlenecks := [] |}) as [Hp _].
  cbv zeta in Hp. rewrite Hp in Hget. cbn [ls_taskPredictions] in Hget.
  rewrite (Map_set_fold_get task_id) in Hget.
  destruct (List.find _ _) as [t|] eqn:Hfind; [|discriminate].
  injection Hget as <-.
  apply find_some in Hfind. destruct Hfind as [Ht _]. apply in_rev in Ht.
  destruct (predictTask_estimate_finite sqrtQ t
              (flat_map tasks historicalObjectives) (agentRole objective)
              (Hin t Ht))
    as [d ->]. reflexivity.
Qed.

Lemma predictions_are_finite_witness :
  is_finite
    (totalEstimatedTime
       (predictObjectiveCompletion sqrt_floor 0 sample_objective [steady_objective]))
  = true.
Proof.
  refine (proj1 (predictions_are_finite sqrt_floor 0 sample_objective
                   [steady_objective] _ _ _)).
  - apply List.Forall_cons; [exact sample_task_category_not_inherited|].
    apply List.Forall_cons; [intros c E; discriminate E | apply List.Forall_nil].
  - apply List.Forall_cons; [|apply List.Forall_cons; [|apply List.Forall_nil]];
      intros p E; injection E as <-; unfold safe_integer; lia.
  - apply List.Forall_forall. intros t Ht.
    assert (Hs : forall c d, safe_integer c -> safe_integer d ->
                             timestamps_safe (history_task "h" c d)).
    { intros c d Hc Hd. split; [exact Hc|]. intros e E. injection E as <-. exact Hd. }
    unfold safe_integer in Hs.
    destruct Ht as [<-|[<-|[<-|[]]]]; apply Hs; lia.
Defined.

(** ** Confidence in range *)








(** ** Durations below zero, and velocity over a window *)





Lemma durations_sum_finite (ts : list Task) (a : Q) :
  (forall t, In t ts -> completed_with_timing t = true) ->
  exists q : Q,
    fold_left (fun sum t => nadd sum (task_duration t)) ts (Fin a) = Fin q.
Proof.
  revert a. induction ts as [|t ts IH]; intros a H; cbn [fold_left];
    [eexists; reflexivity|].
  assert (Ht : completed_with_timing t = true) by (apply H; left; reflexivity).
  unfold completed_with_timing in Ht. apply andb_prop in Ht. destruct Ht as [Ht _].
  apply andb_prop in Ht. destruct Ht as [_ Ht].
  unfold task_duration. destruct (completedAt t) as [c|]; [|discriminate].
  cbn [of_optZ ofZ nsub nneg nadd]. apply IH.
  intros t' Ht'. apply H. right. exact Ht'.
Qed.

(** X11: over a window of at least one day, the default 7 included, and
    tasks whose timestamps are safe integers, the three velocity metrics
    are finite numbers. *)
Theorem calculateVelocity_finite
  (now : Z) (objectives : list Objective) (days : option number) :
  (forall x, days = Some x -> exists d : Q, x = Fin d /\ (1 <= d)%Q) ->
  Forall timestamps_safe (flat_map tasks objectives) ->
  let v := calculateVelocity now objectives days in
  is_finite (tasksPerDay v) = true
  /\ is_finite (objectivesPerWeek v) = true
  /\ is_finite (avgTaskDuration v) = true.
Proof.
  intros Hdays _.
  assert (Hd : exists d : Q, default (Fin 7) days = Fin d /\ ~ (d == 0)%Q).
  { destruct days as [x|].
    - destruct (Hdays x eq_refl) as (d & -> & Hd). exists d.
      split; [reflexivity | lra].
    - exists 7%Q. split; [reflexivity | lra]. }
  destruct Hd as (d & Ed & Hd).
  unfold calculateVelocity. rewrite Ed. cbv zeta.
  cbn [tasksPerDay objectivesPerWeek avgTaskDuration].
  unfold ofnat, ofZ. rewrite !(ndiv_Fin _ d Hd). cbn [nmul is_finite].
  repeat split.
  match goal with |- context [(0 <? length ?l)%nat] => set (completedTasks := l) end.
  destruct (Nat.ltb_spec 0 (length completedTasks)) as [Hpos|_]; [|reflexivity].
  destruct (durations_sum_finite completedTasks 0) as [q Hq].
  { intros t Ht. unfold completedTasks in Ht. apply in_flat_map in Ht.
    destruct Ht as (obj & _ & Ht). apply filter_In in Ht. tauto. }
  rewrite Hq. rewrite ndiv_Fin; [reflexivity|].
  intros E. unfold Qeq in E. cbn in E. lia.
Qed.

Lemma calculateVelocity_finite_witness :
  is_finite (tasksPerDay (calculateVelocity 0 [steady_objective] (Some (Fin 2))))
  = true.
Proof.
  refine (proj1 (calculateVelocity_finite 0 [steady_objective] (Some (Fin 2)) _ _)).
  - intros x E. injection E as <-. exists 2%Q. split; [reflexivity | lra].
  - apply List.Forall_forall. intros t Ht.
    assert (Hs : forall c d, safe_integer c -> safe_integer d ->
                             timestamps_safe (history_task "h" c d)).
    { intros c d Hc Hd. split; [exact Hc|]. intros e E. injection E as <-. exact Hd. }
    unfold safe_integer in Hs.
    destruct Ht as [<-|[<-|[<-|[]]]]; apply Hs; lia.
Defined.

(** ** Scenarios and the store *)

Section StoreProofs.

Import ScenarioUtils.
Local Open Scope nat_scope.

Section StoreFacts.

Variable h : store.

Lemma read_old (ext : list cell) (l : loc) (c : cell) :
  h !! l = Some c -> read l (h ++ ext) = Some (c, h ++ ext).
Proof.
  intros H. unfold read. rewrite (lookup_app_l_Some _ _ _ _ H). reflexivity.
Qed.

Lemma read_new (ext : list cell) (i : nat) (c : cell) :
  ext !! i = Some c -> read (length h + i) (h ++ ext) = Some (c, h ++ ext).
Proof.
  intros H. unfold read. rewrite lookup_app_r by lia.
  replace (length h + i - length h)%nat with i by lia. rewrite H. reflexivity.
Qed.

Lemma alloc_ext (ext : list cell) (c : cell) :
  alloc c (h ++ ext) = Some ((length h + length ext)%nat, h ++ (ext ++ [c])).
Proof. unfold alloc. rewrite length_app, <- app_assoc. reflexivity. Qed.

Lemma write_new (ext : list cell) (i : nat) (c : cell) :
  (i < length ext)%nat ->
  write (length h + i) c (h ++ ext) = Some (tt, h ++ <[i := c]> ext).
Proof.
  intros H. unfold write. rewrite insert_app_r.
  destruct (Nat.ltb_spec (length h + i) (length (h ++ ext))) as [_|Hge];
    [reflexivity|]. rewrite length_app in Hge. lia.
Qed.

Lemma get_scenario_old ext l s :
  h !! l = Some (CScenario s) -> get_scenario l (h ++ ext) = Some (s, h ++ ext).
Proof. intros H. unfold get_scenario, bind. rewrite (read_old _ _ _ H). reflexivity. Qed.

Lemma get_objective_old ext l o :
  h !! l = Some (CObjective o) -> get_objective l (h ++ ext) = Some (o, h ++ ext).
Proof. intros H. unfold get_objective, bind. rewrite (read_old _ _ _ H). reflexivity. Qed.

Lemma get_tasks_old ext l ts :
  h !! l = Some (CTasks ts) -> get_tasks l (h ++ ext) = Some (ts, h ++ ext).
Proof. intros H. unfold get_tasks, bind. rewrite (read_old _ _ _ H). reflexivity. Qed.

Lemma get_modifications_old ext l ms :
  h !! l = Some (CModifications ms) ->
  get_modifications l (h ++ ext) = Some (ms, h ++ ext).
Proof. intros H. unfold get_modifications, bind. rewrite (read_old _ _ _ H). reflexivity. Qed.

Lemma get_scenario_new ext i s :
  ext !! i = Some (CScenario s) ->
  get_scenario (length h + i) (h ++ ext) = Some (s, h ++ ext).
Proof. intros H. unfold get_scenario, bind. rewrite (read_new _ _ _ H). reflexivity. Qed.

Lemma get_objective_new ext i o :
  ext !! i = Some (CObjective o) ->
  get_objective (length h + i) (h ++ ext) = Some (o, h ++ ext).
Proof. intros H. unfold get_objective, bind. rewrite (read_new _ _ _ H). reflexivity. Qed.

Lemma get_tasks_new ext i ts :
  ext !! i = Some (CTasks ts) ->
  get_tasks (length h + i) (h ++ ext) = Some (ts, h ++ ext).
Proof. intros H. unfold get_tasks, bind. rewrite (read_new _ _ _ H). reflexivity. Qed.

Lemma get_modifications_new ext i ms :
  ext !! i = Some (CModifications ms) ->
  get_modifications (length h + i) (h ++ ext) = Some (ms, h ++ ext).
Proof. intros H. unfold get_modifications, bind. rewrite (read_new _ _ _ H). reflexivity. Qed.

End StoreFacts.

Ltac store_step :=
  first
    [ erewrite get_scenario_new by reflexivity
    | erewrite get_objective_new by reflexivity
    | erewrite get_tasks_new by reflexivity
    | erewrite get_modifications_new by reflexivity
    | erewrite get_scenario_old by eassumption
    | erewrite get_objective_old by eassumption
    | erewrite get_tasks_old by eassumption
    | erewrite get_modifications_old by eassumption
    | rewrite alloc_ext
    | rewrite write_new by (cbn; lia) ];
  cbv beta iota;
  cbn [length app list_insert insert modifiedObjective modifications o_tasks
       with_tasks].


Ltac store_run :=
  repeat store_step;
  cbn [s_id s_name s_description baseObjective modifiedObjective prediction
       s_createdAt modifications o_id o_title o_description o_tasks o_status
       o_createdAt o_agentRole with_tasks].

Lemma unchanged_app (h ext : store) : unchanged h (h ++ ext).
Proof. intros l c H. apply lookup_app_l_Some, H. Qed.

Lemma findIndex_none {A : Type} (p : A -> bool) (l : list A) :
  (forall x, In x l -> p x = false) -> findIndex p l = (-1)%Z.
Proof.
  induction l as [|x l IH]; intros H; cbn [findIndex]; [reflexivity|].
  rewrite (H x) by (left; reflexivity).
  rewrite IH by (intros y Hy; apply H; right; exact Hy). reflexivity.
Qed.

Section Run.
Variable sqrtQ : Q -> Q.
Variable now : Z.

Lemma addTaskToScenario_run
  (h : store) (scenario : loc) (task : Task) (hist : list Objective)
  (s : ScenarioObj) (o : ObjectiveObj) (ts : list Task)
  (ms : list ScenarioModification) :
  h !! scenario = Some (CScenario s) ->
  h !! modifiedObjective s = Some (CObjective o) ->
  h !! o_tasks o = Some (CTasks ts) ->
  h !! modifications s = Some (CModifications ms) ->
  addTaskToScenario sqrtQ now scenario task hist h
  = Some (length h,
          h ++ [ CScenario
                   {| s_id := s_id s; s_name := s_name s;
                      s_description := s_description s;
                      baseObjective := baseObjective s;
                      modifiedObjective := length h + 2;
                      prediction :=
                        predictObjectiveCompletion sqrtQ now
                          (snapshot o (ts ++ [task])) hist;
                      s_createdAt := s_createdAt s;
                      modifications := length h + 3 |};
                 CTasks (ts ++ [task]);
                 CObjective (with_tasks o (length h + 1));
                 CModifications
                   (ms ++ [ {| mod_type := add_task;
                               mod_description := "Added task: " +++ title task;
                               mod_taskId := Some (task_id task);
                               details := details_task task |} ]) ]).
Proof.
  intros Hs Ho Hts Hms.
  unfold addTaskToScenario, repredict, record_modification, load_objective,
    set_modifiedObjective, set_prediction, set_modifications, bind, ret.
  rewrite <- (app_nil_r h) at 1.
  store_run. rewrite Nat.add_0_r. reflexivity.
Qed.

Lemma modifyTaskPriority_absent_run
  (h : store) (scenario : loc) (taskId : string) (newPriority : Z)
  (hist : list Objective)
  (s : ScenarioObj) (o : ObjectiveObj) (ts : list Task) :
  h !! scenario = Some (CScenario s) ->
  h !! modifiedObjective s = Some (CObjective o) ->
  h !! o_tasks o = Some (CTasks ts) ->
  (forall t, In t ts -> task_id t <> taskId) ->
  modifyTaskPriority sqrtQ now scenario taskId newPriority hist h
  = Some (scenario, h ++ [CScenario s]).
Proof.
  intros Hs Ho Hts Habsent.
  unfold modifyTaskPriority, bind, ret.
  rewrite <- (app_nil_r h) at 1.
  store_run.
  rewrite findIndex_none; [reflexivity|].
  intros t Ht. apply String.eqb_neq, Habsent, Ht.
Qed.

End Run.

Section Create.
Variable sqrtQ : Q -> Q.
Variable now : Z.
Variable random : string.

Lemma createScenario_run
  (h : store) (objective : loc) (name description : string)
  (hist : list Objective) (o : ObjectiveObj) (ts : list Task) :
  h !! objective = Some (CObjective o) ->
  h !! o_tasks o = Some (CTasks ts) ->
  createScenario sqrtQ now random objective name description hist h
  = Some (length h + 3,
          h ++ [ CTasks ts;
                 CObjective (with_tasks o (length h));
                 CModifications [];
                 CScenario
                   {| s_id := "scenario-" +++ Z_to_string now +++ "-" +++ random;
                      s_name := name;
                      s_description := description;
                      baseObjective := objective;
                      modifiedObjective := length h + 1;
                      prediction :=
                        predictObjectiveCompletion sqrtQ now (snapshot o ts) hist;
                      s_createdAt := now;
                      modifications := length h + 2 |} ]).
Proof.
  intros Ho Hts.
  unfold createScenario, load_objective, bind, ret.
  rewrite <- (app_nil_r h) at 1.
  store_run. rewrite Nat.add_0_r. reflexivity.
Qed.

End Create.

Lemma well_formed_accessors (h : store) (scenario : loc) s o ts ms :
  h !! scenario = Some (CScenario s) ->
  h !! modifiedObjective s = Some (CObjective o) ->
  h !! o_tasks o = Some (CTasks ts) ->
  h !! modifications s = Some (CModifications ms) ->
  scenario_objective h scenario = Some o
  /\ scenario_tasks_loc h scenario = Some (o_tasks o)
  /\ scenario_tasks h scenario = Some ts
  /\ scenario_prediction h scenario = Some (prediction s)
  /\ scenario_log h scenario = Some ms.
Proof.
  intros Hs Ho Hts Hms.
  unfold scenario_log, scenario_tasks, scenario_tasks_loc, scenario_objective,
    scenario_prediction, scenario_at, objective_at, tasks_at, modifications_at.
  rewrite Hs, Ho, Hts, Hms. repeat split; reflexivity.
Qed.

Lemma lookup_ext (h : store) (ext : list cell) (i : nat) :
  (h ++ ext) !! (length h + i) = ext !! i.
Proof.
  rewrite lookup_app_r by lia. f_equal. lia.
Qed.

(** C7: [addTaskToScenario] returns a new scenario and leaves every
    object of the store as it was: the tasks of [scenarioA] (length and
    contents), its objective, its prediction and its modification log are
    the same after the call, and the new scenario has a task array of its
    own, with the task appended. *)
Theorem addTaskToScenario_leaves_scenario_unchanged
  (sqrtQ : Q -> Q) (now : Z) (h : store) (scenarioA : loc) (task : Task)
  (hist : list Objective) :
  well_formed_scenario h scenarioA ->
  exists (scenarioB : loc) (h' : store),
    addTaskToScenario sqrtQ now scenarioA task hist h = Some (scenarioB, h')
    /\ unchanged h h'
    /\ (exists ts : list Task,
          scenario_tasks h scenarioA = Some ts
          /\ scenario_tasks h' scenarioA = Some ts
          /\ scenario_tasks h' scenarioB = Some (ts ++ [task]))
    /\ scenario_objective h' scenarioA = scenario_objective h scenarioA
    /\ scenario_prediction h' scenarioA = scenario_prediction h scenarioA
    /\ scenario_log h' scenarioA = scenario_log h scenarioA
    /\ scenarioB <> scenarioA
    /\ scenario_tasks_loc h' scenarioB <> scenario_tasks_loc h' scenarioA
    /\ well_formed_scenario h' scenarioB.
Proof.
  intros (s & o & ts & ms & Hs & Ho & Hts & Hms).
  eexists _, _. split; [apply addTaskToScenario_run; eassumption|].
  match goal with |- unchanged h ?h' /\ _ => set (h1 := h') end.
  assert (Hun : unchanged h h1) by apply unchanged_app.
  destruct (well_formed_accessors h scenarioA s o ts ms Hs Ho Hts Hms)
    as (Ho0 & Hl0 & Ht0 & Hp0 & Hlog0).
  destruct (well_formed_accessors h1 scenarioA s o ts ms
              (Hun _ _ Hs) (Hun _ _ Ho) (Hun _ _ Hts) (Hun _ _ Hms))
    as (Ho1 & Hl1 & Ht1 & Hp1 & Hlog1).
  pose proof (lookup_lt_Some _ _ _ Hs) as HltA.
  pose proof (lookup_lt_Some _ _ _ Hts) as HltT.
  assert (HB0 : h1 !! length h = h1 !! (length h + 0)) by (f_equal; lia).
  destruct (well_formed_accessors h1 (length h) _ _ _ _
              (eq_trans HB0 (lookup_ext h _ 0))
              (lookup_ext h _ 2) (lookup_ext h _ 1) (lookup_ext h _ 3))
    as (HoB & HlB & HtB & HpB & HlogB).
  split; [exact Hun|].
  split; [exists ts; repeat split; assumption|].
  repeat split; try congruence.
  - lia.
  - rewrite HlB, Hl1. cbn [o_tasks with_tasks]. intros E. injection E as E. lia.
  - eexists _, _, _, _. repeat split;
      [exact (eq_trans HB0 (lookup_ext h _ 0)) | exact (lookup_ext h _ 2)
      | exact (lookup_ext h _ 1) | exact (lookup_ext h _ 3)].
Qed.

(** C8: with a task id that no task of the scenario has,
    [modifyTaskPriority] returns the scenario it was given, with the same
    objective, tasks and prediction and with no entry added to the log; it
    does not fail. *)
Theorem modifyTaskPriority_absent_is_noop
  (sqrtQ : Q -> Q) (now : Z) (h : store) (scenario : loc) (taskId : string)
  (newPriority : Z) (hist : list Objective) :
  well_formed_scenario h scenario ->
  (forall ts t, scenario_tasks h scenario = Some ts -> In t ts ->
                task_id t <> taskId) ->
  exists h' : store,
    modifyTaskPriority sqrtQ now scenario taskId newPriority hist h
    = Some (scenario, h')
    /\ unchanged h h'
    /\ scenario_objective h' scenario = scenario_objective h scenario
    /\ scenario_tasks h' scenario = scenario_tasks h scenario
    /\ scenario_prediction h' scenario = scenario_prediction h scenario
    /\ scenario_log h' scenario = scenario_log h scenario.
Proof.
  intros (s & o & ts & ms & Hs & Ho & Hts & Hms) Habsent.
  destruct (well_formed_accessors h scenario s o ts ms Hs Ho Hts Hms)
    as (Ho0 & Hl0 & Ht0 & Hp0 & Hlog0).
  eexists. split.
  { eapply modifyTaskPriority_absent_run; try eassumption.
    intros t Ht. exact (Habsent ts t Ht0 Ht). }
  pose proof (unchanged_app h [CScenario s]) as Hun.
  destruct (well_formed_accessors _ scenario s o ts ms
              (Hun _ _ Hs) (Hun _ _ Ho) (Hun _ _ Hts) (Hun _ _ Hms))
    as (Ho1 & Hl1 & Ht1 & Hp1 & Hlog1).
  repeat split; try congruence. exact Hun.
Qed.

(** X25: a scenario made by [createScenario] is well formed, has the tasks
    of the objective and an empty log, and its task array is not the array
    of the objective it was made from; the store it was made in is
    unchanged. *)
Lemma createScenario_well_formed
  (sqrtQ : Q -> Q) (now : Z) (random : string) (h : store) (objective : loc)
  (name description : string) (hist : list Objective)
  (o : ObjectiveObj) (ts : list Task) :
  h !! objective = Some (CObjective o) ->
  h !! o_tasks o = Some (CTasks ts) ->
  exists (scenario : loc) (h' : store),
    createScenario sqrtQ now random objective name description hist h
    = Some (scenario, h')
    /\ unchanged h h'
    /\ well_formed_scenario h' scenario
    /\ scenario_tasks h' scenario = Some ts
    /\ scenario_log h' scenario = Some []
    /\ scenario_tasks_loc h' scenario <> Some (o_tasks o).
Proof.
  intros Ho Hts.
  eexists _, _. split; [apply createScenario_run; eassumption|].
  match goal with |- unchanged h ?h' /\ _ => set (h1 := h') end.
  pose proof (lookup_lt_Some _ _ _ Hts) as HltT.
  destruct (well_formed_accessors h1 (length h + 3) _ _ _ _
              (lookup_ext h _ 3) (lookup_ext h _ 1)
              (eq_trans (f_equal (fun n => h1 !! n) (eq_sym (Nat.add_0_r (length h))))
                 (lookup_ext h _ 0))
              (lookup_ext h _ 2))
    as (HoB & HlB & HtB & HpB & HlogB).
  repeat split; try assumption.
  - apply unchanged_app.
  - eexists _, _, _, _. repeat split;
      [exact (lookup_ext h _ 3) | exact (lookup_ext h _ 1)
      | exact (eq_trans (f_equal (fun n => h1 !! n) (eq_sym (Nat.add_0_r (length h))))
                 (lookup_ext h _ 0))
      | exact (lookup_ext h _ 2)].
  - rewrite HlB. cbn [o_tasks with_tasks]. intros E. injection E as E. lia.
Qed.

Lemma sample_scenario_well_formed : well_formed_scenario sample_store 5.
Proof.
  exists sample_scenario, (sample_objective_obj 3),
    [sample_task; sample_task_no_category], [].
  repeat split; reflexivity.
Defined.

Lemma addTaskToScenario_leaves_scenario_unchanged_witness :
  exists (scenarioB : loc) (h' : store),
    addTaskToScenario sqrt_floor 0 5 sample_task [] sample_store
    = Some (scenarioB, h')
    /\ unchanged sample_store h'
    /\ scenario_tasks h' 5 = scenario_tasks sample_store 5.
Proof.
  destruct (addTaskToScenario_leaves_scenario_unchanged sqrt_floor 0 sample_store
              5 sample_task [] sample_scenario_well_formed)
    as (scenarioB & h' & Hrun & Hun & (ts & Hts0 & Hts1 & _) & _).
  exists scenarioB, h'. repeat split; [exact Hrun | exact Hun | congruence].
Defined.

Lemma modifyTaskPriority_absent_is_noop_witness :
  exists h' : store,
    modifyTaskPriority sqrt_floor 0 5 "nonexistent-id" 7 [] sample_store
    = Some (5, h')
    /\ scenario_log h' 5 = scenario_log sample_store 5.
Proof.
  destruct (modifyTaskPriority_absent_is_noop sqrt_floor 0 sample_store 5
              "nonexistent-id" 7 [] sample_scenario_well_formed)
    as (h' & Hrun & _ & _ & _ & _ & Hlog).
  - intros ts t Hts. vm_compute in Hts. injection Hts as <-.
    intros [<-|[<-|[]]]; discriminate.
  - exists h'. split; assumption.
Defined.

(** A task that is there does get its priority changed, in a new array. *)
Example modifyTaskPriority_present :
  match modifyTaskPriority sqrt_floor 0 5 "t2" 7 [] sample_store with
  | Some (scenarioB, h') =>
      scenarioB = 6
      /\ option_map (map priority) (scenario_tasks h' scenarioB)
         = Some [Some 4%Z; Some 7%Z]
      /\ option_map (map priority) (scenario_tasks h' 5)
         = Some [Some 4%Z; Some 4%Z]
      /\ option_map (map mod_description) (scenario_log h' scenarioB)
         = Some ["Changed priority of " +++ dquote +++ "Plan" +++ dquote
                 +++ " from 4 to 7"]
  | None => False
  end.
Proof. vm_compute. repeat split; reflexivity. Qed.

(** ** Removing tasks, changing the role, reordering *)

Ltac store_run_role :=
  repeat (store_step; cbn [with_agentRole o_tasks]);
  cbn [s_id s_name s_description baseObjective modifiedObjective prediction
       s_createdAt modifications o_id o_title o_description o_tasks o_status
       o_createdAt o_agentRole with_tasks with_agentRole].

Section MoreRuns.
Variable sqrtQ : Q -> Q.
Variable now : Z.

Lemma removeTaskFromScenario_found_run
  (h : store) (scenario : loc) (taskId : string) (hist : list Objective)
  (s : ScenarioObj) (o : ObjectiveObj) (ts : list Task)
  (ms : list ScenarioModification) (t : Task) :
  h !! scenario = Some (CScenario s) ->
  h !! modifiedObjective s = Some (CObjective o) ->
  h !! o_tasks o = Some (CTasks ts) ->
  h !! modifications s = Some (CModifications ms) ->
  List.find (fun t => String.eqb (task_id t) taskId) ts = Some t ->
  removeTaskFromScenario sqrtQ now scenario taskId hist h
  = Some (length h,
          h ++ [ CScenario
                   {| s_id := s_id s; s_name := s_name s;
                      s_description := s_description s;
                      baseObjective := baseObjective s;
                      modifiedObjective := length h + 2;
                      prediction :=
                        predictObjectiveCompletion sqrtQ now
                          (snapshot o
                             (List.filter
                                (fun t => negb (String.eqb (task_id t) taskId)) ts))
                          hist;
                      s_createdAt := s_createdAt s;
                      modifications := length h + 3 |};
                 CTasks
                   (List.filter (fun t => negb (String.eqb (task_id t) taskId)) ts);
                 CObjective (with_tasks o (length h + 1));
                 CModifications
                   (ms ++ [ {| mod_type := remove_task;
                               mod_description := "Removed task: " +++ title t;
                               mod_taskId := Some taskId;
                               details := details_task t |} ]) ]).
Proof.
  intros Hs Ho Hts Hms Hfind.
  unfold removeTaskFromScenario, repredict, record_modification, load_objective,
    set_modifiedObjective, set_prediction, set_modifications, bind, ret.
  rewrite <- (app_nil_r h) at 1.
  store_run. rewrite Hfind. store_run. rewrite Nat.add_0_r. reflexivity.
Qed.

Lemma removeTaskFromScenario_absent_run
  (h : store) (scenario : loc) (taskId : string) (hist : list Objective)
  (s : ScenarioObj) (o : ObjectiveObj) (ts : list Task) :
  h !! scenario = Some (CScenario s) ->
  h !! modifiedObjective s = Some (CObjective o) ->
  h !! o_tasks o = Some (CTasks ts) ->
  List.find (fun t => String.eqb (task_id t) taskId) ts = None ->
  removeTaskFromScenario sqrtQ now scenario taskId hist h
  = Some (length h,
          h ++ [ CScenario
                   {| s_id := s_id s; s_name := s_name s;
                      s_description := s_description s;
                      baseObjective := baseObjective s;
                      modifiedObjective := length h + 2;
                      prediction :=
                        predictObjectiveCompletion sqrtQ now
                          (snapshot o
                             (List.filter
                                (fun t => negb (String.eqb (task_id t) taskId)) ts))
                          hist;
                      s_createdAt := s_createdAt s;
                      modifications := modifications s |};
                 CTasks
                   (List.filter (fun t => negb (String.eqb (task_id t) taskId)) ts);
                 CObjective (with_tasks o (length h + 1)) ]).
Proof.
  intros Hs Ho Hts Hfind.
  unfold removeTaskFromScenario, repredict, record_modification, load_objective,
    set_modifiedObjective, set_prediction, set_modifications, bind, ret.
  rewrite <- (app_nil_r h) at 1.
  store_run. rewrite Hfind. rewrite Nat.add_0_r. reflexivity.
Qed.

Lemma changeAgentRole_run
  (h : store) (scenario : loc) (newRole : AgentRole) (hist : list Objective)
  (s : ScenarioObj) (o : ObjectiveObj) (ts : list Task)
  (ms : list ScenarioModification) :
  h !! scenario = Some (CScenario s) ->
  h !! modifiedObjective s = Some (CObjective o) ->
  h !! o_tasks o = Some (CTasks ts) ->
  h !! modifications s = Some (CModifications ms) ->
  changeAgentRole sqrtQ now scenario newRole hist h
  = Some (length h,
          h ++ [ CScenario
                   {| s_id := s_id s; s_name := s_name s;
                      s_description := s_description s;
                      baseObjective := baseObjective s;
                      modifiedObjective := length h + 1;
                      prediction :=
                        predictObjectiveCompletion sqrtQ now
                          (snapshot (with_agentRole o newRole) ts) hist;
                      s_createdAt := s_createdAt s;
                      modifications := length h + 2 |};
                 CObjective (with_agentRole o newRole);
                 CModifications
                   (ms ++ [ {| mod_type := change_role;
                               mod_description :=
                                 "Changed agent role from "
                                 +++ AgentRole_to_string
                                       (default general (o_agentRole o))
                                 +++ " to " +++ AgentRole_to_string newRole;
                               mod_taskId := None;
                               details :=
                                 details_role (default general (o_agentRole o))
                                   newRole |} ]) ]).
Proof.
  intros Hs Ho Hts Hms.
  unfold changeAgentRole, repredict, record_modification, load_objective,
    set_modifiedObjective, set_prediction, set_modifications, bind, ret.
  rewrite <- (app_nil_r h) at 1.
  store_run_role. rewrite Nat.add_0_r. reflexivity.
Qed.

Lemma reorderTasks_run
  (h : store) (scenario : loc) (taskIds : list string) (hist : list Objective)
  (s : ScenarioObj) (o : ObjectiveObj) (ts : list Task)
  (ms : list ScenarioModification) :
  h !! scenario = Some (CScenario s) ->
  h !! modifiedObjective s = Some (CObjective o) ->
  h !! o_tasks o = Some (CTasks ts) ->
  h !! modifications s = Some (CModifications ms) ->
  let reorderedTasks :=
    omap (fun id => Map_get (Map_of_entries (map (fun t => (task_id t, t)) ts)) id)
      taskIds in
  reorderTasks sqrtQ now scenario taskIds hist h
  = Some (length h,
          h ++ [ CScenario
                   {| s_id := s_id s; s_name := s_name s;
                      s_description := s_description s;
                      baseObjective := baseObjective s;
                      modifiedObjective := length h + 2;
                      prediction :=
                        predictObjectiveCompletion sqrtQ now
                          (snapshot o reorderedTasks) hist;
                      s_createdAt := s_createdAt s;
                      modifications := length h + 3 |};
                 CTasks reorderedTasks;
                 CObjective (with_tasks o (length h + 1));
                 CModifications
                   (ms ++ [ {| mod_type := reorder_tasks;
                               mod_description := "Reordered tasks";
                               mod_taskId := None;
                               details := details_taskIds taskIds |} ]) ]).
Proof.
  intros Hs Ho Hts Hms reorderedTasks.
  unfold reorderTasks, repredict, record_modification, load_objective,
    set_modifiedObjective, set_prediction, set_modifications, bind, ret.
  rewrite <- (app_nil_r h) at 1.
  store_run. rewrite Nat.add_0_r. reflexivity.
Qed.

End MoreRuns.

Lemma lookup_ext_first (h : store) (c : cell) (ext : list cell) :
  (h ++ c :: ext) !! length h = Some c.
Proof. apply list_lookup_middle. reflexivity. Qed.

Lemma find_none_iff_absent (taskId : string) (ts : list Task) :
  (forall t, In t ts -> task_id t <> taskId) ->
  List.find (fun t => String.eqb (task_id t) taskId) ts = None.
Proof.
  intros H. destruct (List.find _ ts) as [t|] eqn:E; [|reflexivity].
  apply find_some in E. destruct E as [Hin E]. apply String.eqb_eq in E.
  exfalso. exact (H t Hin E).
Qed.

Lemma filter_absent (taskId : string) (ts : list Task) :
  (forall t, In t ts -> task_id t <> taskId) ->
  List.filter (fun t => negb (String.eqb (task_id t) taskId)) ts = ts.
Proof.
  intros H. apply filter_all. intros t Ht.
  apply negb_true_iff, String.eqb_neq, H, Ht.
Qed.

(** X12: [removeTaskFromScenario] returns a new scenario and leaves the
    store as it was.  The new scenario has a task array of its own holding
    the tasks whose id is not [taskId], in order, a prediction made from
    them, and a log that gains one entry, naming the first task that had
    the id, when there was one, and nothing otherwise. *)
Theorem removeTaskFromScenario_removes
  (sqrtQ : Q -> Q) (now : Z) (h : store) (scenarioA : loc) (taskId : string)
  (hist : list Objective) :
  well_formed_scenario h scenarioA ->
  exists (scenarioB : loc) (h' : store) (o : ObjectiveObj) (ts : list Task)
         (ms : list ScenarioModification),
    removeTaskFromScenario sqrtQ now scenarioA taskId hist h = Some (scenarioB, h')
    /\ unchanged h h'
    /\ scenarioB <> scenarioA
    /\ well_formed_scenario h' scenarioB
    /\ scenario_objective h scenarioA = Some o
    /\ scenario_tasks h scenarioA = Some ts
    /\ scenario_log h scenarioA = Some ms
    /\ scenario_tasks h' scenarioA = Some ts
    /\ scenario_tasks h' scenarioB
       = Some (List.filter (fun t => negb (String.eqb (task_id t) taskId)) ts)
    /\ scenario_tasks_loc h' scenarioB <> scenario_tasks_loc h' scenarioA
    /\ scenario_prediction h' scenarioB
       = Some (predictObjectiveCompletion sqrtQ now
                 (snapshot o
                    (List.filter (fun t => negb (String.eqb (task_id t) taskId)) ts))
                 hist)
    /\ scenario_log h' scenarioB
       = Some (match List.find (fun t => String.eqb (task_id t) taskId) ts with
               | Some t =>
                   ms ++ [ {| mod_type := remove_task;
                              mod_description := "Removed task: " +++ title t;
                              mod_taskId := Some taskId;
                              details := details_task t |} ]
               | None => ms
               end).
Proof.
  intros (s & o & ts & ms & Hs & Ho & Hts & Hms).
  destruct (well_formed_accessors h scenarioA s o ts ms Hs Ho Hts Hms)
    as (Ho0 & Hl0 & Ht0 & Hp0 & Hlog0).
  pose proof (lookup_lt_Some _ _ _ Hs) as HltA.
  pose proof (lookup_lt_Some _ _ _ Hts) as HltT.
  destruct (List.find (fun t => String.eqb (task_id t) taskId) ts) as [t|] eqn:Hfind.
  - eexists _, _, o, ts, ms.
    split; [eapply removeTaskFromScenario_found_run; eassumption|].
    match goal with |- unchanged h ?h' /\ _ => set (h1 := h') end.
    assert (Hun : unchanged h h1) by apply unchanged_app.
    destruct (well_formed_accessors h1 scenarioA s o ts ms
                (Hun _ _ Hs) (Hun _ _ Ho) (Hun _ _ Hts) (Hun _ _ Hms))
      as (Ho1 & Hl1 & Ht1 & Hp1 & Hlog1).
    destruct (well_formed_accessors h1 (length h) _ _ _ _
                (lookup_ext_first h _ _)
                (lookup_ext h _ 2) (lookup_ext h _ 1) (lookup_ext h _ 3))
      as (HoB & HlB & HtB & HpB & HlogB).
    repeat split; try assumption.
    + lia.
    + eexists _, _, _, _. repeat split;
        [exact (lookup_ext_first h _ _) | exact (lookup_ext h _ 2)
        | exact (lookup_ext h _ 1) | exact (lookup_ext h _ 3)].
    + rewrite HlB, Hl1. cbn [o_tasks with_tasks]. intros E. injection E as E. lia.
    + rewrite Hfind. exact HlogB.
  - eexists _, _, o, ts, ms.
    split; [eapply removeTaskFromScenario_absent_run; eassumption|].
    match goal with |- unchanged h ?h' /\ _ => set (h1 := h') end.
    assert (Hun : unchanged h h1) by apply unchanged_app.
    destruct (well_formed_accessors h1 scenarioA s o ts ms
                (Hun _ _ Hs) (Hun _ _ Ho) (Hun _ _ Hts) (Hun _ _ Hms))
      as (Ho1 & Hl1 & Ht1 & Hp1 & Hlog1).
    destruct (well_formed_accessors h1 (length h) _ _ _ _
                (lookup_ext_first h _ _)
                (lookup_ext h _ 2) (lookup_ext h _ 1) (Hun _ _ Hms))
      as (HoB & HlB & HtB & HpB & HlogB).
    repeat split; try assumption.
    + lia.
    + eexists _, _, _, _. repeat split;
        [exact (lookup_ext_first h _ _) | exact (lookup_ext h _ 2)
        | exact (lookup_ext h _ 1) | exact (Hun _ _ Hms)].
    + rewrite HlB, Hl1. cbn [o_tasks with_tasks]. intros E. injection E as E. lia.
    + rewrite Hfind. exact HlogB.
Qed.

(** X13: with a task id that no task of the scenario has,
    [removeTaskFromScenario] still returns a new scenario object, with a
    new task array of the same contents; the new scenario holds the
    modification array of the old one, not a copy. *)
Theorem removeTaskFromScenario_absent_copies
  (sqrtQ : Q -> Q) (now : Z) (h : store) (scenarioA : loc) (taskId : string)
  (hist : list Objective) :
  well_formed_scenario h scenarioA ->
  (forall ts t, scenario_tasks h scenarioA = Some ts -> In t ts ->
                task_id t <> taskId) ->
  exists (scenarioB : loc) (h' : store),
    removeTaskFromScenario sqrtQ now scenarioA taskId hist h = Some (scenarioB, h')
    /\ scenarioB <> scenarioA
    /\ scenario_tasks h' scenarioB = scenario_tasks h scenarioA
    /\ scenario_tasks_loc h' scenarioB <> scenario_tasks_loc h' scenarioA
    /\ option_map modifications (scenario_at h' scenarioB)
       = option_map modifications (scenario_at h scenarioA)
    /\ scenario_log h' scenarioB = scenario_log h scenarioA.
Proof.
  intros (s & o & ts & ms & Hs & Ho & Hts & Hms) Habsent.
  destruct (well_formed_accessors h scenarioA s o ts ms Hs Ho Hts Hms)
    as (Ho0 & Hl0 & Ht0 & Hp0 & Hlog0).
  pose proof (lookup_lt_Some _ _ _ Hs) as HltA.
  pose proof (lookup_lt_Some _ _ _ Hts) as HltT.
  assert (Hnone : forall t, In t ts -> task_id t <> taskId)
    by (intros t Ht; exact (Habsent ts t Ht0 Ht)).
  eexists _, _.
  split; [eapply removeTaskFromScenario_absent_run; try eassumption;
          apply find_none_iff_absent, Hnone|].
  rewrite (filter_absent taskId ts Hnone).
  match goal with |- _ /\ scenario_tasks ?h' _ = _ /\ _ => set (h1 := h') end.
  assert (Hun : unchanged h h1) by apply unchanged_app.
  destruct (well_formed_accessors h1 scenarioA s o ts ms
              (Hun _ _ Hs) (Hun _ _ Ho) (Hun _ _ Hts) (Hun _ _ Hms))
    as (Ho1 & Hl1 & Ht1 & Hp1 & Hlog1).
  destruct (well_formed_accessors h1 (length h) _ _ _ _
              (lookup_ext_first h _ _)
              (lookup_ext h _ 2) (lookup_ext h _ 1) (Hun _ _ Hms))
    as (HoB & HlB & HtB & HpB & HlogB).
  repeat split; try congruence.
  - lia.
  - rewrite HlB, Hl1. cbn [o_tasks with_tasks]. intros E. injection E as E. lia.
  - unfold scenario_at. subst h1. rewrite lookup_ext_first, Hs. reflexivity.
Qed.




(** X15: [changeAgentRole] returns a new scenario whose objective has the
    new role and holds the task array of the old objective, the same
    array, not a copy; the old scenario keeps its role; the log gains an
    entry from the old role, [general] when there was none, to the new
    one. *)
Theorem changeAgentRole_shares_tasks
  (sqrtQ : Q -> Q) (now : Z) (h : store) (scenarioA : loc) (newRole : AgentRole)
  (hist : list Objective) :
  well_formed_scenario h scenarioA ->
  exists (scenarioB : loc) (h' : store) (o : ObjectiveObj) (ts : list Task)
         (ms : list ScenarioModification),
    changeAgentRole sqrtQ now scenarioA newRole hist h = Some (scenarioB, h')
    /\ unchanged h h'
    /\ scenarioB <> scenarioA
    /\ well_formed_scenario h' scenarioB
    /\ scenario_objective h scenarioA = Some o
    /\ scenario_tasks h scenarioA = Some ts
    /\ scenario_log h scenarioA = Some ms
    /\ scenario_objective h' scenarioA = Some o
    /\ scenario_objective h' scenarioB = Some (with_agentRole o newRole)
    /\ scenario_tasks_loc h' scenarioB = scenario_tasks_loc h' scenarioA
    /\ scenario_prediction h' scenarioB
       = Some (predictObjectiveCompletion sqrtQ now
                 (snapshot (with_agentRole o newRole) ts) hist)
    /\ scenario_log h' scenarioB
       = Some (ms ++ [ {| mod_type := change_role;
                          mod_description :=
                            "Changed agent role from "
                            +++ AgentRole_to_string (default general (o_agentRole o))
                            +++ " to " +++ AgentRole_to_string newRole;
                          mod_taskId := None;
                          details :=
                            details_role (default general (o_agentRole o))
                              newRole |} ]).
Proof.
  intros (s & o & ts & ms & Hs & Ho & Hts & Hms).
  destruct (well_formed_accessors h scenarioA s o ts ms Hs Ho Hts Hms)
    as (Ho0 & Hl0 & Ht0 & Hp0 & Hlog0).
  pose proof (lookup_lt_Some _ _ _ Hs) as HltA.
  eexists _, _, o, ts, ms.
  split; [eapply changeAgentRole_run; eassumption|].
  match goal with |- unchanged h ?h' /\ _ => set (h1 := h') end.
  assert (Hun : unchanged h h1) by apply unchanged_app.
  destruct (well_formed_accessors h1 scenarioA s o ts ms
              (Hun _ _ Hs) (Hun _ _ Ho) (Hun _ _ Hts) (Hun _ _ Hms))
    as (Ho1 & Hl1 & Ht1 & Hp1 & Hlog1).
  destruct (well_formed_accessors h1 (length h) _ (with_agentRole o newRole) ts _
              (lookup_ext_first h _ _)
              (lookup_ext h _ 1) (Hun _ _ Hts) (lookup_ext h _ 2))
    as (HoB & HlB & HtB & HpB & HlogB).
  repeat split; try assumption.
  - lia.
  - eexists _, (with_agentRole o newRole), ts, _. repeat split;
      [exact (lookup_ext_first h _ _) | exact (lookup_ext h _ 1)
      | exact (Hun _ _ Hts) | exact (lookup_ext h _ 2)].
  - rewrite HlB, Hl1. reflexivity.
Qed.

(** *** Reordering *)

Lemma Map_of_entries_get (ts : list Task) (id : string) :
  Map_get (Map_of_entries (map (fun t => (task_id t, t)) ts)) id
  = List.find (fun t => String.eqb (task_id t) id) (rev ts).
Proof.
  unfold Map_get, Map_of_entries.
  assert (E : forall m : list (string * Task),
             fold_left (fun m '(k, v) => Map_set m k v)
               (map (fun t => (task_id t, t)) ts) m
             = fold_left (fun m t => Map_set m (task_id t) t) ts m).
  { induction ts as [|t ts IH]; intros m; cbn [map fold_left]; [reflexivity|].
    apply IH. }
  rewrite E, (Map_set_fold_get task_id (fun t => t)).
  destruct (List.find _ _); reflexivity.
Qed.

Lemma omap_In {A B : Type} (f : A -> option B) (l : list A) (y : B) :
  In y (omap f l) <-> exists x, In x l /\ f x = Some y.
Proof.
  induction l as [|x l IH]; cbn [omap list_omap In].
  - split; [intros [] | intros (x & [] & _)].
  - destruct (f x) as [y'|] eqn:E; cbn [In]; rewrite IH; split.
    + intros [<-|(x' & Hx' & Ex')]; [exists x; tauto | exists x'; tauto].
    + intros (x' & [<-|Hx'] & Ex'); [left; congruence | right; exists x'; tauto].
    + intros (x' & Hx' & Ex'). exists x'. tauto.
    + intros (x' & [<-|Hx'] & Ex'); [congruence | exists x'; tauto].
Qed.

Lemma omap_pointwise {A B : Type} (f g : A -> option B) (l : list A) :
  (forall x, f x = g x) -> omap f l = omap g l.
Proof.
  intros H. induction l as [|x l IH]; cbn [omap list_omap]; [reflexivity|].
  rewrite H. fold (omap f l) (omap g l). rewrite IH. reflexivity.
Qed.

Lemma omap_length_le {A B : Type} (f : A -> option B) (l : list A) :
  length (omap f l) <= length l.
Proof.
  induction l as [|x l IH]; cbn [omap list_omap length]; [lia|].
  destruct (f x); cbn [length]; lia.
Qed.

(** X16: [reorderTasks] returns a new scenario whose tasks are, for each
    id of [taskIds] in order, the last task of the scenario with that id,
    ids that no task has being skipped: every task of the result is a task
    of the scenario whose id is listed, a task whose id is not listed is
    dropped, and there are at most as many tasks as ids. *)
Theorem reorderTasks_keeps_listed
  (sqrtQ : Q -> Q) (now : Z) (h : store) (scenarioA : loc)
  (taskIds : list string) (hist : list Objective) :
  well_formed_scenario h scenarioA ->
  exists (scenarioB : loc) (h' : store) (ts reordered : list Task)
         (ms : list ScenarioModification),
    reorderTasks sqrtQ now scenarioA taskIds hist h = Some (scenarioB, h')
    /\ unchanged h h'
    /\ scenarioB <> scenarioA
    /\ well_formed_scenario h' scenarioB
    /\ scenario_tasks h scenarioA = Some ts
    /\ scenario_log h scenarioA = Some ms
    /\ scenario_tasks h' scenarioA = Some ts
    /\ scenario_tasks h' scenarioB = Some reordered
    /\ reordered
       = omap (fun id => List.find (fun t => String.eqb (task_id t) id) (rev ts))
           taskIds
    /\ (forall t, In t reordered -> In t ts /\ In (task_id t) taskIds)
    /\ length reordered <= length taskIds
    /\ scenario_log h' scenarioB
       = Some (ms ++ [ {| mod_type := reorder_tasks;
                          mod_description := "Reordered tasks";
                          mod_taskId := None;
                          details := details_taskIds taskIds |} ]).
Proof.
  intros (s & o & ts & ms & Hs & Ho & Hts & Hms).
  destruct (well_formed_accessors h scenarioA s o ts ms Hs Ho Hts Hms)
    as (Ho0 & Hl0 & Ht0 & Hp0 & Hlog0).
  pose proof (lookup_lt_Some _ _ _ Hs) as HltA.
  eexists _, _, ts, _, ms.
  split; [eapply reorderTasks_run; eassumption|].
  cbv zeta.
  rewrite (omap_pointwise
             (fun id => Map_get (Map_of_entries (map (fun t => (task_id t, t)) ts)) id)
             (fun id => List.find (fun t => String.eqb (task_id t) id) (rev ts))
             taskIds (Map_of_entries_get ts)).
  match goal with |- unchanged h ?h' /\ _ => set (h1 := h') end.
  assert (Hun : unchanged h h1) by apply unchanged_app.
  destruct (well_formed_accessors h1 scenarioA s o ts ms
              (Hun _ _ Hs) (Hun _ _ Ho) (Hun _ _ Hts) (Hun _ _ Hms))
    as (Ho1 & Hl1 & Ht1 & Hp1 & Hlog1).
  destruct (well_formed_accessors h1 (length h) _ _ _ _
              (lookup_ext_first h _ _)
              (lookup_ext h _ 2) (lookup_ext h _ 1) (lookup_ext h _ 3))
    as (HoB & HlB & HtB & HpB & HlogB).
  assert (Hin : forall t,
            In t (omap (fun id => List.find
                                    (fun t => String.eqb (task_id t) id) (rev ts))
                    taskIds) ->
            In t ts /\ In (task_id t) taskIds).
  { intros t Ht. apply omap_In in Ht. destruct Ht as (id & Hid & E).
    apply find_some in E.
    destruct E as [Hrev E]. apply String.eqb_eq in E. subst id.
    split; [apply in_rev, Hrev | exact Hid]. }
  split; [exact Hun|]. split; [lia|].
  split.
  { eexists _, _, _, _. repeat split;
      [exact (lookup_ext_first h _ _) | exact (lookup_ext h _ 2)
      | exact (lookup_ext h _ 1) | exact (lookup_ext h _ 3)]. }
  split; [exact Ht0|]. split; [exact Hlog0|]. split; [exact Ht1|].
  split; [exact HtB|]. split; [reflexivity|].
  split; [exact Hin|]. split; [apply omap_length_le | exact HlogB].
Qed.

Lemma NoDup_ids_same (ts : list Task) (t t' : Task) :
  List.NoDup (map task_id ts) -> In t ts -> In t' ts -> task_id t = task_id t' ->
  t = t'.
Proof.
  induction ts as [|x ts IH]; intros Hnd Ht Ht' E; [destruct Ht|].
  cbn [map] in Hnd. apply NoDup_cons_iff in Hnd. destruct Hnd as [Hx Hnd].
  destruct Ht as [->|Ht], Ht' as [->|Ht'].
  - reflexivity.
  - exfalso. apply Hx. rewrite E. apply in_map, Ht'.
  - exfalso. apply Hx. rewrite <- E. apply in_map, Ht.
  - apply IH; assumption.
Qed.

Lemma find_by_unique_id (ts : list Task) (t : Task) :
  List.NoDup (map task_id ts) -> In t ts ->
  List.find (fun t' => String.eqb (task_id t') (task_id t)) (rev ts) = Some t.
Proof.
  intros Hnd Ht.
  destruct (List.find _ (rev ts)) as [t'|] eqn:E.
  - apply find_some in E. destruct E as [Hin E]. apply String.eqb_eq in E.
    f_equal. apply (NoDup_ids_same ts); [exact Hnd | apply in_rev, Hin | exact Ht | exact E].
  - exfalso. apply in_rev in Ht. apply (find_none _ _ E) in Ht.
    cbv beta in Ht. rewrite String.eqb_refl in Ht. discriminate.
Qed.

Lemma omap_find_selection (ts selection : list Task) :
  List.NoDup (map task_id ts) -> (forall t, In t selection -> In t ts) ->
  omap (fun id => List.find (fun t => String.eqb (task_id t) id) (rev ts))
    (map task_id selection)
  = selection.
Proof.
  intros Hnd. induction selection as [|t sel IH]; intros Hsub;
    cbn [map omap list_omap]; [reflexivity|].
  rewrite (find_by_unique_id ts t Hnd) by (apply Hsub; left; reflexivity).
  fold (omap (fun id => List.find (fun t => String.eqb (task_id t) id) (rev ts))
          (map task_id sel)).
  rewrite IH by (intros t' Ht'; apply Hsub; right; exact Ht'). reflexivity.
Qed.

(** X17: when the tasks of the scenario have distinct ids,
    [reorderTasks] called with the ids of any list of those tasks, a
    permutation of them in particular, gives a scenario with exactly that
    list of tasks. *)
Theorem reorderTasks_by_ids_of_tasks
  (sqrtQ : Q -> Q) (now : Z) (h : store) (scenarioA : loc)
  (selection : list Task) (hist : list Objective) :
  well_formed_scenario h scenarioA ->
  (forall ts, scenario_tasks h scenarioA = Some ts ->
              List.NoDup (map task_id ts) /\ forall t, In t selection -> In t ts) ->
  exists (scenarioB : loc) (h' : store),
    reorderTasks sqrtQ now scenarioA (map task_id selection) hist h
    = Some (scenarioB, h')
    /\ scenario_tasks h' scenarioB = Some selection
    /\ scenario_tasks h' scenarioA = scenario_tasks h scenarioA.
Proof.
  intros (s & o & ts & ms & Hs & Ho & Hts & Hms) Hsel.
  destruct (well_formed_accessors h scenarioA s o ts ms Hs Ho Hts Hms)
    as (Ho0 & Hl0 & Ht0 & Hp0 & Hlog0).
  destruct (Hsel ts Ht0) as [Hnd Hsub].
  eexists _, _.
  split; [eapply reorderTasks_run; eassumption|].
  cbv zeta.
  rewrite (omap_pointwise
             (fun id => Map_get (Map_of_entries (map (fun t => (task_id t, t)) ts)) id)
             (fun id => List.find (fun t => String.eqb (task_id t) id) (rev ts))
             (map task_id selection) (Map_of_entries_get ts)).
  rewrite (omap_find_selection ts selection Hnd Hsub).
  match goal with |- scenario_tasks ?h' _ = _ /\ _ => set (h1 := h') end.
  assert (Hun : unchanged h h1) by apply unchanged_app.
  destruct (well_formed_accessors h1 scenarioA s o ts ms
              (Hun _ _ Hs) (Hun _ _ Ho) (Hun _ _ Hts) (Hun _ _ Hms))
    as (Ho1 & Hl1 & Ht1 & Hp1 & Hlog1).
  destruct (well_formed_accessors h1 (length h) _ _ _ _
              (lookup_ext_first h _ _)
              (lookup_ext h _ 2) (lookup_ext h _ 1) (lookup_ext h _ 3))
    as (HoB & HlB & HtB & HpB & HlogB).
  split; [exact HtB | congruence].
Qed.

(** *** Changing the priority of a task that is there *)

Lemma findIndex_first {A : Type} (p : A -> bool) (l1 l2 : list A) (x : A) :
  (forall y, In y l1 -> p y = false) -> p x = true ->
  findIndex p (l1 ++ x :: l2) = Z.of_nat (length l1).
Proof.
  intros Hl1 Hx. induction l1 as [|y l1 IH]; cbn [app findIndex length].
  - rewrite Hx. reflexivity.
  - rewrite (Hl1 y) by (left; reflexivity).
    rewrite IH by (intros z Hz; apply Hl1; right; exact Hz).
    destruct (Z.eqb_spec (Z.of_nat (length l1)) (-1)); lia.
Qed.

Section PriorityRun.
Variable sqrtQ : Q -> Q.
Variable now : Z.

Lemma modifyTaskPriority_present_run
  (h : store) (scenario : loc) (newPriority : Z) (hist : list Objective)
  (s : ScenarioObj) (o : ObjectiveObj) (l1 l2 : list Task) (t : Task)
  (ms : list ScenarioModification) :
  h !! scenario = Some (CScenario s) ->
  h !! modifiedObjective s = Some (CObjective o) ->
  h !! o_tasks o = Some (CTasks (l1 ++ t :: l2)) ->
  h !! modifications s = Some (CModifications ms) ->
  (forall x, In x l1 -> task_id x <> task_id t) ->
  let oldPriority :=
    match priority t with
    | Some p => if truthyZ p then p else 5%Z
    | None => 5%Z
    end in
  modifyTaskPriority sqrtQ now scenario (task_id t) newPriority hist h
  = Some (length h,
          h ++ [ CScenario
                   {| s_id := s_id s; s_name := s_name s;
                      s_description := s_description s;
                      baseObjective := baseObjective s;
                      modifiedObjective := length h + 2;
                      prediction :=
                        predictObjectiveCompletion sqrtQ now
                          (snapshot o (l1 ++ with_priority t newPriority :: l2))
                          hist;
                      s_createdAt := s_createdAt s;
                      modifications := length h + 3 |};
                 CTasks (l1 ++ with_priority t newPriority :: l2);
                 CObjective (with_tasks o (length h + 1));
                 CModifications
                   (ms ++ [ {| mod_type := change_priority;
                               mod_description :=
                                 "Changed priority of " +++ dquote +++ title t
                                 +++ dquote +++ " from "
                                 +++ Z_to_string oldPriority
                                 +++ " to " +++ Z_to_string newPriority;
                               mod_taskId := Some (task_id t);
                               details :=
                                 details_priority oldPriority newPriority |} ]) ]).
Proof.
  intros Hs Ho Hts Hms Hfirst oldPriority.
  unfold modifyTaskPriority, bind, ret.
  rewrite <- (app_nil_r h) at 1.
  store_run.
  rewrite (findIndex_first _ l1 l2 t);
    [| intros x Hx; apply String.eqb_neq, Hfirst, Hx | apply String.eqb_refl].
  destruct (Z.eqb_spec (Z.of_nat (length l1)) (-1)) as [E|_]; [lia|].
  rewrite Nat2Z.id, list_lookup_middle by reflexivity.
  unfold repredict, record_modification, load_objective,
    set_modifiedObjective, set_prediction, set_modifications, bind, ret.
  store_run.
  rewrite insert_app_r_alt by lia. rewrite Nat.sub_diag. cbn [insert list_insert].
  store_run. rewrite Nat.add_0_r. reflexivity.
Qed.

End PriorityRun.

(** X18: when the first task with id [taskId] is [t], [modifyTaskPriority]
    returns a new scenario in which that task, and no other, has the new
    priority, in a task array of its own; the old scenario keeps its
    tasks; the log gains an entry from the old priority, 5 when the task
    had none or 0, to the new one. *)
Theorem modifyTaskPriority_updates_first_match
  (sqrtQ : Q -> Q) (now : Z) (h : store) (scenarioA : loc) (newPriority : Z)
  (hist : list Objective) (l1 l2 : list Task) (t : Task) :
  well_formed_scenario h scenarioA ->
  scenario_tasks h scenarioA = Some (l1 ++ t :: l2) ->
  (forall x, In x l1 -> task_id x <> task_id t) ->
  exists (scenarioB : loc) (h' : store) (ms : list ScenarioModification),
    modifyTaskPriority sqrtQ now scenarioA (task_id t) newPriority hist h
    = Some (scenarioB, h')
    /\ unchanged h h'
    /\ scenarioB <> scenarioA
    /\ well_formed_scenario h' scenarioB
    /\ scenario_tasks h' scenarioB = Some (l1 ++ with_priority t newPriority :: l2)
    /\ scenario_tasks h' scenarioA = Some (l1 ++ t :: l2)
    /\ scenario_tasks_loc h' scenarioB <> scenario_tasks_loc h' scenarioA
    /\ scenario_log h scenarioA = Some ms
    /\ scenario_log h' scenarioB
       = Some (ms ++ [ {| mod_type := change_priority;
                          mod_description :=
                            "Changed priority of " +++ dquote +++ title t
                            +++ dquote +++ " from "
                            +++ Z_to_string
                                  (match priority t with
                                   | Some p => if truthyZ p then p else 5%Z
                                   | None => 5%Z
                                   end)
                            +++ " to " +++ Z_to_string newPriority;
                          mod_taskId := Some (task_id t);
                          details :=
                            details_priority
                              (match priority t with
                               | Some p => if truthyZ p then p else 5%Z
                               | None => 5%Z
                               end)
                              newPriority |} ]).
Proof.
  intros (s & o & ts & ms & Hs & Ho & Hts & Hms) Htasks Hfirst.
  destruct (well_formed_accessors h scenarioA s o ts ms Hs Ho Hts Hms)
    as (Ho0 & Hl0 & Ht0 & Hp0 & Hlog0).
  assert (Ets : ts = l1 ++ t :: l2) by congruence. subst ts.
  pose proof (lookup_lt_Some _ _ _ Hs) as HltA.
  pose proof (lookup_lt_Some _ _ _ Hts) as HltT.
  eexists _, _, ms.
  split; [eapply modifyTaskPriority_present_run; eassumption|].
  match goal with |- unchanged h ?h' /\ _ => set (h1 := h') end.
  assert (Hun : unchanged h h1) by apply unchanged_app.
  destruct (well_formed_accessors h1 scenarioA s o _ ms
              (Hun _ _ Hs) (Hun _ _ Ho) (Hun _ _ Hts) (Hun _ _ Hms))
    as (Ho1 & Hl1 & Ht1 & Hp1 & Hlog1).
  destruct (well_formed_accessors h1 (length h) _ _ _ _
              (lookup_ext_first h _ _)
              (lookup_ext h _ 2) (lookup_ext h _ 1) (lookup_ext h _ 3))
    as (HoB & HlB & HtB & HpB & HlogB).
  split; [exact Hun|]. split; [lia|].
  split.
  { eexists _, _, _, _. repeat split;
      [exact (lookup_ext_first h _ _) | exact (lookup_ext h _ 2)
      | exact (lookup_ext h _ 1) | exact (lookup_ext h _ 3)]. }
  split; [exact HtB|]. split; [exact Ht1|].
  split.
  { rewrite HlB, Hl1. cbn [o_tasks with_tasks]. intros E. injection E as E. lia. }
  split; [exact Hlog0 | exact HlogB].
Qed.

(** ** Comparing scenarios *)

Lemma view_scenario_run (h : store) (scenario : loc)
  (s : ScenarioObj) (o : ObjectiveObj) (ts : list Task)
  (ms : list ScenarioModification) :
  h !! scenario = Some (CScenario s) ->
  h !! modifiedObjective s = Some (CObjective o) ->
  h !! o_tasks o = Some (CTasks ts) ->
  h !! modifications s = Some (CModifications ms) ->
  view_scenario scenario h
  = Some ({| view_name := s_name s; view_prediction := prediction s;
             view_tasks := ts; view_modifications := ms |}, h).
Proof.
  intros Hs Ho Hts Hms. unfold view_scenario, bind, ret, get_scenario,
    get_objective, get_tasks, get_modifications, read, bind, ret.
  rewrite Hs, Ho, Hts, Hms. reflexivity.
Qed.

Lemma view_scenario_well_formed (h : store) (scenario : loc) :
  well_formed_scenario h scenario ->
  exists v, view_scenario scenario h = Some (v, h) /\ view_of h scenario v.
Proof.
  intros (s & o & ts & ms & Hs & Ho & Hts & Hms).
  eexists. split; [eapply view_scenario_run; eassumption|].
  destruct (well_formed_accessors h scenario s o ts ms Hs Ho Hts Hms)
    as (_ & _ & Ht0 & _ & Hlog0).
  exists s. unfold scenario_at. rewrite Hs. repeat split; assumption.
Qed.

Lemma mapM_view_run (h : store) (scenarios : list loc) :
  Forall (well_formed_scenario h) scenarios ->
  exists views,
    mapM view_scenario scenarios h = Some (views, h)
    /\ Forall2 (view_of h) scenarios views.
Proof.
  induction scenarios as [|x l IH]; intros H; cbn [mapM].
  - exists []. split; [reflexivity | constructor].
  - destruct (view_scenario_well_formed h x (Forall_inv H)) as (v & Ev & Hv).
    destruct (IH (Forall_inv_tail H)) as (vs & Evs & Hvs).
    exists (v :: vs). unfold bind, ret. rewrite Ev, Evs.
    split; [reflexivity | constructor; assumption].
Qed.

(** *** [Math.min] over an array and [indexOf] *)

Lemma Math_min_fold_finite (qs : list Q) (a : Q) :
  exists m : Q,
    fold_left Math_min (map Fin qs) (Fin a) = Fin m
    /\ (m = a \/ In m qs)
    /\ (m <= a)%Q
    /\ forall q, In q qs -> (m <= q)%Q.
Proof.
  revert a. induction qs as [|q qs IH]; intros a; cbn [map fold_left].
  - exists a. repeat split; [left; reflexivity | lra | intros q []].
  - unfold Math_min at 2. cbn [nltb].
    destruct (Qltb q a) eqn:E.
    + apply Qltb_lt in E. destruct (IH q) as (m & Em & Hin & Hle & Hall).
      exists m. repeat split; [exact Em | right | lra |].
      * destruct Hin as [->|Hin]; [left; reflexivity | right; exact Hin].
      * intros q' [<-|Hq']; [exact Hle | apply Hall, Hq'].
    + apply Qltb_ge in E. destruct (IH a) as (m & Em & Hin & Hle & Hall).
      exists m. repeat split; [exact Em | | exact Hle |].
      * destruct Hin as [->|Hin]; [left; reflexivity | right; right; exact Hin].
      * intros q' [<-|Hq']; [lra | apply Hall, Hq'].
Qed.

Lemma Math_min_list_finite (q : Q) (qs : list Q) :
  exists m : Q,
    Math_min_list (map Fin (q :: qs)) = Fin m
    /\ In m (q :: qs)
    /\ forall q', In q' (q :: qs) -> (m <= q')%Q.
Proof.
  unfold Math_min_list. cbn [map fold_left].
  change (Math_min PInf (Fin q)) with (Fin q).
  destruct (Math_min_fold_finite qs q) as (m & Em & Hin & Hle & Hall).
  exists m. repeat split; [exact Em | |].
  - destruct Hin as [->|Hin]; [left; reflexivity | right; exact Hin].
  - intros q' [<-|Hq']; [exact Hle | apply Hall, Hq'].
Qed.

Lemma findIndex_range {A : Type} (p : A -> bool) (l : list A) :
  findIndex p l = (-1)%Z
  \/ ((0 <= findIndex p l < Z.of_nat (length l))%Z
      /\ exists x, l !! Z.to_nat (findIndex p l) = Some x /\ p x = true).
Proof.
  induction l as [|x l IH]; cbn [findIndex length]; [left; reflexivity|].
  destruct (p x) eqn:E.
  - right. split; [lia|]. exists x. split; [reflexivity | exact E].
  - destruct IH as [->|[Hr (y & Hy & Py)]]; [left; reflexivity|].
    destruct (Z.eqb_spec (findIndex p l) (-1)); [lia|]. right. split; [lia|].
    exists y. split; [|exact Py].
    replace (Z.to_nat (findIndex p l + 1)) with (S (Z.to_nat (findIndex p l)))
      by lia. exact Hy.
Qed.

Lemma findIndex_found {A : Type} (p : A -> bool) (l : list A) (x : A) :
  In x l -> p x = true -> findIndex p l <> (-1)%Z.
Proof.
  intros Hin Hp. induction l as [|y l IH]; [destruct Hin|].
  cbn [findIndex]. destruct (p y) eqn:E; [lia|].
  destruct Hin as [->|Hin]; [congruence|].
  specialize (IH Hin). destruct (Z.eqb_spec (findIndex p l) (-1)); [contradiction|].
  destruct (findIndex_range p l) as [?|[? _]]; lia.
Qed.

Lemma element_run {A : Type} (l : list A) (i : Z) (h : store) :
  (0 <= i < Z.of_nat (length l))%Z ->
  exists x, element l i h = Some (x, h) /\ l !! Z.to_nat i = Some x.
Proof.
  intros Hi. unfold element.
  destruct (Z.ltb_spec i 0); [lia|].
  destruct (lookup_lt_is_Some_2 l (Z.to_nat i) ltac:(lia)) as [x Hx].
  exists x. rewrite Hx. split; reflexivity.
Qed.

Lemma riskMap_finite (r : RiskLevel) :
  riskMap r = Fin (match r with low => 1 | medium => 2 | high => 3 end).
Proof. destruct r; reflexivity. Qed.

(** The index of the lowest risk is an index of the array. *)
Lemma lowestRiskIndex_range (v : ScenarioView) (views : list ScenarioView) :
  let riskScores :=
    map (fun s => riskMap (riskLevel (view_prediction s))) (v :: views) in
  (0 <= indexOf riskScores (Math_min_list riskScores)
   < Z.of_nat (length (v :: views)))%Z.
Proof.
  intros riskScores.
  assert (E : riskScores
              = map Fin
                  (map (fun s => match riskLevel (view_prediction s) with
                                 | low => 1 | medium => 2 | high => 3
                                 end%Q) (v :: views))).
  { unfold riskScores. rewrite map_map. apply map_ext. intros s.
    apply riskMap_finite. }
  rewrite E. cbn [map].
  match goal with |- context [Math_min_list (Fin ?q :: map Fin ?qs)] =>
    destruct (Math_min_list_finite q qs) as (m & Em & Hin & _)
  end.
  cbn [map] in Em. rewrite Em. unfold indexOf.
  match goal with |- context [findIndex ?p ?l] =>
    destruct (findIndex_range p l) as [Hnone|[Hr _]];
    [exfalso; apply (findIndex_found p l (Fin m));
       [apply in_map with (f := Fin) in Hin; exact Hin
       | cbn [nstrict_eq]; apply Qeq_eq_bool; reflexivity
       | exact Hnone]
    |]
  end.
  cbn [length map] in Hr |- *. rewrite !length_map in Hr. lia.
Qed.

Lemma analyze_modifications_appends (timeDeltas : list number)
  (recommendations : list string) (scenario : ScenarioView) (index : nat) :
  exists extra,
    analyze_modifications timeDeltas recommendations scenario index
    = recommendations ++ extra.
Proof.
  unfold analyze_modifications, push_if.
  destruct (index =? 0); [exists []; rewrite app_nil_r; reflexivity|].
  cbv zeta.
  destruct (_ && nltb _ _); destruct (_ && RiskLevel_eqb _ _);
    rewrite <- ?app_assoc; eexists; try reflexivity.
  rewrite app_nil_r. reflexivity.
Qed.

Lemma forEach_appends (timeDeltas : list number) (views : list ScenarioView)
  (index : nat) (recommendations : list string) :
  exists extra,
    forEach_from (analyze_modifications timeDeltas) views index recommendations
    = recommendations ++ extra.
Proof.
  revert index recommendations.
  induction views as [|v views IH]; intros index recs; cbn [forEach_from].
  - exists []. rewrite app_nil_r. reflexivity.
  - destruct (analyze_modifications_appends timeDeltas recs v index) as [e1 ->].
    destruct (IH (S index) (recs ++ e1)) as [e2 ->].
    exists (e1 ++ e2). rewrite app_assoc. reflexivity.
Qed.

(** The run of [compareScenarios] on the views of a list of scenarios that
    is not empty. *)
Lemma compareScenarios_run (h : store) (scenarios : list loc)
  (v : ScenarioView) (vs : list ScenarioView) :
  scenarios <> [] ->
  mapM view_scenario scenarios h = Some (v :: vs, h) ->
  let deltas :=
    map (fun s => nsub (totalEstimatedTime (view_prediction s))
                    (totalEstimatedTime (view_prediction v))) (v :: vs) in
  let fastestIndex := indexOf deltas (Math_min_list deltas) in
  exists (recs extra : list string),
    compareScenarios scenarios h
    = Some ({| ScenarioUtils.scenarios := scenarios;
               timeDeltas := deltas;
               riskComparison :=
                 map (fun s =>
                        toUpperCase
                          (RiskLevel_to_string (riskLevel (view_prediction s)))
                        +++ " (" +++ nat_to_string (length (view_tasks s))
                        +++ " tasks, "
                        +++ nat_to_string (length (bottlenecks (view_prediction s)))
                        +++ " bottlenecks)") (v :: vs);
               recommendations := recs |}, h)
    /\ recs
       = match (if (0 <? fastestIndex)%Z
                then (v :: vs) !! Z.to_nat fastestIndex else None) with
         | Some fastest =>
             ["Scenario " +++ dquote +++ view_name fastest +++ dquote
              +++ " is the fastest option"]
         | None => []
         end ++ extra.
Proof.
  intros Hne Hmap deltas fastestIndex.
  unfold compareScenarios.
  destruct scenarios as [|x l]; [congruence|]. cbn [length Nat.eqb].
  unfold bind at 1. rewrite Hmap.
  unfold bind at 1. unfold element at 1. cbn [Z.ltb Z.compare].
  change (Z.to_nat 0) with 0%nat. change ((v :: vs) !! 0%nat) with (Some v).
  unfold ret at 1. cbv beta iota.
  fold deltas. fold fastestIndex.
  pose proof (lowestRiskIndex_range v vs) as Hli. cbv zeta in Hli.
  set (riskScores := map (fun s => riskMap (riskLevel (view_prediction s))) (v :: vs))
    in *.
  set (lowestRiskIndex := indexOf riskScores (Math_min_list riskScores)) in *.
  destruct (element_run (v :: vs) lowestRiskIndex h Hli) as (lowest & El & _).
  destruct (Z.ltb_spec 0 fastestIndex) as [Hpos|Hnpos].
  - assert (Hfi : (0 <= fastestIndex < Z.of_nat (length (v :: vs)))%Z).
    { unfold fastestIndex, indexOf in *.
      match goal with |- context [findIndex ?p ?l] =>
        destruct (findIndex_range p l) as [Hnone|[Hr _]]; [lia|]
      end.
      unfold deltas in Hr. rewrite length_map in Hr. exact Hr. }
    destruct (element_run (v :: vs) fastestIndex h Hfi) as (fastest & Ef & Hf).
    rewrite Hf.
    destruct (negb (lowestRiskIndex =? fastestIndex)%Z);
      unfold bind, ret; rewrite Ef; cbv beta iota; rewrite ?El; cbv beta iota;
      match goal with |- context [forEach_from ?f ?l ?i ?r] =>
        destruct (forEach_appends deltas l i r) as [extra Eextra]
      end;
      (eexists _, _; split; [reflexivity|]); rewrite Eextra;
      cbn [app]; rewrite <- ?app_assoc; cbn [app]; reflexivity.
  - destruct (negb (lowestRiskIndex =? fastestIndex)%Z);
      unfold bind, ret; rewrite ?El; cbv beta iota;
      (eexists _, _; split; reflexivity).
Qed.

Lemma map_lookup_Some {A B : Type} (f : A -> B) (l : list A) (i : nat) (x : A) :
  l !! i = Some x -> map f l !! i = Some (f x).
Proof.
  revert i. induction l as [|y l IH]; intros [|i] H; try discriminate.
  - injection H as ->. reflexivity.
  - cbn [map]. exact (IH i H).
Qed.

Lemma view_of_prediction (h : store) (scenario : loc) (v : ScenarioView)
  (p : ObjectivePrediction) :
  view_of h scenario v -> scenario_prediction h scenario = Some p ->
  view_prediction v = p.
Proof.
  intros (s & Hs & _ & Hp & _) H. unfold scenario_prediction in H.
  rewrite Hs in H. congruence.
Qed.

(** X19: on scenarios that are all well formed, [compareScenarios] does
    not throw and writes nothing: it returns the list it was given, one
    time delta and one risk line per scenario, the delta of a scenario
    being its total minus the total of the first scenario. *)
Theorem compareScenarios_returns (h : store) (scenarios : list loc) :
  Forall (well_formed_scenario h) scenarios ->
  exists c : ScenarioComparison,
    compareScenarios scenarios h = Some (c, h)
    /\ ScenarioUtils.scenarios c = scenarios
    /\ length (timeDeltas c) = length scenarios
    /\ length (riskComparison c) = length scenarios
    /\ forall (i : nat) (scenario first : loc) (p base : ObjectivePrediction),
         scenarios !! i = Some scenario -> scenarios !! 0 = Some first ->
         scenario_prediction h scenario = Some p ->
         scenario_prediction h first = Some base ->
         timeDeltas c !! i
         = Some (nsub (totalEstimatedTime p) (totalEstimatedTime base)).
Proof.
  intros Hwf. destruct scenarios as [|x l].
  { eexists. split; [reflexivity|]. repeat split. intros i ? ? ? ? H. 
    destruct i; discriminate H. }
  destruct (mapM_view_run h (x :: l) Hwf) as (views & Hmap & Hviews).
  pose proof (Forall2_length _ _ _ Hviews) as Hlen.
  destruct views as [|v vs]; [discriminate Hlen|].
  destruct (compareScenarios_run h (x :: l) v vs ltac:(discriminate) Hmap)
    as (recs & extra & Hrun & _).
  eexists. split; [exact Hrun|]. cbn [ScenarioUtils.scenarios timeDeltas riskComparison].
  rewrite !length_map. repeat split; try (symmetry; exact Hlen).
  intros i scenario first p base Hi H0 Hp Hbase.
  destruct (Forall2_lookup_l _ _ _ _ _ Hviews Hi) as (vi & Hvi & Hview).
  injection H0 as <-.
  rewrite (map_lookup_Some _ _ _ _ Hvi).
  rewrite (view_of_prediction h scenario vi p Hview Hp).
  apply Forall2_cons_1 in Hviews. destruct Hviews as [Hv _].
  rewrite (view_of_prediction h x v base Hv Hbase).
  reflexivity.
Qed.

Lemma indexOf_first_minimum (qs1 : list Q) (m : Q) (qs2 : list Q) :
  (forall q, In q qs1 -> (m < q)%Q) ->
  (forall q, In q qs2 -> (m <= q)%Q) ->
  indexOf (map Fin (qs1 ++ m :: qs2)) (Math_min_list (map Fin (qs1 ++ m :: qs2)))
  = Z.of_nat (length qs1).
Proof.
  intros H1 H2.
  assert (Hmin : exists m' : Q,
             Math_min_list (map Fin (qs1 ++ m :: qs2)) = Fin m'
             /\ In m' (qs1 ++ m :: qs2)
             /\ forall q, In q (qs1 ++ m :: qs2) -> (m' <= q)%Q).
  { destruct (qs1 ++ m :: qs2) as [|q0 rest] eqn:E;
      [destruct qs1; discriminate E|]. apply Math_min_list_finite. }
  destruct Hmin as (m' & Em & Hin & Hall). rewrite Em.
  assert (Hle : (m' <= m)%Q) by (apply Hall, in_elt).
  assert (Hge : (m <= m')%Q).
  { apply in_app_or in Hin. destruct Hin as [Hin|[<-|Hin]].
    - apply Qlt_le_weak, H1, Hin.
    - apply Qle_refl.
    - apply H2, Hin. }
  unfold indexOf. rewrite map_app. cbn [map].
  rewrite findIndex_first; [rewrite length_map; reflexivity | |].
  - intros y Hy. apply in_map_iff in Hy. destruct Hy as (q & <- & Hq).
    cbn [nstrict_eq]. destruct (Qeq_bool q m') eqn:E; [|reflexivity].
    apply Qeq_bool_eq in E. specialize (H1 q Hq). lra.
  - cbn [nstrict_eq]. apply Qeq_eq_bool. lra.
Qed.

(** X20: on well-formed scenarios the comparison is returned, and when
    its time deltas are finite and one of them, other than the first, is
    below the deltas before it and not above the deltas after it, the
    first recommendation names the scenario at that position as the
    fastest option. *)
Theorem compareScenarios_recommends_fastest (h : store) (scenarios : list loc) :
  Forall (well_formed_scenario h) scenarios ->
  exists c : ScenarioComparison,
    compareScenarios scenarios h = Some (c, h)
    /\ forall (before : list Q) (delta : Q) (after : list Q),
         timeDeltas c = map Fin (before ++ delta :: after) ->
         before <> [] ->
         (forall d, In d before -> (delta < d)%Q) ->
         (forall d, In d after -> (delta <= d)%Q) ->
         exists (fastest : loc) (s : ScenarioObj) (rest : list string),
           scenarios !! length before = Some fastest
           /\ scenario_at h fastest = Some s
           /\ recommendations c
              = ("Scenario " +++ dquote +++ s_name s +++ dquote
                 +++ " is the fastest option") :: rest.
Proof.
  intros Hwf.
  destruct (mapM_view_run h _ Hwf) as (views & Hmap & Hviews).
  destruct scenarios as [|first others].
  { eexists. split; [reflexivity|].
    intros before delta after Hd. cbn [timeDeltas] in Hd.
    destruct before; discriminate Hd. }
  destruct views as [|v vs]; [inversion Hviews|].
  destruct (compareScenarios_run h (first :: others) v vs ltac:(discriminate) Hmap)
    as (recs & extra & Hrun & Hrecs).
  cbv zeta in Hrecs.
  eexists. split; [exact Hrun|].
  cbn [timeDeltas recommendations].
  intros before delta after Hd Hne Hbefore Hafter.
  rewrite Hd in Hrecs.
  rewrite (indexOf_first_minimum before delta after Hbefore Hafter) in Hrecs.
  assert (Hpos : (0 < length before)%nat)
    by (destruct before; [congruence | cbn [length]; lia]).
  replace (0 <? Z.of_nat (length before))%Z with true in Hrecs
    by (symmetry; apply Z.ltb_lt; lia).
  rewrite Nat2Z.id in Hrecs.
  assert (Hlen : (length before < length (v :: vs))%nat).
  { apply (f_equal (@length number)) in Hd.
    rewrite !length_map, length_app in Hd. cbn [length] in Hd.
    cbn [length]. lia. }
  destruct (lookup_lt_is_Some_2 (v :: vs) (length before) Hlen) as [vf Hvf].
  rewrite Hvf in Hrecs. cbn [app] in Hrecs.
  destruct (Forall2_lookup_r _ _ _ _ _ Hviews Hvf) as (fastest & Hfast & Hview).
  destruct Hview as (s & Hs & Hname & _).
  exists fastest, s, extra. split; [exact Hfast|]. split; [exact Hs|].
  rewrite Hrecs, Hname. reflexivity.
Qed.

(** X21: comparing one scenario whose total is finite gives a single
    delta of zero and no recommendation. *)
Theorem compareScenarios_single (h : store) (scenario : loc) (q : Q) :
  well_formed_scenario h scenario ->
  option_map totalEstimatedTime (scenario_prediction h scenario) = Some (Fin q) ->
  exists (c : ScenarioComparison) (d : Q),
    compareScenarios [scenario] h = Some (c, h)
    /\ timeDeltas c = [Fin d] /\ (d == 0)%Q
    /\ recommendations c = [].
Proof.
  intros Hwf Hq.
  destruct (view_scenario_well_formed h scenario Hwf) as (v & Ev & Hv).
  assert (Et : totalEstimatedTime (view_prediction v) = Fin q).
  { destruct (scenario_prediction h scenario) as [p|] eqn:Ep; [|discriminate].
    rewrite (view_of_prediction h scenario v p Hv Ep). cbn in Hq. congruence. }
  unfold compareScenarios. cbn [length Nat.eqb mapM].
  unfold bind, ret. rewrite Ev. cbv beta iota.
  unfold element at 1. cbn [Z.ltb Z.compare].
  change (Z.to_nat 0) with 0%nat. change ([v] !! 0%nat) with (Some v).
  unfold ret. cbv beta iota. cbn [map]. rewrite Et. cbn [nsub nneg nadd].
  assert (Efi : indexOf [Fin (q + - q)] (Math_min_list [Fin (q + - q)]) = 0%Z).
  { unfold indexOf, Math_min_list. cbn [fold_left].
    change (Math_min PInf (Fin (q + - q))) with (Fin (q + - q)).
    cbn [findIndex nstrict_eq]. rewrite (Qeq_eq_bool _ _ (Qeq_refl (q + - q))).
    reflexivity. }
  rewrite !Efi. cbn [Z.ltb Z.compare].
  assert (Er : indexOf [riskMap (riskLevel (view_prediction v))]
                 (Math_min_list [riskMap (riskLevel (view_prediction v))]) = 0%Z)
    by (destruct (riskLevel (view_prediction v)); reflexivity).
  rewrite Er. cbn [Z.eqb negb forEach_from analyze_modifications Nat.eqb].
  eexists _, _. split; [reflexivity|]. cbn [timeDeltas recommendations].
  split; [reflexivity|]. split; [ring | reflexivity].
Qed.

(** *** The impact summary *)

(** X22: for two well-formed scenarios with the same total, the same
    number of tasks and the same risk level, a scenario and itself in
    particular, the impact summary is "Same duration" and nothing else,
    also when the totals are not finite. *)
Theorem getScenarioImpact_same
  (h : store) (scenario baseScenario : loc)
  (p pb : ObjectivePrediction) (ts tsb : list Task) :
  well_formed_scenario h scenario -> well_formed_scenario h baseScenario ->
  scenario_prediction h scenario = Some p ->
  scenario_prediction h baseScenario = Some pb ->
  scenario_tasks h scenario = Some ts ->
  scenario_tasks h baseScenario = Some tsb ->
  totalEstimatedTime p = totalEstimatedTime pb ->
  length ts = length tsb ->
  riskLevel p = riskLevel pb ->
  getScenarioImpact scenario baseScenario h = Some ("Same duration", h).
Proof.
  intros (s & o & ts' & ms & Hs & Ho & Hts & Hms)
         (sb & ob & tsb' & msb & Hsb & Hob & Htsb & Hmsb) Hp Hpb Ht Htb Etot Elen Erisk.
  destruct (well_formed_accessors h scenario s o ts' ms Hs Ho Hts Hms)
    as (_ & _ & Ht0 & Hp0 & _).
  destruct (well_formed_accessors h baseScenario sb ob tsb' msb Hsb Hob Htsb Hmsb)
    as (_ & _ & Htb0 & Hpb0 & _).
  assert (ts' = ts) by congruence. assert (tsb' = tsb) by congruence.
  assert (prediction s = p) by congruence.
  assert (prediction sb = pb) by congruence. subst ts' tsb' p pb.
  unfold getScenarioImpact, bind, ret, get_scenario, get_objective, get_tasks,
    read, bind, ret.
  rewrite Hs, Hsb, Ho, Hts, Hob, Htsb. cbv beta iota.
  rewrite Etot, Elen, Erisk, Z.sub_diag.
  assert (Ersk : RiskLevel_eqb (riskLevel (prediction sb)) (riskLevel (prediction sb))
                 = true) by (destruct (riskLevel (prediction sb)); reflexivity).
  rewrite Ersk. cbn [Z.eqb negb push_if].
  assert (Hnot : ngtb (nsub (totalEstimatedTime (prediction sb))
                         (totalEstimatedTime (prediction sb))) (Fin 0) = false
                 /\ nltb (nsub (totalEstimatedTime (prediction sb))
                            (totalEstimatedTime (prediction sb))) (Fin 0) = false).
  { destruct (totalEstimatedTime (prediction sb)) as [q| | |];
      try (split; reflexivity).
    unfold ngtb. cbn [nsub nneg nadd nltb].
    split; apply Qltb_ge; lra. }
  destruct Hnot as [-> ->]. reflexivity.
Qed.

(** *** The properties on the sample store *)

Lemma sample_scenario_tasks :
  scenario_tasks sample_store 5 = Some [sample_task; sample_task_no_category].
Proof. reflexivity. Qed.

Lemma removeTaskFromScenario_removes_witness :
  exists (scenarioB : loc) (h' : store),
    removeTaskFromScenario sqrt_floor 0 5 "t1" [] sample_store
    = Some (scenarioB, h')
    /\ scenario_tasks h' scenarioB = Some [sample_task_no_category]
    /\ scenario_tasks h' 5 = Some [sample_task; sample_task_no_category].
Proof.
  destruct (removeTaskFromScenario_removes sqrt_floor 0 sample_store 5 "t1" []
              sample_scenario_well_formed)
    as (scenarioB & h' & o & ts & ms & Hrun & _ & _ & _ & _ & Hts & _ & HtA & HtB & _).
  rewrite sample_scenario_tasks in Hts. injection Hts as <-.
  exists scenarioB, h'. repeat split; [exact Hrun | exact HtB | exact HtA].
Defined.

Lemma removeTaskFromScenario_absent_copies_witness :
  exists (scenarioB : loc) (h' : store),
    removeTaskFromScenario sqrt_floor 0 5 "nonexistent-id" [] sample_store
    = Some (scenarioB, h')
    /\ scenarioB <> 5
    /\ scenario_log h' scenarioB = scenario_log sample_store 5.
Proof.
  destruct (removeTaskFromScenario_absent_copies sqrt_floor 0 sample_store 5
              "nonexistent-id" [] sample_scenario_well_formed)
    as (scenarioB & h' & Hrun & Hne & _ & _ & _ & Hlog).
  - intros ts t Hts. rewrite sample_scenario_tasks in Hts. injection Hts as <-.
    intros [<-|[<-|[]]]; discriminate.
  - exists scenarioB, h'. repeat split; assumption.
Defined.


Lemma changeAgentRole_shares_tasks_witness :
  exists (scenarioB : loc) (h' : store),
    changeAgentRole sqrt_floor 0 5 developer [] sample_store = Some (scenarioB, h')
    /\ scenario_tasks_loc h' scenarioB = scenario_tasks_loc h' 5
    /\ option_map o_agentRole (scenario_objective h' scenarioB)
       = Some (Some developer).
Proof.
  destruct (changeAgentRole_shares_tasks sqrt_floor 0 sample_store 5 developer []
              sample_scenario_well_formed)
    as (scenarioB & h' & o & ts & ms & Hrun & _ & _ & _ & _ & _ & _ & _
        & HoB & Hshare & _).
  exists scenarioB, h'. repeat split; [exact Hrun | exact Hshare|].
  rewrite HoB. reflexivity.
Defined.

Lemma reorderTasks_keeps_listed_witness :
  exists (scenarioB : loc) (h' : store),
    reorderTasks sqrt_floor 0 5 ["t2"; "zz"; "t1"] [] sample_store
    = Some (scenarioB, h')
    /\ scenario_tasks h' scenarioB = Some [sample_task_no_category; sample_task].
Proof.
  destruct (reorderTasks_keeps_listed sqrt_floor 0 sample_store 5
              ["t2"; "zz"; "t1"] [] sample_scenario_well_formed)
    as (scenarioB & h' & ts & reordered & ms & Hrun & _ & _ & _ & Hts & _ & _
        & HtB & Hre & _).
  rewrite sample_scenario_tasks in Hts. injection Hts as <-.
  exists scenarioB, h'. split; [exact Hrun|]. rewrite HtB, Hre. reflexivity.
Defined.

Lemma reorderTasks_by_ids_of_tasks_witness :
  exists (scenarioB : loc) (h' : store),
    reorderTasks sqrt_floor 0 5 ["t2"; "t1"] [] sample_store = Some (scenarioB, h')
    /\ scenario_tasks h' scenarioB = Some [sample_task_no_category; sample_task].
Proof.
  destruct (reorderTasks_by_ids_of_tasks sqrt_floor 0 sample_store 5
              [sample_task_no_category; sample_task] [] sample_scenario_well_formed)
    as (scenarioB & h' & Hrun & HtB & _).
  - intros ts Hts. rewrite sample_scenario_tasks in Hts. injection Hts as <-.
    split.
    + repeat constructor; cbn; intuition discriminate.
    + intros t [<-|[<-|[]]]; cbn; tauto.
  - exists scenarioB, h'. split; assumption.
Defined.

Lemma modifyTaskPriority_updates_first_match_witness :
  exists (scenarioB : loc) (h' : store),
    modifyTaskPriority sqrt_floor 0 5 "t2" 7 [] sample_store = Some (scenarioB, h')
    /\ scenario_tasks h' scenarioB
       = Some [sample_task; with_priority sample_task_no_category 7]
    /\ scenario_tasks h' 5 = Some [sample_task; sample_task_no_category].
Proof.
  destruct (modifyTaskPriority_updates_first_match sqrt_floor 0 sample_store 5 7 []
              [sample_task] [] sample_task_no_category
              sample_scenario_well_formed sample_scenario_tasks)
    as (scenarioB & h' & ms & Hrun & _ & _ & _ & HtB & HtA & _).
  - intros x [<-|[]]. discriminate.
  - exists scenarioB, h'. repeat split; assumption.
Defined.

Lemma createScenario_well_formed_witness :
  exists (scenario : loc) (h' : store),
    createScenario sqrt_floor 0 "abc1234" 0 "Plan B" "none" [] sample_store
    = Some (scenario, h')
    /\ well_formed_scenario h' scenario
    /\ scenario_tasks h' scenario = Some [sample_task; sample_task_no_category].
Proof.
  destruct (createScenario_well_formed sqrt_floor 0 "abc1234" sample_store 0
              "Plan B" "none" [] (sample_objective_obj 1)
              [sample_task; sample_task_no_category] eq_refl eq_refl)
    as (scenario & h' & Hrun & _ & Hwf & Hts & _).
  exists scenario, h'. repeat split; assumption.
Defined.

Lemma comparison_store_well_formed :
  Forall (well_formed_scenario comparison_store) [5; 6].
Proof.
  repeat constructor; eexists _, _, _, _; repeat split; reflexivity.
Defined.

Lemma compareScenarios_returns_witness :
  exists c : ScenarioComparison,
    compareScenarios [5; 6] comparison_store = Some (c, comparison_store)
    /\ length (timeDeltas c) = 2.
Proof.
  destruct (compareScenarios_returns comparison_store [5; 6]
              comparison_store_well_formed)
    as (c & Hrun & _ & Hlen & _).
  exists c. split; assumption.
Defined.

Lemma compareScenarios_recommends_fastest_witness :
  exists (c : ScenarioComparison) (rest : list string),
    compareScenarios [5; 6] comparison_store = Some (c, comparison_store)
    /\ recommendations c
       = ("Scenario " +++ dquote +++ "Baseline" +++ dquote
          +++ " is the fastest option") :: rest.
Proof.
  destruct (compareScenarios_recommends_fastest comparison_store [5; 6]
              comparison_store_well_formed)
    as (c & Hrun & Hfastest).
  pose proof Hrun as Hc. vm_compute in Hc. injection Hc as Hc.
  assert (Hd : exists base delta : Q, timeDeltas c = map Fin ([base] ++ delta :: [])
                                      /\ (delta < base)%Q).
  { rewrite <- Hc. eexists _, _. split; reflexivity. }
  destruct Hd as (base & delta & Hd & Hlt).
  destruct (Hfastest [base] delta [] Hd)
    as (fastest & s & rest & Hlook & Hs & Hrecs).
  - discriminate.
  - intros d [<-|[]]. exact Hlt.
  - intros d [].
  - exists c, rest. split; [exact Hrun|]. rewrite Hrecs.
    cbn in Hlook. injection Hlook as <-. injection Hs as <-. reflexivity.
Defined.

Lemma compareScenarios_single_witness :
  exists c : ScenarioComparison,
    compareScenarios [5] sample_store = Some (c, sample_store)
    /\ recommendations c = [].
Proof.
  destruct (compareScenarios_single sample_store 5
              (match totalEstimatedTime (prediction sample_scenario) with
               | Fin q => q | _ => 0%Q
               end) sample_scenario_well_formed eq_refl)
    as (c & d & Hrun & _ & _ & Hrecs).
  exists c. split; assumption.
Defined.

Lemma getScenarioImpact_same_witness :
  getScenarioImpact 5 5 sample_store = Some ("Same duration", sample_store).
Proof.
  apply (getScenarioImpact_same sample_store 5 5 (prediction sample_scenario)
           (prediction sample_scenario)
           [sample_task; sample_task_no_category]
           [sample_task; sample_task_no_category]
           sample_scenario_well_formed sample_scenario_well_formed);
    reflexivity.
Defined.

(** A scenario with a task removed against the one it was made from. *)
Example getScenarioImpact_after_removal :
  getScenarioImpact 6 5 comparison_store
  = Some ("15m faster, -1 tasks", comparison_store).
Proof. vm_compute. reflexivity. Qed.

End StoreProofs.

(** ** The CSV helper *)

Lemma unescapeCSV_replace_quotes (s : string) :
  unescapeCSV (ScenarioUtils.replace_quotes s) = s.
Proof.
  induction s as [|c s IH]; [reflexivity|].
  cbn [ScenarioUtils.replace_quotes].
  destruct (Ascii.eqb c "034") eqn:E.
  - cbn [unescapeCSV]. rewrite E. cbn [andb]. rewrite IH. reflexivity.
  - destruct s as [|c' s'].
    + reflexivity.
    + change (unescapeCSV (String c (ScenarioUtils.replace_quotes (String c' s'))))
        with (match ScenarioUtils.replace_quotes (String c' s') with
              | String c'' s'' =>
                  if Ascii.eqb c "034" && Ascii.eqb c'' "034"
                  then String c (unescapeCSV s'')
                  else String c (unescapeCSV (ScenarioUtils.replace_quotes (String c' s')))
              | EmptyString => String c EmptyString
              end).
      rewrite E. cbn [andb]. rewrite IH.
      cbn [ScenarioUtils.replace_quotes].
      destruct (Ascii.eqb c' "034"); reflexivity.
Qed.

Lemma replace_quotes_length (s : string) :
  String.length (ScenarioUtils.replace_quotes s)
  = (String.length s + count_quotes s)%nat.
Proof.
  induction s as [|c s IH]; [reflexivity|].
  cbn [ScenarioUtils.replace_quotes count_quotes].
  destruct (Ascii.eqb c "034"); cbn [String.length]; rewrite IH; lia.
Qed.

(** X23: [escapeCSV] loses nothing: reading its result back with a doubled
    quote as one quote gives the string it was given, so different strings
    have different escapes; the result is longer than the string by the
    number of its quotes. *)
Theorem escapeCSV_round_trip (str : string) :
  unescapeCSV (ScenarioUtils.escapeCSV str) = str
  /\ String.length (ScenarioUtils.escapeCSV str)
     = (String.length str + count_quotes str)%nat.
Proof.
  unfold ScenarioUtils.escapeCSV. destruct str as [|c s]; [split; reflexivity|].
  cbn [truthy_str negb].
  split; [apply unescapeCSV_replace_quotes | apply replace_quotes_length].
Qed.

Example escapeCSV_sample :
  ScenarioUtils.escapeCSV ("say " +++ ScenarioUtils.dquote +++ "hi" +++ ScenarioUtils.dquote)
  = "say " +++ ScenarioUtils.dquote +++ ScenarioUtils.dquote +++ "hi"
    +++ ScenarioUtils.dquote +++ ScenarioUtils.dquote.
Proof. reflexivity. Qed.
